(** * The terminal typing engine and its playback controller

    A shallow embedding of [scripts/js/terminal/typing-engine.js]
    ([TypingEngine]) and [scripts/js/terminal/terminal-controller.js]
    ([TerminalController]), with the part of the browser they run on:
    the timer table of [setTimeout]/[clearTimeout], the promises made by
    [typeText] with the continuation that [typeCurrentSnippet] awaits on
    them, [Math.random], the output element and the sound manager.

    Numbers that are floating-point in the browser (delays, draws of
    [Math.random]) are the rationals they denote.  Calls of
    [console.log] are left out; [console.warn], [console.error] and the
    calls to the sound manager are recorded in [trace].

    The sound manager ([scripts/js/terminal/sound-manager.js]) is kept
    as its [isEnabled] flag and as the calls made to it.  What it does
    inside a call is not part of the model: the oscillators it starts,
    the timers by which [playStartup] and [playComplete] space their
    notes, and the draw of [Math.random] by which [playKeypress] varies
    its pitch.  So the timer table holds the timers of the engine and of
    the controller and no others, and the random source gives the draws
    that the engine makes, in the order in which it makes them.

    Every method is a function on the state of the page ([World]); a
    method that returns a value returns it next to the new state.  Code
    that runs later (a timer callback, the rest of an async function) is
    a value of [closure] or an entry of the microtask queue, run by
    [fire] and [drain]. *)

From Stdlib Require Import ZArith QArith Qround List Bool String Ascii Lia Lqa.
From stdpp Require Import base option list gmap.

Local Open Scope nat_scope.
Local Open Scope list_scope.

(** ** Values *)

(** A JavaScript string is a sequence of UTF-16 code units. *)
Abbreviation jsstring := (list N).

Definition js (s : string) : jsstring :=
  List.map N_of_ascii (list_ascii_of_string s).

Definition NEWLINE : N := 10.
Definition SPACE : N := 32.

(** [/[.!?;]/.test(char)] *)
Definition is_punctuation (c : N) : bool :=
  (c =? 46)%N || (c =? 33)%N || (c =? 63)%N || (c =? 59)%N.

(** [/[A-Z]/.test(char)] *)
Definition is_uppercase (c : N) : bool := (65 <=? c)%N && (c <=? 90)%N.

(** [currentText.slice(0, -1)] *)
Definition slice_drop_last (s : jsstring) : jsstring := removelast s.

(** The numbers the controller keeps in [currentSnippetIndex]: integers,
    and [NaN] once a remainder by zero has been taken. *)
Inductive jsnum := Num (z : Z) | NaN.

Definition js_add (a : jsnum) (k : Z) : jsnum :=
  match a with Num z => Num (z + k) | NaN => NaN end.

(** [a % n]: the sign follows the dividend, and a zero divisor gives NaN. *)
Definition js_rem (a : jsnum) (n : Z) : jsnum :=
  match a with
  | Num z => if (n =? 0)%Z then NaN else Num (Z.rem z n)
  | NaN => NaN
  end.

(** [a === 0] *)
Definition js_is_zero (a : jsnum) : bool :=
  match a with Num z => (z =? 0)%Z | NaN => false end.

(** [index >= 0 && index < n]; every comparison with NaN is false. *)
Definition js_in_range (a : jsnum) (n : Z) : bool :=
  match a with Num z => (0 <=? z)%Z && (z <? n)%Z | NaN => false end.

(** A draw of [Math.random()]: a number in [0, 1).  Floating-point
    numbers are taken as the rationals they denote. *)
Definition in_unit (q : Q) : bool := Qle_bool 0 q && negb (Qle_bool 1 q).

Record rand01 := Rand01 { rval : Q; rval_ok : in_unit rval = true }.

Definition Qlt_bool (a b : Q) : bool := negb (Qle_bool b a).

(** ** Data model *)

Record Snippet := {
  sn_id : jsstring;
  sn_title : jsstring;
  sn_language : jsstring;
  sn_code : jsstring
}.

Inductive js_error := Error (msg : string).

Inductive pstate := Pending | Fulfilled | Rejected (e : js_error).

Inductive cue := Keypress | Backspace | Enter | Complete | Startup.

Inductive effect :=
| Cue (k : cue)
| ConsoleWarn (msg : string)
| ConsoleError (msg : string).

(** The classes [setState] puts on the container. *)
Inductive phase := Idle | Typing | Paused | Completed | PError.

(** The functions handed to [setTimeout]. *)
Inductive closure :=
| TypeNext (text : jsstring) (index : nat)
    (* () => this._typeCharacters(text, index + 1), of _typeCharacters *)
| ErrBackspace (text : jsstring) (index : nat) (char : N) (baseSpeed : Q)
    (* the outer callback of _simulateError *)
| ErrRetype (text : jsstring) (index : nat) (char : N) (baseSpeed : Q)
    (* its second callback, 100 ms later *)
| ErrContinue (text : jsstring) (index : nat)
    (* its third: () => this._typeCharacters(text, index + 1) *)
| Rotate          (* () => this.nextSnippet(), of scheduleNextRotation *)
| Cooldown        (* () => this.isUserInteracting = false *)
| AutoStart.      (* () => this.startDemo(), of init *)

Definition engine_closure (c : closure) : bool :=
  match c with
  | TypeNext _ _ | ErrBackspace _ _ _ _ | ErrRetype _ _ _ _ | ErrContinue _ _ => true
  | Rotate | Cooldown | AutoStart => false
  end.

Record timer := { t_fn : closure; t_delay : Q }.

(** What [this.onComplete], [this.onProgress] and [this.onError] hold:
    the arrow functions of [setupTypingCallbacks], or the [resolve] and
    [reject] of the promise of a [typeText] call. *)
Inductive complete_cb := ControllerComplete | Resolve (p : nat).
Inductive progress_cb := ControllerProgress.
Inductive error_cb := ControllerError | Reject (p : nat).

Record EngineOptions := {
  baseSpeed : Q;
  speedVariation : Q;
  pauseChance : Q;
  pauseDuration : Q;
  errorChance : Q;
  errorCorrectDelay : Q
}.

Record Engine := {
  options : EngineOptions;
  isTyping : bool;
  isPaused : bool;
  currentTimeout : option positive;
  onComplete : option complete_cb;
  onProgress : option progress_cb;
  onError : option error_cb;
  targetText : option jsstring      (* undefined until typeWithCursor *)
}.

Record ControllerOptions := {
  autoStart : bool;
  autoRotate : bool;
  rotateInterval : Q;
  typingSpeed : Q;
  waitAfterComplete : Q
}.

Record Controller := {
  c_options : ControllerOptions;
  currentSnippetIndex : jsnum;
  c_isTyping : bool;
  c_isPaused : bool;
  isUserInteracting : bool;
  autoRotateTimer : option positive;
  typingCompleteTimer : option positive;
  snippets : list Snippet
}.

(** The elements of the page the two classes write to. *)
Record Dom := {
  out_text : jsstring;        (* elements.output.textContent *)
  out_class : jsstring;       (* elements.output.className *)
  container_state : phase;    (* the state class of the container *)
  title_text : jsstring;      (* elements.title.textContent *)
  status_text : jsstring;     (* elements.statusText.textContent *)
  toggle_muted : bool         (* 'muted' on elements.soundToggle *)
}.

(** The browser: pending timers of the engine and of the controller
    (the notes that the sound manager schedules for a chime are not in
    the table), promises, microtasks, the random source as the engine
    draws from it, [window.soundManager] ([None] when absent, else its
    [isEnabled]) and what has been played or logged so far. *)
Record Env := {
  timers : gmap positive timer;
  next_timer : positive;
  promises : gmap nat pstate;
  next_promise : nat;
  awaiting : list nat;        (* promises typeCurrentSnippet awaits *)
  microtasks : list pstate;   (* continuations of typeCurrentSnippet ready to run *)
  oracle : nat -> rand01;
  drawn : nat;
  sound : option bool;
  trace : list effect
}.

Record World := { eng : Engine; ctl : Controller; dom : Dom; env : Env }.

(** ** Field updates *)

Definition upd_eng (f : Engine -> Engine) (w : World) : World :=
  {| eng := f (eng w); ctl := ctl w; dom := dom w; env := env w |}.
Definition upd_ctl (f : Controller -> Controller) (w : World) : World :=
  {| eng := eng w; ctl := f (ctl w); dom := dom w; env := env w |}.
Definition upd_dom (f : Dom -> Dom) (w : World) : World :=
  {| eng := eng w; ctl := ctl w; dom := f (dom w); env := env w |}.
Definition upd_env (f : Env -> Env) (w : World) : World :=
  {| eng := eng w; ctl := ctl w; dom := dom w; env := f (env w) |}.

Definition set_options (x : EngineOptions) (e : Engine) : Engine :=
  {| options := x; isTyping := isTyping e; isPaused := isPaused e;
     currentTimeout := currentTimeout e; onComplete := onComplete e;
     onProgress := onProgress e; onError := onError e; targetText := targetText e |}.
Definition set_isTyping (x : bool) (e : Engine) : Engine :=
  {| options := options e; isTyping := x; isPaused := isPaused e;
     currentTimeout := currentTimeout e; onComplete := onComplete e;
     onProgress := onProgress e; onError := onError e; targetText := targetText e |}.
Definition set_isPaused (x : bool) (e : Engine) : Engine :=
  {| options := options e; isTyping := isTyping e; isPaused := x;
     currentTimeout := currentTimeout e; onComplete := onComplete e;
     onProgress := onProgress e; onError := onError e; targetText := targetText e |}.
Definition set_currentTimeout (x : option positive) (e : Engine) : Engine :=
  {| options := options e; isTyping := isTyping e; isPaused := isPaused e;
     currentTimeout := x; onComplete := onComplete e;
     onProgress := onProgress e; onError := onError e; targetText := targetText e |}.
Definition set_onComplete (x : option complete_cb) (e : Engine) : Engine :=
  {| options := options e; isTyping := isTyping e; isPaused := isPaused e;
     currentTimeout := currentTimeout e; onComplete := x;
     onProgress := onProgress e; onError := onError e; targetText := targetText e |}.
Definition set_onProgress (x : option progress_cb) (e : Engine) : Engine :=
  {| options := options e; isTyping := isTyping e; isPaused := isPaused e;
     currentTimeout := currentTimeout e; onComplete := onComplete e;
     onProgress := x; onError := onError e; targetText := targetText e |}.
Definition set_onError (x : option error_cb) (e : Engine) : Engine :=
  {| options := options e; isTyping := isTyping e; isPaused := isPaused e;
     currentTimeout := currentTimeout e; onComplete := onComplete e;
     onProgress := onProgress e; onError := x; targetText := targetText e |}.
Definition set_targetText (x : option jsstring) (e : Engine) : Engine :=
  {| options := options e; isTyping := isTyping e; isPaused := isPaused e;
     currentTimeout := currentTimeout e; onComplete := onComplete e;
     onProgress := onProgress e; onError := onError e; targetText := x |}.

Definition set_baseSpeed (x : Q) (o : EngineOptions) : EngineOptions :=
  {| baseSpeed := x; speedVariation := speedVariation o; pauseChance := pauseChance o;
     pauseDuration := pauseDuration o; errorChance := errorChance o;
     errorCorrectDelay := errorCorrectDelay o |}.

Definition set_c_options (x : ControllerOptions) (c : Controller) : Controller :=
  {| c_options := x; currentSnippetIndex := currentSnippetIndex c;
     c_isTyping := c_isTyping c; c_isPaused := c_isPaused c;
     isUserInteracting := isUserInteracting c; autoRotateTimer := autoRotateTimer c;
     typingCompleteTimer := typingCompleteTimer c; snippets := snippets c |}.
Definition set_currentSnippetIndex (x : jsnum) (c : Controller) : Controller :=
  {| c_options := c_options c; currentSnippetIndex := x;
     c_isTyping := c_isTyping c; c_isPaused := c_isPaused c;
     isUserInteracting := isUserInteracting c; autoRotateTimer := autoRotateTimer c;
     typingCompleteTimer := typingCompleteTimer c; snippets := snippets c |}.
Definition set_c_isTyping (x : bool) (c : Controller) : Controller :=
  {| c_options := c_options c; currentSnippetIndex := currentSnippetIndex c;
     c_isTyping := x; c_isPaused := c_isPaused c;
     isUserInteracting := isUserInteracting c; autoRotateTimer := autoRotateTimer c;
     typingCompleteTimer := typingCompleteTimer c; snippets := snippets c |}.
Definition set_c_isPaused (x : bool) (c : Controller) : Controller :=
  {| c_options := c_options c; currentSnippetIndex := currentSnippetIndex c;
     c_isTyping := c_isTyping c; c_isPaused := x;
     isUserInteracting := isUserInteracting c; autoRotateTimer := autoRotateTimer c;
     typingCompleteTimer := typingCompleteTimer c; snippets := snippets c |}.
Definition set_isUserInteracting (x : bool) (c : Controller) : Controller :=
  {| c_options := c_options c; currentSnippetIndex := currentSnippetIndex c;
     c_isTyping := c_isTyping c; c_isPaused := c_isPaused c;
     isUserInteracting := x; autoRotateTimer := autoRotateTimer c;
     typingCompleteTimer := typingCompleteTimer c; snippets := snippets c |}.
Definition set_autoRotateTimer (x : option positive) (c : Controller) : Controller :=
  {| c_options := c_options c; currentSnippetIndex := currentSnippetIndex c;
     c_isTyping := c_isTyping c; c_isPaused := c_isPaused c;
     isUserInteracting := isUserInteracting c; autoRotateTimer := x;
     typingCompleteTimer := typingCompleteTimer c; snippets := snippets c |}.
Definition set_typingCompleteTimer (x : option positive) (c : Controller) : Controller :=
  {| c_options := c_options c; currentSnippetIndex := currentSnippetIndex c;
     c_isTyping := c_isTyping c; c_isPaused := c_isPaused c;
     isUserInteracting := isUserInteracting c; autoRotateTimer := autoRotateTimer c;
     typingCompleteTimer := x; snippets := snippets c |}.

Definition set_autoRotate (x : bool) (o : ControllerOptions) : ControllerOptions :=
  {| autoStart := autoStart o; autoRotate := x; rotateInterval := rotateInterval o;
     typingSpeed := typingSpeed o; waitAfterComplete := waitAfterComplete o |}.
Definition set_typingSpeed (x : Q) (o : ControllerOptions) : ControllerOptions :=
  {| autoStart := autoStart o; autoRotate := autoRotate o; rotateInterval := rotateInterval o;
     typingSpeed := x; waitAfterComplete := waitAfterComplete o |}.

Definition set_out_text (x : jsstring) (d : Dom) : Dom :=
  {| out_text := x; out_class := out_class d; container_state := container_state d;
     title_text := title_text d; status_text := status_text d; toggle_muted := toggle_muted d |}.
Definition set_out_class (x : jsstring) (d : Dom) : Dom :=
  {| out_text := out_text d; out_class := x; container_state := container_state d;
     title_text := title_text d; status_text := status_text d; toggle_muted := toggle_muted d |}.
Definition set_container_state (x : phase) (d : Dom) : Dom :=
  {| out_text := out_text d; out_class := out_class d; container_state := x;
     title_text := title_text d; status_text := status_text d; toggle_muted := toggle_muted d |}.
Definition set_title_text (x : jsstring) (d : Dom) : Dom :=
  {| out_text := out_text d; out_class := out_class d; container_state := container_state d;
     title_text := x; status_text := status_text d; toggle_muted := toggle_muted d |}.
Definition set_status_text (x : jsstring) (d : Dom) : Dom :=
  {| out_text := out_text d; out_class := out_class d; container_state := container_state d;
     title_text := title_text d; status_text := x; toggle_muted := toggle_muted d |}.
Definition set_toggle_muted (x : bool) (d : Dom) : Dom :=
  {| out_text := out_text d; out_class := out_class d; container_state := container_state d;
     title_text := title_text d; status_text := status_text d; toggle_muted := x |}.

Definition set_timers (x : gmap positive timer) (e : Env) : Env :=
  {| timers := x; next_timer := next_timer e; promises := promises e;
     next_promise := next_promise e; awaiting := awaiting e; microtasks := microtasks e;
     oracle := oracle e; drawn := drawn e; sound := sound e; trace := trace e |}.
Definition set_next_timer (x : positive) (e : Env) : Env :=
  {| timers := timers e; next_timer := x; promises := promises e;
     next_promise := next_promise e; awaiting := awaiting e; microtasks := microtasks e;
     oracle := oracle e; drawn := drawn e; sound := sound e; trace := trace e |}.
Definition set_promises (x : gmap nat pstate) (e : Env) : Env :=
  {| timers := timers e; next_timer := next_timer e; promises := x;
     next_promise := next_promise e; awaiting := awaiting e; microtasks := microtasks e;
     oracle := oracle e; drawn := drawn e; sound := sound e; trace := trace e |}.
Definition set_next_promise (x : nat) (e : Env) : Env :=
  {| timers := timers e; next_timer := next_timer e; promises := promises e;
     next_promise := x; awaiting := awaiting e; microtasks := microtasks e;
     oracle := oracle e; drawn := drawn e; sound := sound e; trace := trace e |}.
Definition set_awaiting (x : list nat) (e : Env) : Env :=
  {| timers := timers e; next_timer := next_timer e; promises := promises e;
     next_promise := next_promise e; awaiting := x; microtasks := microtasks e;
     oracle := oracle e; drawn := drawn e; sound := sound e; trace := trace e |}.
Definition set_microtasks (x : list pstate) (e : Env) : Env :=
  {| timers := timers e; next_timer := next_timer e; promises := promises e;
     next_promise := next_promise e; awaiting := awaiting e; microtasks := x;
     oracle := oracle e; drawn := drawn e; sound := sound e; trace := trace e |}.
Definition set_drawn (x : nat) (e : Env) : Env :=
  {| timers := timers e; next_timer := next_timer e; promises := promises e;
     next_promise := next_promise e; awaiting := awaiting e; microtasks := microtasks e;
     oracle := oracle e; drawn := x; sound := sound e; trace := trace e |}.
Definition set_sound (x : option bool) (e : Env) : Env :=
  {| timers := timers e; next_timer := next_timer e; promises := promises e;
     next_promise := next_promise e; awaiting := awaiting e; microtasks := microtasks e;
     oracle := oracle e; drawn := drawn e; sound := x; trace := trace e |}.
Definition set_trace (x : list effect) (e : Env) : Env :=
  {| timers := timers e; next_timer := next_timer e; promises := promises e;
     next_promise := next_promise e; awaiting := awaiting e; microtasks := microtasks e;
     oracle := oracle e; drawn := drawn e; sound := sound e; trace := x |}.

(** ** The browser *)

Definition emit (e : effect) (w : World) : World :=
  upd_env (fun v => set_trace (trace v ++ [e]) v) w.

(** [Math.random()] *)
Definition Math_random (w : World) : Q * World :=
  (rval (oracle (env w) (drawn (env w))),
   upd_env (fun v => set_drawn (S (drawn v)) v) w).

(** [setTimeout(f, delay)]: a fresh, non-zero handle. *)
Definition setTimeout (f : closure) (delay : Q) (w : World) : positive * World :=
  let id := next_timer (env w) in
  (id, upd_env (fun v =>
         set_next_timer (Pos.succ id)
           (set_timers (<[id := {| t_fn := f; t_delay := delay |}]> (timers v)) v)) w).

(** [clearTimeout(id)] and [clearInterval(id)]: nothing happens when the
    handle is not pending. *)
Definition clearTimeout (id : positive) (w : World) : World :=
  upd_env (fun v => set_timers (delete id (timers v)) v) w.

(** [new Promise(...)] *)
Definition new_promise (w : World) : nat * World :=
  let p := next_promise (env w) in
  (p, upd_env (fun v =>
        set_next_promise (S p) (set_promises (<[p := Pending]> (promises v)) v)) w).

(** [resolve()] and [reject(e)]: only the first call settles the promise;
    an async function suspended on it is queued as a microtask. *)
Definition settle (p : nat) (o : pstate) (w : World) : World :=
  match promises (env w) !! p with
  | Some Pending =>
      let w := upd_env (fun v => set_promises (<[p := o]> (promises v)) v) w in
      if bool_decide (p ∈ awaiting (env w)) then
        upd_env (fun v =>
          set_microtasks (microtasks v ++ [o])
            (set_awaiting (List.filter (fun q => negb (q =? p)) (awaiting v)) v)) w
      else w
  | _ => w
  end.

(** [await promise], in [typeCurrentSnippet], the only awaiting code. *)
Definition await (p : nat) (w : World) : World :=
  match promises (env w) !! p with
  | Some Pending => upd_env (fun v => set_awaiting (p :: awaiting v) v) w
  | Some o => upd_env (fun v => set_microtasks (microtasks v ++ [o]) v) w
  | None => w
  end.

(** [this.soundManager && this.soundManager.isAudioEnabled()] *)
Definition audio_on (w : World) : bool :=
  match sound (env w) with Some b => b | None => false end.

(** ** TerminalController: the methods the engine's callbacks reach *)

Definition snippet_at (l : list Snippet) (i : jsnum) : option Snippet :=
  match i with
  | Num z => if (0 <=? z)%Z then l !! Z.to_nat z else None
  | NaN => None
  end.

Definition setState (state : phase) (w : World) : World :=
  upd_dom (set_container_state state) w.

(** [updateProgress] only writes to the console. *)
Definition updateProgress (args : option (nat * nat)) (w : World) : World := w.

(** [customTitle || snippet?.title || '~/projects']: the empty string is
    falsy. *)
Definition truthy_or (a : option jsstring) (b : jsstring) : jsstring :=
  match a with
  | Some (c :: s) => c :: s
  | _ => b
  end.

Definition updateTerminalTitle (customTitle : option jsstring) (w : World) : World :=
  let snippet := snippet_at (snippets (ctl w)) (currentSnippetIndex (ctl w)) in
  let title :=
    truthy_or customTitle (truthy_or (sn_title <$> snippet) (js "~/projects")) in
  upd_dom (set_title_text title) w.

Definition updateStatusText (w : World) : World :=
  let text :=
    if c_isPaused (ctl w) then js "Paused - click to continue"
    else if c_isTyping (ctl w) then js "Typing... click to skip"
    else js "Click anywhere to see next project" in
  upd_dom (set_status_text text) w.

Definition updateSoundToggleUI (w : World) : World :=
  match sound (env w) with
  | Some isEnabled => upd_dom (set_toggle_muted (negb isEnabled)) w
  | None => w
  end.

Definition updateUI (w : World) : World :=
  let w := updateProgress None w in
  let w := updateTerminalTitle None w in
  let w := updateStatusText w in
  updateSoundToggleUI w.

Definition clearRotationTimers (w : World) : World :=
  let w :=
    match autoRotateTimer (ctl w) with
    | Some id => upd_ctl (set_autoRotateTimer None) (clearTimeout id w)
    | None => w
    end in
  match typingCompleteTimer (ctl w) with
  | Some id => upd_ctl (set_typingCompleteTimer None) (clearTimeout id w)
  | None => w
  end.

Definition scheduleNextRotation (w : World) : World :=
  let w := clearRotationTimers w in
  if autoRotate (c_options (ctl w)) && negb (isUserInteracting (ctl w))
     && negb (c_isPaused (ctl w))
  then
    let '(id, w) := setTimeout Rotate (waitAfterComplete (c_options (ctl w))) w in
    upd_ctl (set_typingCompleteTimer (Some id)) w
  else w.

Definition onTypingComplete (w : World) : World :=
  let w := setState Completed w in
  let w := updateUI w in
  scheduleNextRotation w.

(** ** TypingEngine *)

(** Prism only restyles the element; the text it shows stays. *)
Definition _highlightSyntax (w : World) : World := w.

(** [playKeypress] is recorded as the cue; the pitch it draws inside
    the sound manager is not a draw of the engine. *)
Definition _playKeypressSound (w : World) : World :=
  if audio_on w then emit (Cue Keypress) w else w.

Definition _playBackspaceSound (w : World) : World :=
  if audio_on w then emit (Cue Backspace) w else w.

Definition _playEnterSound (w : World) : World :=
  if audio_on w then emit (Cue Enter) w else w.

Definition call_complete (cb : complete_cb) (w : World) : World :=
  match cb with
  | ControllerComplete => onTypingComplete w
  | Resolve p => settle p Fulfilled w
  end.

Definition call_progress (cb : progress_cb) (current total : nat) (w : World) : World :=
  match cb with
  | ControllerProgress => updateProgress (Some (current, total)) w
  end.

(** [playComplete] is recorded as the cue; the four notes it schedules
    inside the sound manager are not timers of the table. *)
Definition _completeTyping (w : World) : World :=
  let w := upd_eng (set_isTyping false) w in
  let w := _highlightSyntax w in
  let w := if audio_on w then emit (Cue Complete) w else w in
  match onComplete (eng w) with
  | Some cb => call_complete cb w
  | None => w
  end.

Definition wrongChars : jsstring := js "qwertyuiopasdfghjklzxcvbnm".

(** [text += x] where [x] may be [undefined]. *)
Definition append_char (s : jsstring) (x : option N) : jsstring :=
  match x with
  | Some c => s ++ [c]
  | None => s ++ js "undefined"
  end.

Definition _simulateError (text : jsstring) (index : nat) (baseSpeed : Q) (w : World)
  : World :=
  let char := nth index text 0%N in
  let '(r, w) := Math_random w in
  let wrongChar := wrongChars !! Z.to_nat (Qfloor (r * 26)%Q) in
  let w := upd_dom (fun d => set_out_text (append_char (out_text d) wrongChar) d) w in
  let w := _playKeypressSound w in
  let w := _highlightSyntax w in
  let '(id, w) :=
    setTimeout (ErrBackspace text index char baseSpeed)
               (errorCorrectDelay (options (eng w))) w in
  upd_eng (set_currentTimeout (Some id)) w.

Definition _typeCharacters (text : jsstring) (index : nat) (w : World) : World :=
  if negb (isTyping (eng w)) || isPaused (eng w) then w
  else if length text <=? index then _completeTyping w
  else
    let char := nth index text 0%N in
    let baseSpeed := baseSpeed (options (eng w)) in
    let '(r, w) := Math_random w in
    let variation := ((r - (1 # 2)) * speedVariation (options (eng w)))%Q in
    let speed := (baseSpeed + variation)%Q in
    let '(speed, w) :=
      if (char =? NEWLINE)%N then ((speed * 2)%Q, _playEnterSound w)
      else if (char =? SPACE)%N then ((speed * (3 # 2))%Q, w)
      else if is_punctuation char then ((speed * 2)%Q, w)
      else if is_uppercase char then ((speed * (6 # 5))%Q, w)
      else (speed, _playKeypressSound w) in
    let '(r, w) := Math_random w in
    let speed :=
      if Qlt_bool r (pauseChance (options (eng w)))
      then (speed + pauseDuration (options (eng w)))%Q else speed in
    let '(r, w) := Math_random w in
    if Qlt_bool r (errorChance (options (eng w))) && negb (char =? NEWLINE)%N
    then _simulateError text index speed w
    else
      let w := upd_dom (fun d => set_out_text (out_text d ++ [char]) d) w in
      let w := _highlightSyntax w in
      let w :=
        match onProgress (eng w) with
        | Some cb => call_progress cb (index + 1) (length text) w
        | None => w
        end in
      let '(id, w) := setTimeout (TypeNext text index) speed w in
      upd_eng (set_currentTimeout (Some id)) w.

(** [typeText] returns the promise it makes. *)
Definition typeText (text language : jsstring) (w : World) : nat * World :=
  let '(p, w) := new_promise w in
  if isTyping (eng w) then (p, settle p (Rejected (Error "Already typing")) w)
  else
    let w := upd_eng (set_isTyping true) w in
    let w := upd_eng (set_isPaused false) w in
    let w := upd_eng (set_onComplete (Some (Resolve p))) w in
    let w := upd_eng (set_onError (Some (Reject p))) w in
    let w := upd_dom (set_out_text []) w in
    let w := upd_dom (set_out_class (js "language-" ++ language)) w in
    (p, _typeCharacters text 0 w).

Definition pause (w : World) : World :=
  if isTyping (eng w) then
    let w := upd_eng (set_isPaused true) w in
    match currentTimeout (eng w) with
    | Some id => upd_eng (set_currentTimeout None) (clearTimeout id w)
    | None => w
    end
  else w.

Definition resume (w : World) : World :=
  if isTyping (eng w) && isPaused (eng w) then
    let w := upd_eng (set_isPaused false) w in
    let currentText := out_text (dom w) in
    let fullText := default [] (targetText (eng w)) in
    if length currentText <? length fullText
    then _typeCharacters fullText (length currentText) w
    else w
  else w.

Definition stop (w : World) : World :=
  let w := upd_eng (set_isTyping false) w in
  let w := upd_eng (set_isPaused false) w in
  match currentTimeout (eng w) with
  | Some id => upd_eng (set_currentTimeout None) (clearTimeout id w)
  | None => w
  end.

Definition clear (w : World) : World :=
  let w := stop w in
  upd_dom (set_out_text []) w.

Definition setSpeed (speed : Q) (w : World) : World :=
  upd_eng (fun e => set_options (set_baseSpeed speed (options e)) e) w.

Definition typeWithCursor (text language : jsstring) (w : World) : nat * World :=
  let w := upd_eng (set_targetText (Some text)) w in
  typeText text language w.

(** ** TerminalController: the methods that drive the engine *)

(** The rest of [typeCurrentSnippet] after [await typeText(...)]: the
    [catch] block when the promise was rejected, then [finally]. *)
Definition typeCurrentSnippet_resume (o : pstate) (w : World) : World :=
  let w :=
    match o with
    | Rejected e => setState PError (emit (ConsoleError "Error typing snippet:") w)
    | _ => w
    end in
  upd_ctl (set_c_isTyping false) w.

Definition typeCurrentSnippet (w : World) : World :=
  match snippet_at (snippets (ctl w)) (currentSnippetIndex (ctl w)) with
  | None => w
  | Some snippet =>
      let w := upd_ctl (set_c_isTyping true) w in
      let w := setState Typing w in
      let w := updateTerminalTitle (Some (sn_title snippet)) w in
      let w := updateUI w in
      let w := upd_dom (set_out_text []) w in
      let '(p, w) := typeText (sn_code snippet) (sn_language snippet) w in
      await p w
  end.

(** [startDemo] is async: next to the new state it gives the state, on
    return, of the promise it hands back. *)
Definition startDemo (w : World) : pstate * World :=
  if length (snippets (ctl w)) =? 0 then
    (Fulfilled, emit (ConsoleWarn "No code snippets available") w)
  else
    let w :=
      match sound (env w) with
      | Some _ => emit (Cue Startup) w
      | None => w
      end in
    (Pending, typeCurrentSnippet w).

Definition nextSnippet (w : World) : World :=
  let w := clearRotationTimers w in
  let w :=
    upd_ctl (fun c =>
      set_currentSnippetIndex
        (js_rem (js_add (currentSnippetIndex c) 1) (Z.of_nat (length (snippets c)))) c) w in
  typeCurrentSnippet w.

Definition previousSnippet (w : World) : World :=
  let w := clearRotationTimers w in
  let w :=
    upd_ctl (fun c =>
      set_currentSnippetIndex
        (if js_is_zero (currentSnippetIndex c)
         then Num (Z.of_nat (length (snippets c)) - 1)
         else js_add (currentSnippetIndex c) (-1)) c) w in
  typeCurrentSnippet w.

Definition restartCurrentSnippet (w : World) : World :=
  let w := clearRotationTimers w in
  typeCurrentSnippet w.

Definition handleUserInteraction (w : World) : World :=
  let w := upd_ctl (set_isUserInteracting true) w in
  let w := clearRotationTimers w in
  let w := nextSnippet w in
  snd (setTimeout Cooldown 5000 w).

Definition pauseDemo (w : World) : World :=
  let w := upd_ctl (set_c_isPaused true) w in
  let w := pause w in
  let w := clearRotationTimers w in
  let w := setState Paused w in
  updateUI w.

Definition resumeDemo (w : World) : World :=
  let w := upd_ctl (set_c_isPaused false) w in
  let w := resume w in
  let w := setState Typing w in
  updateUI w.

Definition togglePause (w : World) : World :=
  if c_isPaused (ctl w) then resumeDemo w else pauseDemo w.

Definition toggleSound (w : World) : World :=
  match sound (env w) with
  | Some isEnabled =>
      updateSoundToggleUI (upd_env (set_sound (Some (negb isEnabled))) w)
  | None => w
  end.

Definition setSnippet (index : jsnum) (w : World) : World :=
  if js_in_range index (Z.of_nat (length (snippets (ctl w)))) then
    let w := clearRotationTimers w in
    let w := upd_ctl (set_currentSnippetIndex index) w in
    typeCurrentSnippet w
  else w.

Definition setTypingSpeed (speed : Q) (w : World) : World :=
  let w := upd_ctl (fun c => set_c_options (set_typingSpeed speed (c_options c)) c) w in
  setSpeed speed w.

Definition setAutoRotate (enabled : bool) (w : World) : World :=
  let w := upd_ctl (fun c => set_c_options (set_autoRotate enabled (c_options c)) c) w in
  if negb enabled then clearRotationTimers w else w.

(** The state the constructor leaves: [init] makes the engine with the
    controller's options, registers the callbacks, and schedules
    [startDemo] one second later when [autoStart] is set and there are
    snippets. *)
Definition init (opts : ControllerOptions) (snips : list Snippet)
    (soundManager : option bool) (random : nat -> rand01) : World :=
  let w :=
    {| eng := {| options := {| baseSpeed := typingSpeed opts; speedVariation := 20;
                               pauseChance := 8 # 100; pauseDuration := 200;
                               errorChance := 15 # 1000; errorCorrectDelay := 500 |};
                 isTyping := false; isPaused := false; currentTimeout := None;
                 onComplete := None; onProgress := None; onError := None;
                 targetText := None |};
       ctl := {| c_options := opts; currentSnippetIndex := Num 0;
                 c_isTyping := false; c_isPaused := false; isUserInteracting := false;
                 autoRotateTimer := None; typingCompleteTimer := None;
                 snippets := snips |};
       dom := {| out_text := []; out_class := []; container_state := Idle;
                 title_text := []; status_text := []; toggle_muted := false |};
       env := {| timers := ∅; next_timer := 1%positive; promises := ∅;
                 next_promise := 0; awaiting := []; microtasks := [];
                 oracle := random; drawn := 0; sound := soundManager; trace := [] |} |} in
  (* setupTypingCallbacks *)
  let w := upd_eng (set_onProgress (Some ControllerProgress)) w in
  let w := upd_eng (set_onComplete (Some ControllerComplete)) w in
  let w := upd_eng (set_onError (Some ControllerError)) w in
  let w := updateUI w in
  if autoStart opts && (0 <? length snips)
  then snd (setTimeout AutoStart 1000 w)
  else w.

(** ** The event loop *)

(** The microtask checkpoint after a task: every queued continuation of
    [typeCurrentSnippet] runs, in order. *)
Definition drain (w : World) : World :=
  match microtasks (env w) with
  | [] => w
  | ms =>
      fold_left (fun w o => typeCurrentSnippet_resume o w) ms
                (upd_env (set_microtasks []) w)
  end.

Definition run_closure (c : closure) (w : World) : World :=
  match c with
  | TypeNext text index => _typeCharacters text (index + 1) w
  | ErrBackspace text index char baseSpeed =>
      let w := upd_dom (fun d => set_out_text (slice_drop_last (out_text d)) d) w in
      let w := _playBackspaceSound w in
      let w := _highlightSyntax w in
      let '(id, w) := setTimeout (ErrRetype text index char baseSpeed) 100 w in
      upd_eng (set_currentTimeout (Some id)) w
  | ErrRetype text index char baseSpeed =>
      let w := upd_dom (fun d => set_out_text (out_text d ++ [char]) d) w in
      let w := _playKeypressSound w in
      let w := _highlightSyntax w in
      let '(id, w) := setTimeout (ErrContinue text index) baseSpeed w in
      upd_eng (set_currentTimeout (Some id)) w
  | ErrContinue text index => _typeCharacters text (index + 1) w
  | Rotate => nextSnippet w
  | Cooldown => upd_ctl (set_isUserInteracting false) w
  | AutoStart => snd (startDemo w)
  end.

(** A pending timer fires: it leaves the table and its callback runs.
    Firing a handle that is not pending does nothing. *)
Definition fire (id : positive) (w : World) : World :=
  match timers (env w) !! id with
  | Some t => run_closure (t_fn t) (clearTimeout id w)
  | None => w
  end.

(** What can happen to the page: a timer fires, or a method of the
    engine or of the controller is called (by a listener of
    [setupEventListeners], by [handleKeydown], or from outside). *)
Inductive event :=
| Fire (id : positive)
| CallTypeText (text language : jsstring)
| CallTypeWithCursor (text language : jsstring)
| CallPause
| CallResume
| CallStop
| CallClear
| CallSetSpeed (speed : Q)
| CallStartDemo
| CallNextSnippet
| CallPreviousSnippet
| CallRestartCurrentSnippet
| CallHandleUserInteraction
| CallTogglePause
| CallPauseDemo
| CallResumeDemo
| CallToggleSound
| CallSetSnippet (index : jsnum)
| CallSetTypingSpeed (speed : Q)
| CallSetAutoRotate (enabled : bool)
| CallOnTypingComplete.

Definition handle (e : event) (w : World) : World :=
  match e with
  | Fire id => fire id w
  | CallTypeText text language => snd (typeText text language w)
  | CallTypeWithCursor text language => snd (typeWithCursor text language w)
  | CallPause => pause w
  | CallResume => resume w
  | CallStop => stop w
  | CallClear => clear w
  | CallSetSpeed speed => setSpeed speed w
  | CallStartDemo => snd (startDemo w)
  | CallNextSnippet => nextSnippet w
  | CallPreviousSnippet => previousSnippet w
  | CallRestartCurrentSnippet => restartCurrentSnippet w
  | CallHandleUserInteraction => handleUserInteraction w
  | CallTogglePause => togglePause w
  | CallPauseDemo => pauseDemo w
  | CallResumeDemo => resumeDemo w
  | CallToggleSound => toggleSound w
  | CallSetSnippet index => setSnippet index w
  | CallSetTypingSpeed speed => setTypingSpeed speed w
  | CallSetAutoRotate enabled => setAutoRotate enabled w
  | CallOnTypingComplete => onTypingComplete w
  end.

(** One turn of the event loop: the task, then the microtask checkpoint. *)
Definition step (e : event) (w : World) : World := drain (handle e w).

Definition run (es : list event) (w : World) : World :=
  fold_left (fun w e => step e w) es w.

Inductive reachable : World -> Prop :=
| reach_init opts snips soundManager random :
    reachable (init opts snips soundManager random)
| reach_step e w : reachable w -> reachable (step e w).

(** The engine's pending timer fires, until promise [p] is settled:
    time passes and nothing else touches the page. *)
Fixpoint await_run (fuel : nat) (p : nat) (w : World) : option World :=
  match promises (env w) !! p with
  | Some Pending =>
      match fuel with
      | O => None
      | S fuel' =>
          match currentTimeout (eng w) with
          | Some id =>
              match timers (env w) !! id with
              | Some _ => await_run fuel' p (step (Fire id) w)
              | None => None
              end
          | None => None
          end
      end
  | _ => Some w
  end.

(** ** Concrete pages, for the scenarios below *)

Definition draw_half : rand01 := Rand01 (1 # 2) eq_refl.
Definition draw_zero : rand01 := Rand01 0 eq_refl.

Definition demo_options : ControllerOptions :=
  {| autoStart := true; autoRotate := true; rotateInterval := 30000;
     typingSpeed := 60; waitAfterComplete := 5000 |}.

Definition snippet_of (s : string) : Snippet :=
  {| sn_id := js s; sn_title := js s; sn_language := js "javascript"; sn_code := js s |}.

(** A page without snippets. *)
Definition empty_page : World := init demo_options [] (Some true) (fun _ => draw_half).

(** A page with the two snippets "ab" and "cd"; no draw of the random
    source triggers a thinking pause or a typing error. *)
Definition two_page : World :=
  init demo_options [snippet_of "ab"; snippet_of "cd"] (Some true) (fun _ => draw_half).

(** [two_page] one second later: [startDemo] has run and the engine is
    typing "ab", with "a" on screen. *)
Definition two_page_typing : World := step (Fire 1) two_page.

(** ** Where an undisturbed session stands

    Between two turns of the event loop a session over [text] waits on
    one timer; [session_point] relates the callback of that timer to the
    text on screen, and [remaining] bounds the timers still to fire
    before the session completes. *)

Definition session_point (text out : jsstring) (k : closure) : Prop :=
  match k with
  | TypeNext t i | ErrContinue t i =>
      t = text /\ i < length text /\ out = take (S i) text
  | ErrBackspace t i c _ =>
      t = text /\ i < length text /\ c = nth i text 0%N
      /\ exists x, out = take i text ++ [x]
  | ErrRetype t i c _ =>
      t = text /\ i < length text /\ c = nth i text 0%N /\ out = take i text
  | Rotate | Cooldown | AutoStart => False
  end.

Definition remaining (text : jsstring) (k : closure) : nat :=
  match k with
  | TypeNext _ i | ErrContinue _ i => 3 * (length text - S i) + 1
  | ErrRetype _ i _ _ => 3 * (length text - S i) + 2
  | ErrBackspace _ i _ _ => 3 * (length text - S i) + 3
  | Rotate | Cooldown | AutoStart => 0
  end.

(** The engine is typing and not paused, [typeText] has left the
    [resolve] of promise [p] in [onComplete], [p] is pending, and the
    engine's timer is pending with callback [k]. *)
Definition in_session (text : jsstring) (p : nat) (k : closure) (w : World) : Prop :=
  isTyping (eng w) = true /\ isPaused (eng w) = false
  /\ onComplete (eng w) = Some (Resolve p)
  /\ promises (env w) !! p = Some Pending
  /\ p < next_promise (env w)
  /\ exists id d,
       currentTimeout (eng w) = Some id
       /\ timers (env w) !! id = Some {| t_fn := k; t_delay := d |}
       /\ session_point text (out_text (dom w)) k.

(** The session of promise [p] over [text] has completed. *)
Definition completed (text : jsstring) (p : nat) (w : World) : Prop :=
  promises (env w) !! p = Some Fulfilled
  /\ out_text (dom w) = text
  /\ isTyping (eng w) = false.

(** An engine forced to mistype: [errorChance = 1], every draw 0. *)
Definition forced_error_page : World :=
  upd_eng (set_options {| baseSpeed := 10; speedVariation := 20; pauseChance := 0;
                          pauseDuration := 200; errorChance := 1;
                          errorCorrectDelay := 500 |})
          (init demo_options [] (Some true) (fun _ => draw_zero)).

(** The cues the character-class chain of [_typeCharacters] plays for a
    character: the branches for a space, for [.!?;] and for a capital
    only adjust the speed. *)
Definition emission_cues (audio : bool) (c : N) : list effect :=
  if audio then
    if (c =? NEWLINE)%N then [Cue Enter]
    else if (c =? SPACE)%N then []
    else if is_punctuation c then []
    else if is_uppercase c then []
    else [Cue Keypress]
  else [].

Definition cue_eqb (a b : cue) : bool :=
  match a, b with
  | Keypress, Keypress | Backspace, Backspace | Enter, Enter
  | Complete, Complete | Startup, Startup => true
  | _, _ => false
  end.

(** How many times cue [k] has been played. *)
Definition cue_count (k : cue) (tr : list effect) : nat :=
  length (List.filter (fun e => match e with
                                | Cue k' => cue_eqb k' k
                                | _ => false
                                end) tr).

(** [if (h) { clearTimeout(h); h = null }], on the timer table. *)
Definition cancel (h : option positive) (m : gmap positive timer) : gmap positive timer :=
  match h with
  | Some id => delete id m
  | None => m
  end.

(** The UI updates write the title, the status line and the state and
    toggle classes only. *)
Definition ui_only (w w' : World) : Prop :=
  eng w' = eng w /\ ctl w' = ctl w /\ env w' = env w
  /\ out_text (dom w') = out_text (dom w).

(** An engine that types "xy" and mistypes the first character only:
    the third draw, which decides on the error, is 0 and the others
    are 1/2. *)
Definition one_error_page : World :=
  upd_eng (set_options {| baseSpeed := 10; speedVariation := 20; pauseChance := 0;
                          pauseDuration := 200; errorChance := 1 # 4;
                          errorCorrectDelay := 500 |})
          (init demo_options [] (Some true)
                (fun n => if n =? 2 then draw_zero else draw_half)).

(** [two_page] once "ab" is typed out and the controller's
    [onTypingComplete] has run: the phase is Completed and the hold timer
    is pending. *)
Definition two_page_completed : World :=
  run [Fire 1; Fire 2; Fire 3; CallOnTypingComplete] two_page.

(** ** The scheduling discipline

    Every pending timer has a handle below [next_timer]; a pending
    callback of the engine is the one [currentTimeout] names, and the
    engine is then typing and not paused; a pending rotation is the one
    [typingCompleteTimer] names. *)

Definition timers_fresh (w : World) : Prop :=
  forall id t, timers (env w) !! id = Some t -> (id < next_timer (env w))%positive.

Definition engine_tracked (w : World) : Prop :=
  forall id t, timers (env w) !! id = Some t -> engine_closure (t_fn t) = true ->
    currentTimeout (eng w) = Some id
    /\ isTyping (eng w) = true /\ isPaused (eng w) = false.

Definition rotation_tracked (w : World) : Prop :=
  forall id t, timers (env w) !! id = Some t -> t_fn t = Rotate ->
    typingCompleteTimer (ctl w) = Some id.

Definition wf (w : World) : Prop :=
  timers_fresh w /\ engine_tracked w /\ rotation_tracked w.

(** No callback of the engine is pending. *)
Definition engine_idle (w : World) : Prop :=
  forall id t, timers (env w) !! id = Some t -> engine_closure (t_fn t) = false.

(** No rotation is pending. *)
Definition no_rotation (w : World) : Prop :=
  forall id t, timers (env w) !! id = Some t -> t_fn t <> Rotate.

(** The promise [p] of a session that was stopped: it is pending, and
    should its [resolve] still sit in [onComplete], the engine is not
    typing. *)
Definition abandoned (p : nat) (w : World) : Prop :=
  promises (env w) !! p = Some Pending
  /\ p < next_promise (env w)
  /\ (onComplete (eng w) = Some (Resolve p) -> isTyping (eng w) = false).

(** The session of promise [p] is in flight: the engine is typing, with
    the [resolve] of [p] in [onComplete], and [p] is pending. *)
Definition session_of (p : nat) (w : World) : Prop :=
  isTyping (eng w) = true
  /\ onComplete (eng w) = Some (Resolve p)
  /\ promises (env w) !! p = Some Pending
  /\ p < next_promise (env w).

(** Between [w] and [w'] the engine and the text on screen are the
    same, the completion cue has not been played, and no timer has been
    scheduled. *)
Definition nothing_typed (w w' : World) : Prop :=
  eng w' = eng w
  /\ out_text (dom w') = out_text (dom w)
  /\ cue_count Complete (trace (env w')) = cue_count Complete (trace (env w))
  /\ (forall id t, timers (env w') !! id = Some t -> timers (env w) !! id = Some t).

(** Case analysis on the condition of an [if] in the goal. *)
Ltac case_if :=
  match goal with
  | |- context [if ?c then _ else _] => destruct c eqn:?
  end.

(** The calls by which the user or the rotation moves to a snippet. *)
Definition navigation (e : event) : bool :=
  match e with
  | CallNextSnippet | CallPreviousSnippet | CallRestartCurrentSnippet
  | CallHandleUserInteraction | CallSetSnippet _ => true
  | _ => false
  end.

(** ** Helpers for the properties of the other methods *)

(** The engine's pending timer fires, if the engine holds a handle. *)
Definition tick (w : World) : World :=
  match currentTimeout (eng w) with
  | Some id => step (Fire id) w
  | None => w
  end.

(** The text on screen is a prefix of [text], or a prefix followed by
    one more character. *)
Definition prefix_or_one_more (text out : jsstring) : Prop :=
  exists i, i <= length text
            /\ (out = take i text \/ exists x, i < length text /\ out = take i text ++ [x]).

(** The callback [_simulateBackspace] gives to [setInterval]; [remaining]
    is the variable it closes over.  [None]: the interval has been
    cleared and the promise resolved. *)
Definition backspace_tick (remaining : Z) (w : World) : option Z * World :=
  if (remaining <=? 0)%Z then (None, w)
  else
    let currentText := out_text (dom w) in
    let w :=
      if 0 <? length currentText then
        let w := upd_dom (set_out_text (slice_drop_last currentText)) w in
        let w := _playBackspaceSound w in
        _highlightSyntax w
      else w in
    (Some (remaining - 1)%Z, w).

(** The interval of [_simulateBackspace count] fires [ticks] times, with
    nothing else touching the page in between. *)
Fixpoint backspace_ticks (ticks : nat) (remaining : Z) (w : World) : option Z * World :=
  match ticks with
  | O => (Some remaining, w)
  | S n =>
      match backspace_tick remaining w with
      | (Some r, w') => backspace_ticks n r w'
      | (None, w') => (None, w')
      end
  end.


(** The session of snippet [s] has begun in [w], with promise [p]: the
    page shows the typing phase, the snippet's title (or '~/projects'
    when it is empty) and its language class, and, as the engine's
    timers fire, the code of the snippet gets typed out. *)
Definition starts_typing (s : Snippet) (p : nat) (w : World) : Prop :=
  container_state (dom w) = Typing
  /\ title_text (dom w) = truthy_or (Some (sn_title s)) (js "~/projects")
  /\ out_class (dom w) = js "language-" ++ sn_language s
  /\ (exists k, in_session (sn_code s) p k w)
  /\ exists w2, await_run (3 * length (sn_code s)) p w = Some w2
                /\ completed (sn_code s) p w2.


(** The engine calls the controller's [onTypingComplete] only through
    its [onComplete] field; the controller itself never calls it. *)
Definition direct_completion (e : event) : bool :=
  match e with
  | CallOnTypingComplete => true
  | _ => false
  end.

(** While the engine is typing, its [onComplete] is the [resolve] of a
    promise; and, as long as [onTypingComplete] was not called from
    outside ([organic]), the page has never shown the completed phase
    and no hold timer was ever scheduled. *)
Definition completion_inv (organic : bool) (w : World) : Prop :=
  (isTyping (eng w) = true -> exists p, onComplete (eng w) = Some (Resolve p))
  /\ (organic = true ->
      container_state (dom w) <> Completed
      /\ typingCompleteTimer (ctl w) = None
      /\ no_rotation w).


(** The cues the engine plays itself; the startup cue is the
    controller's. *)
Definition engine_cue (e : effect) : bool :=
  match e with
  | Cue Keypress | Cue Backspace | Cue Enter | Cue Complete => true
  | _ => false
  end.

Definition sound_toggle (e : event) : bool :=
  match e with
  | CallToggleSound => true
  | _ => false
  end.

(** Between [w0] and [w] the sound setting is the same and the engine
    has played no cue. *)
Definition as_silent (w0 w : World) : Prop :=
  sound (env w) = sound (env w0)
  /\ List.filter engine_cue (trace (env w)) = List.filter engine_cue (trace (env w0)).


(** The delay [_typeCharacters] computes for a character, from the
    draw [r] for the variation and the draw [r'] for the thinking
    pause. *)
Definition char_speed (o : EngineOptions) (char : N) (r r' : Q) : Q :=
  let speed := (baseSpeed o + (r - (1 # 2)) * speedVariation o)%Q in
  let speed :=
    if (char =? NEWLINE)%N then (speed * 2)%Q
    else if (char =? SPACE)%N then (speed * (3 # 2))%Q
    else if is_punctuation char then (speed * 2)%Q
    else if is_uppercase char then (speed * (6 # 5))%Q
    else speed in
  if Qlt_bool r' (pauseChance o) then (speed + pauseDuration o)%Q else speed.


(** ** [addRealisticPauses] *)

Definition SEMICOLON : N := 59.
Definition LBRACE : N := 123.
Definition RBRACE : N := 125.
Definition SLASH : N := 47.

(** The code units the dot of a regular expression does not match. *)
Definition is_line_terminator (c : N) : bool :=
  (c =? 10)%N || (c =? 13)%N || (c =? 8232)%N || (c =? 8233)%N.

(** The number of leading code units of [s] that satisfy [p]. *)
Fixpoint run_length (p : N -> bool) (s : jsstring) : nat :=
  match s with
  | x :: t => if p x then S (run_length p t) else 0
  | [] => 0
  end.

(** [s.replace(re, ...)] for a global regular expression that matches
    no empty string.  [m s] tells whether [re] matches at the head of
    [s]: the length of the match and its replacement.  The scan goes
    from left to right; after a match it resumes behind the match
    ([skip] counts the code units of the match still to pass). *)
Fixpoint replace_scan (m : jsstring -> option (nat * jsstring)) (s : jsstring)
    (skip : nat) : jsstring :=
  match s with
  | [] => []
  | x :: t =>
      match skip with
      | S k => replace_scan m t k
      | O =>
          match m s with
          | Some (len, replacement) => replacement ++ replace_scan m t (len - 1)
          | None => x :: replace_scan m t 0
          end
      end
  end.

(** [/c\n/] with the replacement ['c\n\n'], for [c] one of [;{}]. *)
Definition match_before_newline (c : N) (s : jsstring) : option (nat * jsstring) :=
  match s with
  | x :: y :: _ =>
      if (x =? c)%N && (y =? NEWLINE)%N then Some (2, [c; NEWLINE; NEWLINE]) else None
  | _ => None
  end.

(** [/\/\/ .+\n/] with the replacement [match + '\n']: two slashes and
    a space, then as many code units as the dot matches, at least one,
    then a newline. *)
Definition match_comment (s : jsstring) : option (nat * jsstring) :=
  match s with
  | a :: b :: c :: t =>
      if (a =? SLASH)%N && (b =? SLASH)%N && (c =? SPACE)%N then
        let n := run_length (fun x => negb (is_line_terminator x)) t in
        if (0 <? n) && bool_decide (t !! n = Some NEWLINE)
        then Some (3 + n + 1, take (3 + n + 1) s ++ [NEWLINE])
        else None
      else None
  | _ => None
  end.

(** [/\n\n\n+/] with the replacement ['\n\n']. *)
Definition match_blank_lines (s : jsstring) : option (nat * jsstring) :=
  let n := run_length (fun x => (x =? NEWLINE)%N) s in
  if 3 <=? n then Some (n, [NEWLINE; NEWLINE]) else None.

Definition addRealisticPauses (text : jsstring) : jsstring :=
  let text := replace_scan (match_before_newline SEMICOLON) text 0 in
  let text := replace_scan (match_before_newline LBRACE) text 0 in
  let text := replace_scan (match_before_newline RBRACE) text 0 in
  let text := replace_scan match_comment text 0 in
  replace_scan match_blank_lines text 0.


Definition not_newline (c : N) : bool := negb (c =? NEWLINE)%N.

(** Nowhere in [s] do three newlines follow one another. *)
Definition no_three_newlines (s : jsstring) : Prop :=
  forall i, ~ (s !! i = Some NEWLINE /\ s !! S i = Some NEWLINE
               /\ s !! S (S i) = Some NEWLINE).


(** ** A session that goes on over a page that was changed under it

    [resume] and the navigation of the controller let a session go on
    with a text on screen that is no prefix of the session's text: the
    page shows [pre], then the characters of [text] from [j] on, as far
    as the session has come. *)

(** The index of the next character a pending callback will type. *)
Definition cursor (k : closure) : nat :=
  match k with
  | TypeNext _ i | ErrContinue _ i => S i
  | ErrBackspace _ i _ _ | ErrRetype _ i _ _ => i
  | Rotate | Cooldown | AutoStart => 0
  end.

Definition session_point_from (pre : jsstring) (j : nat) (text out : jsstring)
    (k : closure) : Prop :=
  match k with
  | TypeNext t i | ErrContinue t i =>
      t = text /\ i < length text /\ j <= S i
      /\ out = pre ++ drop j (take (S i) text)
  | ErrBackspace t i c _ =>
      t = text /\ i < length text /\ c = nth i text 0%N /\ j <= i
      /\ slice_drop_last out = pre ++ drop j (take i text)
  | ErrRetype t i c _ =>
      t = text /\ i < length text /\ c = nth i text 0%N /\ j <= i
      /\ out = pre ++ drop j (take i text)
  | Rotate | Cooldown | AutoStart => False
  end.

Definition in_session_from (pre : jsstring) (j : nat) (text : jsstring) (p : nat)
    (k : closure) (w : World) : Prop :=
  isTyping (eng w) = true /\ isPaused (eng w) = false
  /\ onComplete (eng w) = Some (Resolve p)
  /\ promises (env w) !! p = Some Pending
  /\ p < next_promise (env w)
  /\ exists id d,
       currentTimeout (eng w) = Some id
       /\ timers (env w) !! id = Some {| t_fn := k; t_delay := d |}
       /\ session_point_from pre j text (out_text (dom w)) k.

(** The session of promise [p] has completed, with [pre] and the
    characters of [text] from [j] on screen. *)
Definition completed_from (pre : jsstring) (j : nat) (text : jsstring) (p : nat)
    (w : World) : Prop :=
  promises (env w) !! p = Some Fulfilled
  /\ out_text (dom w) = pre ++ drop j text
  /\ isTyping (eng w) = false.

(** The engine after [typeWithCursor("xyz")] has run to its end and
    [typeText("ab")] has been called: "a" is on screen, the promise 1 of
    [typeText] is pending, and "xyz" is still the recorded text. *)
Definition recorded_page : World :=
  run [CallTypeWithCursor (js "xyz") (js "javascript"); Fire 1; Fire 2; Fire 3;
       CallTypeText (js "ab") (js "javascript")] empty_page.

(** * Properties *)

(** ** An undisturbed session types its text *)

Lemma wrong_char_defined (r : rand01) :
  exists x, wrongChars !! Z.to_nat (Qfloor (rval r * 26)%Q) = Some x.
Proof.
  destruct r as [q Hq]. cbn [rval]. unfold in_unit in Hq.
  apply andb_prop in Hq as [Hlo Hhi].
  apply Qle_bool_iff in Hlo.
  apply negb_true_iff in Hhi.
  assert (Hlt : (q < 1)%Q).
  { apply Qnot_le_lt. intros Hle. apply Qle_bool_iff in Hle. congruence. }
  assert (H0 : (0 <= Qfloor (q * 26))%Z).
  { change 0%Z with (Qfloor 0). apply Qfloor_resp_le.
    apply Qmult_le_0_compat; [exact Hlo | discriminate]. }
  assert (H26 : (Qfloor (q * 26) < 26)%Z).
  { rewrite Zlt_Qlt. eapply Qle_lt_trans; [apply Qfloor_le|].
    destruct q as [n d]. unfold Qlt in *. simpl in *.
    clear -Hlt. rewrite Pos.mul_1_r. lia. }
  apply lookup_lt_is_Some. change (length wrongChars) with 26. lia.
Qed.

Local Opaque Qfloor Qmult Qplus Qminus Qle_bool wrongChars.
Local Arguments take : simpl never.
Local Arguments nth : simpl never.
Local Arguments cue_count : simpl never.

Lemma drain_frame (w : World) :
  eng (drain w) = eng w /\ out_text (dom (drain w)) = out_text (dom w)
  /\ timers (env (drain w)) = timers (env w)
  /\ promises (env (drain w)) = promises (env w)
  /\ next_promise (env (drain w)) = next_promise (env w)
  /\ next_timer (env (drain w)) = next_timer (env w).
Proof.
  unfold drain. destruct (microtasks (env w)) as [|o ms] eqn:Hm; [repeat split|].
  set (w0 := upd_env (set_microtasks []) w).
  assert (H0 : eng w0 = eng w /\ out_text (dom w0) = out_text (dom w)
    /\ timers (env w0) = timers (env w) /\ promises (env w0) = promises (env w)
    /\ next_promise (env w0) = next_promise (env w)
    /\ next_timer (env w0) = next_timer (env w)) by (repeat split).
  clearbody w0. clear Hm. revert w0 H0.
  induction (o :: ms) as [|o' l IH]; intros w0 H0; [exact H0|].
  simpl. apply IH.
  destruct H0 as (? & ? & ? & ? & ? & ?).
  unfold typeCurrentSnippet_resume. destruct o' as [| |e]; simpl; repeat split; assumption.
Qed.





Lemma typeCharacters_cases text i w :
  isTyping (eng w) = true -> isPaused (eng w) = false -> i < length text ->
  exists tr n d k o,
    _typeCharacters text i w
    = {| eng := set_currentTimeout (Some (next_timer (env w))) (eng w);
         ctl := ctl w;
         dom := set_out_text o (dom w);
         env := set_trace tr (set_drawn n
                  (set_next_timer (Pos.succ (next_timer (env w)))
                     (set_timers (<[next_timer (env w) := {| t_fn := k; t_delay := d |}]>
                                    (timers (env w))) (env w)))) |}
    /\ ((k = TypeNext text i /\ o = out_text (dom w) ++ [nth i text 0%N])
        \/ (exists x s, k = ErrBackspace text i (nth i text 0%N) s
                        /\ o = out_text (dom w) ++ [x]
                        /\ nth i text 0%N <> NEWLINE)).
Proof.
  intros Hty Hpa Hi.
  unfold _typeCharacters. rewrite Hty, Hpa.
  assert (Hleb : (length text <=? i) = false) by (apply Nat.leb_gt; lia).
  cbv beta iota zeta. unfold negb at 1, orb at 1. rewrite Hleb.
  unfold Math_random. cbv beta iota zeta.
  set (cls := if (nth i text 0 =? NEWLINE)%N then _ else _).
  assert (Hcls : exists s tr, cls
            = (s, upd_env (fun v => set_trace tr (set_drawn (S (drawn v)) v)) w)).
  { subst cls. unfold _playEnterSound, _playKeypressSound, emit.
    repeat case_if; eexists; eexists; destruct w as [e c d []]; reflexivity. }
  destruct Hcls as (s & tr & ->). cbv beta iota zeta.
  match goal with
  | |- context [if ?c && negb ?n then _ else _] => destruct (c && negb n) eqn:Herr
  end.
  - unfold _simulateError, Math_random. cbv beta iota zeta.
    match goal with
    | |- context [(rval ?r * 26)%Q] => destruct (wrong_char_defined r) as [x Hx]; rewrite Hx
    end.
    apply andb_prop in Herr as [_ Hnl]. apply negb_true_iff, N.eqb_neq in Hnl.
    unfold _playKeypressSound, emit, setTimeout, _highlightSyntax.
    cbv beta iota zeta.
    destruct w as [e c d v]. destruct v.
    case_if; do 5 eexists; (split; [reflexivity|]);
      right; exists x; eexists; repeat split; exact Hnl.
  - unfold setTimeout, _highlightSyntax, call_progress, updateProgress.
    cbv beta iota zeta.
    destruct w as [e c d v]. destruct v. destruct e as [? ? ? ? ? op ? ?]. simpl.
    destruct op as [[]|]; do 5 eexists; (split; [reflexivity|]);
      left; split; reflexivity.
Qed.

Lemma take_snoc_nth (text : jsstring) i :
  i < length text -> take i text ++ [nth i text 0%N] = take (S i) text.
Proof.
  intros Hi. destruct (lookup_lt_is_Some_2 text i Hi) as [x Hx].
  rewrite (take_S_r _ _ _ Hx). f_equal. f_equal.
  rewrite nth_lookup, Hx. reflexivity.
Qed.

Lemma in_session_drain text p k w :
  in_session text p k w -> in_session text p k (drain w).
Proof.
  unfold in_session. destruct (drain_frame w) as (-> & -> & -> & -> & -> & _).
  trivial.
Qed.

Lemma completed_drain text p w : completed text p w -> completed text p (drain w).
Proof.
  unfold completed. destruct (drain_frame w) as (-> & -> & _ & -> & _). trivial.
Qed.

Lemma typeCharacters_session text p i w :
  isTyping (eng w) = true -> isPaused (eng w) = false ->
  onComplete (eng w) = Some (Resolve p) ->
  promises (env w) !! p = Some Pending -> p < next_promise (env w) ->
  out_text (dom w) = take i text -> i < length text ->
  exists k, in_session text p k (_typeCharacters text i w)
            /\ remaining text k <= 3 * (length text - i).
Proof.
  intros Hty Hpa Hco Hpr Hlt Hout Hi.
  destruct (typeCharacters_cases text i w Hty Hpa Hi)
    as (tr & n & d & k & o & -> & Hk).
  exists k. unfold in_session. cbn.
  repeat split; try assumption.
  - exists (next_timer (env w)), d. split; [reflexivity|].
    split; [apply lookup_insert_eq|].
    destruct Hk as [[-> ->] | (x & s & -> & -> & _)]; cbn.
    + repeat split; [exact Hi|]. rewrite Hout. apply take_snoc_nth, Hi.
    + repeat split; [exact Hi|]. exists x. rewrite Hout. reflexivity.
  - destruct Hk as [[-> _] | (x & s & -> & _)]; cbn; lia.
Qed.

Lemma settle_pending p o w :
  promises (env w) !! p = Some Pending ->
  promises (env (settle p o w)) !! p = Some o
  /\ eng (settle p o w) = eng w /\ dom (settle p o w) = dom w.
Proof.
  intros Hp. unfold settle. rewrite Hp. cbn.
  case_if; cbn; repeat split; apply lookup_insert_eq.
Qed.

Lemma typeCharacters_completes text p w :
  isTyping (eng w) = true -> isPaused (eng w) = false ->
  onComplete (eng w) = Some (Resolve p) ->
  promises (env w) !! p = Some Pending ->
  out_text (dom w) = text ->
  completed text p (_typeCharacters text (length text) w).
Proof.
  intros Hty Hpa Hco Hpr Hout.
  unfold _typeCharacters. rewrite Hty, Hpa, Nat.leb_refl.
  unfold _completeTyping, _highlightSyntax. cbv beta iota zeta.
  unfold negb at 1, orb at 1. cbv beta iota zeta.
  set (w1 := if audio_on _ then _ else _).
  assert (H1 : promises (env w1) !! p = Some Pending
               /\ out_text (dom w1) = text /\ isTyping (eng w1) = false
               /\ onComplete (eng w1) = Some (Resolve p)).
  { subst w1. case_if; cbn; auto. }
  destruct H1 as (Hp1 & Ho1 & Ht1 & Hc1). rewrite Hc1. cbn.
  destruct (settle_pending p Fulfilled w1 Hp1) as (Hs & He & Hd).
  unfold completed. rewrite Hs, He, Hd. auto.
Qed.

Lemma typeCharacters_advance text p i w :
  isTyping (eng w) = true -> isPaused (eng w) = false ->
  onComplete (eng w) = Some (Resolve p) ->
  promises (env w) !! p = Some Pending -> p < next_promise (env w) ->
  out_text (dom w) = take i text -> i <= length text ->
  (exists k, in_session text p k (_typeCharacters text i w)
             /\ remaining text k <= 3 * (length text - i))
  \/ completed text p (_typeCharacters text i w).
Proof.
  intros Hty Hpa Hco Hpr Hlt Hout Hi.
  destruct (decide (i = length text)) as [-> | Hne].
  - right. apply typeCharacters_completes; try assumption.
    rewrite Hout. apply firstn_all.
  - left. apply typeCharacters_session; try assumption. lia.
Qed.

Lemma session_step text p k w id :
  in_session text p k w -> currentTimeout (eng w) = Some id ->
  (exists k', in_session text p k' (step (Fire id) w)
              /\ remaining text k' < remaining text k)
  \/ completed text p (step (Fire id) w).
Proof.
  intros (Hty & Hpa & Hco & Hpr & Hlt & id' & d & Hid & Htm & Hpt) Hcur.
  assert (id' = id) as -> by congruence.
  unfold step, handle, fire. rewrite Htm. cbn [t_fn].
  destruct k as [t i | t i c s | t i c s | t i | | | ]; cbn in Hpt; try contradiction.
  - destruct Hpt as (-> & Hi & Hout). cbn [run_closure].
    replace (i + 1) with (S i) by lia.
    destruct (typeCharacters_advance text p (S i) (clearTimeout id w))
      as [(k' & Hs & Hr) | Hc]; try assumption; try lia.
    + left. exists k'. split; [apply in_session_drain, Hs | cbn; lia].
    + right. apply completed_drain, Hc.
  - destruct Hpt as (-> & Hi & -> & x & Hout). left.
    exists (ErrRetype text i (nth i text 0%N) s). split; [|cbn; lia].
    apply in_session_drain. unfold in_session. cbn.
    unfold _playBackspaceSound, _highlightSyntax, emit.
    case_if; cbn; repeat split; try assumption;
      (eexists _, _; split; [reflexivity|]; split; [apply lookup_insert_eq|]);
      cbn; repeat split; try assumption;
      rewrite Hout; apply removelast_last.
  - destruct Hpt as (-> & Hi & -> & Hout). left.
    exists (ErrContinue text i). split; [|cbn; lia].
    apply in_session_drain. unfold in_session. cbn.
    unfold _playKeypressSound, _highlightSyntax, emit.
    case_if; cbn; repeat split; try assumption;
      (eexists _, _; split; [reflexivity|]; split; [apply lookup_insert_eq|]);
      cbn; repeat split; try assumption;
      rewrite Hout; apply take_snoc_nth, Hi.
  - destruct Hpt as (-> & Hi & Hout). cbn [run_closure].
    replace (i + 1) with (S i) by lia.
    destruct (typeCharacters_advance text p (S i) (clearTimeout id w))
      as [(k' & Hs & Hr) | Hc]; try assumption; try lia.
    + left. exists k'. split; [apply in_session_drain, Hs | cbn; lia].
    + right. apply completed_drain, Hc.
Qed.

Lemma session_completes text p n : forall k w,
  in_session text p k w -> remaining text k <= n ->
  exists w', await_run n p w = Some w' /\ completed text p w'.
Proof.
  induction n as [|n IH]; intros k w Hs Hr.
  - destruct k; cbn in Hr; try lia;
      destruct Hs as (_ & _ & _ & _ & _ & ? & ? & _ & _ & []).
  - pose proof Hs as (Hty & Hpa & Hco & Hpr & Hlt & id & d & Hid & Htm & Hpt).
    cbn [await_run]. rewrite Hpr, Hid, Htm.
    destruct (session_step text p k w id Hs Hid) as [(k' & Hs' & Hr') | Hc].
    + apply (IH k' _ Hs'). lia.
    + exists (step (Fire id) w). split; [|exact Hc].
      destruct Hc as (Hf & _). destruct n; cbn [await_run]; rewrite Hf; reflexivity.
Qed.

(** [typeText] on an idle engine, with a text that is not empty,
    returns a pending promise; then, as the engine's timers fire one
    after the other and nothing else touches the page, the promise is
    fulfilled after at most three timers per character, and at that
    moment the output element shows exactly the text.  The random source
    of [w] is arbitrary, so this holds for every outcome of the draws:
    each simulated error appends a wrong letter, removes it and types
    the right character. *)
Lemma undisturbed_session_completes (text language : jsstring) (w : World) :
  text <> [] -> isTyping (eng w) = false ->
  let p := fst (typeText text language w) in
  let w1 := snd (typeText text language w) in
  promises (env w1) !! p = Some Pending
  /\ exists w2, await_run (3 * length text) p w1 = Some w2
                /\ promises (env w2) !! p = Some Fulfilled
                /\ out_text (dom w2) = text.
Proof.
  intros Hne Hidle. unfold typeText, new_promise. cbv beta iota zeta.
  cbn [eng upd_env]. rewrite Hidle. cbn [fst snd].
  set (p := next_promise (env w)).
  match goal with |- context [_typeCharacters text 0 ?x] => set (w0 := x) end.
  destruct (typeCharacters_session text p 0 w0) as (k & Hs & Hr);
    try reflexivity.
  - subst w0. cbn. apply lookup_insert_eq.
  - subst w0 p. cbn. lia.
  - destruct text; [contradiction | cbn; lia].
  - split; [apply Hs|].
    destruct (session_completes text p (3 * length text) k _ Hs) as (w2 & Hrun & Hc).
    { lia. }
    exists w2. split; [exact Hrun|]. destruct Hc as (? & ? & _). auto.
Qed.

Example forced_error_completes :
  let p := fst (typeText (js "x") (js "javascript") forced_error_page) in
  let w1 := snd (typeText (js "x") (js "javascript") forced_error_page) in
  promises (env w1) !! p = Some Pending
  /\ exists w2, await_run 3 p w1 = Some w2
                /\ promises (env w2) !! p = Some Fulfilled
                /\ out_text (dom w2) = js "x".
Proof.
  apply (undisturbed_session_completes (js "x") (js "javascript") forced_error_page).
  - discriminate.
  - reflexivity.
Qed.

(** The forced error on "x", timer by timer: the wrong letter "q" is on
    screen, then nothing, then "x"; the fourth step completes. *)
Example forced_error_on_x :
  let w1 := snd (typeText (js "x") (js "javascript") forced_error_page) in
  let w2 := step (Fire 1) w1 in
  let w3 := step (Fire 2) w2 in
  let w4 := step (Fire 3) w3 in
  out_text (dom w1) = js "q"
  /\ out_text (dom w2) = []
  /\ out_text (dom w3) = js "x"
  /\ isTyping (eng w3) = true
  /\ out_text (dom w4) = js "x"
  /\ isTyping (eng w4) = false
  /\ promises (env w4) !! 0 = Some Fulfilled.
Proof. vm_compute. repeat split. Qed.

(** ** A second [typeText] while typing *)

Lemma in_session_frame text p k w w' :
  eng w' = eng w -> out_text (dom w') = out_text (dom w) ->
  timers (env w') = timers (env w) ->
  promises (env w') !! p = promises (env w) !! p ->
  next_promise (env w) <= next_promise (env w') ->
  in_session text p k w -> in_session text p k w'.
Proof.
  intros He Ho Ht Hp Hn. unfold in_session. rewrite He, Ho, Ht, Hp.
  intros (? & ? & ? & ? & ? & ?). repeat split; try assumption. lia.
Qed.

Lemma settle_frame p o w :
  eng (settle p o w) = eng w /\ dom (settle p o w) = dom w
  /\ ctl (settle p o w) = ctl w
  /\ timers (env (settle p o w)) = timers (env w)
  /\ next_timer (env (settle p o w)) = next_timer (env w)
  /\ next_promise (env (settle p o w)) = next_promise (env w)
  /\ drawn (env (settle p o w)) = drawn (env w)
  /\ trace (env (settle p o w)) = trace (env w)
  /\ (forall q, q <> p -> promises (env (settle p o w)) !! q = promises (env w) !! q).
Proof.
  unfold settle. destruct (promises (env w) !! p) as [[| |e]|]; try case_if; cbn;
    repeat split; intros q Hq; rewrite lookup_insert_ne by congruence; reflexivity.
Qed.

Lemma typeText_busy text language w :
  isTyping (eng w) = true ->
  typeText text language w
  = (next_promise (env w),
     settle (next_promise (env w)) (Rejected (Error "Already typing"))
            (snd (new_promise w))).
Proof.
  intros Hty. unfold typeText, new_promise. cbv beta iota zeta.
  cbn [eng upd_env]. rewrite Hty. reflexivity.
Qed.

(** C4. While the engine is typing, [typeText] makes a promise and
    rejects it with 'Already typing', and touches nothing else: the
    engine (flags, timer handle, callbacks, options), the page, the
    pending timers with the cursor they carry, the random source and
    the other promises are as before.  So a session that was under way
    is still under way, and runs to completion with its text on
    screen. *)
Theorem C4_typeText_while_typing (text language : jsstring) (w : World) :
  isTyping (eng w) = true ->
  let p := fst (typeText text language w) in
  let w' := snd (typeText text language w) in
  promises (env w') !! p = Some (Rejected (Error "Already typing"))
  /\ eng w' = eng w /\ dom w' = dom w /\ ctl w' = ctl w
  /\ timers (env w') = timers (env w)
  /\ drawn (env w') = drawn (env w)
  /\ trace (env w') = trace (env w)
  /\ (forall q, q <> p -> promises (env w') !! q = promises (env w) !! q)
  /\ (forall text0 p0 k,
        in_session text0 p0 k w ->
        in_session text0 p0 k w'
        /\ exists w2, await_run (remaining text0 k) p0 w' = Some w2
                      /\ completed text0 p0 w2).
Proof.
  intros Hty. rewrite (typeText_busy text language w Hty). cbn [fst snd].
  set (p := next_promise (env w)).
  set (w0 := snd (new_promise w)).
  set (o := Rejected (Error "Already typing")).
  assert (Hp0 : promises (env w0) !! p = Some Pending) by apply lookup_insert_eq.
  destruct (settle_pending p o w0 Hp0) as (Hs & _).
  destruct (settle_frame p o w0) as (He & Hd & Hc & Ht & _ & Hn & Hdr & Htr & Hq).
  assert (Hother : forall q, q <> p ->
            promises (env (settle p o w0)) !! q = promises (env w) !! q).
  { intros q Hne. rewrite (Hq q Hne). subst w0. cbn.
    rewrite lookup_insert_ne by (intros Heq; apply Hne; symmetry; exact Heq).
    reflexivity. }
  assert (Hsess : forall text0 p0 k,
            in_session text0 p0 k w -> in_session text0 p0 k (settle p o w0)).
  { intros text0 p0 k Hin.
    assert (Hlt : p0 < p) by (destruct Hin as (_ & _ & _ & _ & Hlt & _); exact Hlt).
    apply (in_session_frame text0 p0 k w (settle p o w0)); [| | | | |exact Hin].
    - exact He.
    - exact (f_equal out_text Hd).
    - exact Ht.
    - apply Hother. lia.
    - replace (next_promise (env (settle p o w0))) with (S p) by (symmetry; exact Hn).
      subst p. lia. }
  split; [exact Hs|]. split; [exact He|]. split; [exact Hd|]. split; [exact Hc|].
  split; [exact Ht|]. split; [exact Hdr|]. split; [exact Htr|].
  split; [exact Hother|].
  intros text0 p0 k Hin. split; [apply Hsess, Hin|].
  eapply session_completes; [apply Hsess, Hin | reflexivity].
Qed.

Lemma C4_typeText_while_typing_witness :
  isTyping (eng two_page_typing) = true
  /\ eng (snd (typeText (js "cd") (js "javascript") two_page_typing))
     = eng two_page_typing
  /\ dom (snd (typeText (js "cd") (js "javascript") two_page_typing))
     = dom two_page_typing.
Proof.
  split; [reflexivity|].
  destruct (C4_typeText_while_typing (js "cd") (js "javascript") two_page_typing eq_refl)
    as (_ & He & Hd & _).
  split; [exact He | exact Hd].
Defined.

(** ** The cues of a character

    C8, as the code has it. When [_typeCharacters] emits a character
    without an error episode it appends the character and plays what the
    class chain plays: the enter cue for a newline, the keypress cue for
    a character of no special class, and nothing for a space, for one of
    [.!?;] and for a capital letter. *)
Theorem C8_cues_of_normal_emission (text : jsstring) (i : nat) (w : World) :
  isTyping (eng w) = true -> isPaused (eng w) = false -> i < length text ->
  Qlt_bool (rval (oracle (env w) (S (S (drawn (env w))))))
           (errorChance (options (eng w)))
    && negb (nth i text 0 =? NEWLINE)%N = false ->
  let c := nth i text 0%N in
  let w' := _typeCharacters text i w in
  out_text (dom w') = out_text (dom w) ++ [c]
  /\ trace (env w') = trace (env w) ++ emission_cues (audio_on w) c.
Proof.
  intros Hty Hpa Hi Hnoerr.
  unfold _typeCharacters. rewrite Hty, Hpa.
  assert (Hleb : (length text <=? i) = false) by (apply Nat.leb_gt; lia).
  cbv beta iota zeta. unfold negb at 1, orb at 1. rewrite Hleb.
  unfold Math_random. cbv beta iota zeta.
  set (cls := if (nth i text 0 =? NEWLINE)%N then _ else _).
  assert (Hcls : exists s, cls
            = (s, upd_env (fun v =>
                    set_trace (trace v ++ emission_cues (audio_on w) (nth i text 0%N))
                              (set_drawn (S (drawn v)) v)) w)).
  { subst cls. unfold _playEnterSound, _playKeypressSound, emit, emission_cues.
    destruct w as [e c d [tm nt pr np aw mt orc dr sd tr]]. unfold audio_on. cbn.
    destruct sd as [[]|]; repeat case_if; unfold upd_env, set_trace, set_drawn;
      cbn; rewrite ?app_nil_r; eexists; reflexivity. }
  destruct Hcls as (s & ->). cbv beta iota zeta.
  match goal with
  | |- context [if ?c && negb ?n then _ else _] =>
      replace (c && negb n) with false by (symmetry; exact Hnoerr)
  end.
  unfold setTimeout, _highlightSyntax, call_progress, updateProgress.
  cbv beta iota zeta.
  destruct w as [e c d v]. destruct v. destruct e as [? ? ? ? ? op ? ?]. cbn.
  destruct op as [[]|]; split; reflexivity.
Qed.

Lemma C8_cues_of_normal_emission_witness :
  let w' := _typeCharacters (js " ") 0 two_page_typing in
  out_text (dom w') = js "a " /\ trace (env w') = trace (env two_page_typing).
Proof.
  destruct (C8_cues_of_normal_emission (js " ") 0 two_page_typing eq_refl eq_refl)
    as [Ho Ht].
  - vm_compute. lia.
  - reflexivity.
  - split; [exact Ho | rewrite Ht; reflexivity].
Defined.

(** " A;b" with the sound on: of the four characters only "b" is heard. *)
Example silent_characters :
  let w1 := snd (typeText (js " A;b") (js "javascript") empty_page) in
  exists w2, await_run 12 0 w1 = Some w2
             /\ out_text (dom w2) = js " A;b"
             /\ trace (env w2) = [Cue Keypress; Cue Complete].
Proof. eexists. vm_compute. repeat split. Qed.

(** ** What the UI updates leave alone *)

Lemma ui_only_refl w : ui_only w w.
Proof. repeat split. Qed.

Lemma ui_only_trans w1 w2 w3 : ui_only w1 w2 -> ui_only w2 w3 -> ui_only w1 w3.
Proof.
  intros (? & ? & ? & ?) (? & ? & ? & ?). repeat split; congruence.
Qed.

Lemma setState_ui st w : ui_only w (setState st w).
Proof. repeat split. Qed.

Lemma updateTerminalTitle_ui t w : ui_only w (updateTerminalTitle t w).
Proof. repeat split. Qed.

Lemma updateStatusText_ui w : ui_only w (updateStatusText w).
Proof. repeat split. Qed.

Lemma updateSoundToggleUI_ui w : ui_only w (updateSoundToggleUI w).
Proof. unfold updateSoundToggleUI. destruct (sound (env w)); repeat split. Qed.

Lemma updateUI_ui w : ui_only w (updateUI w).
Proof.
  unfold updateUI, updateProgress.
  eapply ui_only_trans; [apply updateTerminalTitle_ui|].
  eapply ui_only_trans; [apply updateStatusText_ui|].
  apply updateSoundToggleUI_ui.
Qed.

Lemma drain_last (w : World) (o : pstate) ms :
  microtasks (env w) = ms ++ [o] ->
  exists w0, drain w = typeCurrentSnippet_resume o w0.
Proof.
  intros Hm. unfold drain. rewrite Hm.
  destruct (ms ++ [o]) eqn:Hl; [destruct ms; discriminate|]. rewrite <- Hl.
  rewrite fold_left_app. cbn. eexists. reflexivity.
Qed.

Lemma typeCurrentSnippet_busy (w : World) (s : Snippet) :
  isTyping (eng w) = true ->
  snippet_at (snippets (ctl w)) (currentSnippetIndex (ctl w)) = Some s ->
  let w' := drain (typeCurrentSnippet w) in
  container_state (dom w') = PError
  /\ eng w' = eng w
  /\ out_text (dom w') = []
  /\ timers (env w') = timers (env w)
  /\ promises (env w') !! next_promise (env w)
     = Some (Rejected (Error "Already typing")).
Proof.
  intros Hty Hs. unfold typeCurrentSnippet. rewrite Hs.
  set (w1 := upd_dom (set_out_text []) _).
  assert (H1 : eng w1 = eng w /\ env w1 = env w /\ out_text (dom w1) = []).
  { subst w1.
    destruct (updateUI_ui (updateTerminalTitle (Some (sn_title s))
                (setState Typing (upd_ctl (set_c_isTyping true) w))))
      as (He & _ & Hv & _).
    cbn. rewrite He, Hv. repeat split. }
  destruct H1 as (He1 & Hv1 & Ho1). clearbody w1.
  rewrite (typeText_busy _ _ w1) by (rewrite He1; exact Hty).
  rewrite Hv1.
  set (p := next_promise (env w)).
  set (e := Rejected (Error "Already typing")).
  set (w2 := settle p e (snd (new_promise w1))).
  assert (Hp : promises (env w2) !! p = Some e).
  { subst w2. apply settle_pending. cbn. rewrite Hv1. apply lookup_insert_eq. }
  assert (Hv2 : next_promise (env (snd (new_promise w1))) = S p
                /\ timers (env (snd (new_promise w1))) = timers (env w)
                /\ eng (snd (new_promise w1)) = eng w
                /\ out_text (dom (snd (new_promise w1))) = []).
  { cbn. rewrite Hv1, He1, Ho1. repeat split. }
  destruct Hv2 as (_ & Ht0 & He0 & Ho0).
  destruct (settle_frame p e (snd (new_promise w1))) as (He2 & Hd2 & _ & Ht2 & _).
  fold w2 in He2, Hd2, Ht2. clearbody w2.
  unfold await. rewrite Hp. subst e. cbv beta iota.
  set (w3 := upd_env _ w2).
  destruct (drain_last w3 (Rejected (Error "Already typing")) (microtasks (env w2)))
    as (w0 & Hdr); [reflexivity|].
  destruct (drain_frame w3) as (He3 & Ho3 & Ht3 & Hp3 & _).
  split; [rewrite Hdr; reflexivity|].
  split; [rewrite He3; subst w3; cbn; rewrite He2; exact He0|].
  split; [rewrite Ho3; subst w3; cbn; rewrite Hd2; exact Ho0|].
  split; [rewrite Ht3; subst w3; cbn; rewrite Ht2; exact Ht0|].
  rewrite Hp3. subst w3. cbn. exact Hp.
Qed.

(** ** Normal forms of the cancelling methods *)

Lemma clearRotationTimers_eq (w : World) :
  clearRotationTimers w
  = upd_ctl (fun c => set_typingCompleteTimer None (set_autoRotateTimer None c))
      (upd_env (fun v =>
         set_timers (cancel (typingCompleteTimer (ctl w))
                            (cancel (autoRotateTimer (ctl w)) (timers v))) v) w).
Proof.
  unfold clearRotationTimers.
  destruct w as [e [co ix ty pa ui art tct sn] d [tm nt pr np aw mt orc dr sd tr]].
  destruct art, tct; reflexivity.
Qed.

Lemma pause_eq (w : World) :
  isTyping (eng w) = true ->
  pause w
  = upd_eng (fun e => set_currentTimeout None (set_isPaused true e))
      (upd_env (fun v => set_timers (cancel (currentTimeout (eng w)) (timers v)) v) w).
Proof.
  intros Hty. unfold pause. rewrite Hty.
  destruct w as [[op ty pa ct oc opg oe tt] c d [tm nt pr np aw mt orc dr sd tr]].
  destruct ct; reflexivity.
Qed.

Lemma stop_eq (w : World) :
  stop w
  = upd_eng (fun e => set_currentTimeout None (set_isPaused false (set_isTyping false e)))
      (upd_env (fun v => set_timers (cancel (currentTimeout (eng w)) (timers v)) v) w).
Proof.
  unfold stop.
  destruct w as [[op ty pa ct oc opg oe tt] c d [tm nt pr np aw mt orc dr sd tr]].
  destruct ct; reflexivity.
Qed.

(** ** Resuming after a pause *)

(** C2, as the code has it. [resume] continues from the text that
    [typeWithCursor] recorded; a session started by [typeText] has
    recorded none, so that after [pause], at whatever point of the
    session, [resume] clears the pause flag and schedules nothing: the
    cancelled timer stays cancelled, the text on screen stays, the
    promise stays pending, and as time passes the session never
    completes. *)
Theorem C2_resume_after_pause_never_continues
    (text : jsstring) (p : nat) (k : closure) (w : World) :
  in_session text p k w -> targetText (eng w) = None ->
  let w' := resume (pause w) in
  isTyping (eng w') = true /\ isPaused (eng w') = false
  /\ currentTimeout (eng w') = None
  /\ timers (env w') = cancel (currentTimeout (eng w)) (timers (env w))
  /\ out_text (dom w') = out_text (dom w)
  /\ promises (env w') !! p = Some Pending
  /\ forall n, await_run n p w' = None.
Proof.
  intros (Hty & Hpa & Hco & Hpr & Hlt & _) Htt. cbv zeta.
  rewrite (pause_eq w Hty). unfold resume. cbn. rewrite Hty, Htt. cbn.
  repeat split; try assumption.
  intros n. destruct n; cbn; rewrite Hpr; reflexivity.
Qed.

Lemma C2_resume_after_pause_never_continues_witness :
  out_text (dom (resume (pause two_page_typing))) = js "a"
  /\ forall n, await_run n 0 (resume (pause two_page_typing)) = None.
Proof.
  assert (Hs : in_session (js "ab") 0 (TypeNext (js "ab") 0) two_page_typing).
  { unfold in_session. do 4 (split; [reflexivity|]). split; [vm_compute; lia|].
    exists 2%positive, (240 # 4). vm_compute. repeat split. lia. }
  destruct (C2_resume_after_pause_never_continues _ _ _ _ Hs eq_refl)
    as (_ & _ & _ & _ & Ho & _ & Hn).
  split; [exact Ho | exact Hn].
Defined.

(** With [typeWithCursor], which records the text for [resume], a pause
    while the wrong letter of an error episode is on screen loses the
    character: [resume] takes the length of the text on screen for the
    cursor, so "xy" completes as "fy". *)
Example resume_over_wrong_letter :
  let w1 := snd (typeWithCursor (js "xy") (js "javascript") one_error_page) in
  let w2 := resume (pause w1) in
  out_text (dom w1) = js "f"
  /\ out_text (dom w2) = js "fy"
  /\ exists w3, await_run 3 0 w2 = Some w3
                /\ promises (env w3) !! 0 = Some Fulfilled
                /\ out_text (dom w3) = js "fy".
Proof.
  vm_compute. repeat split. eexists. repeat split.
Qed.

(** ** Navigation while the engine is typing *)

Lemma snippet_at_in_range (l : list Snippet) (i : jsnum) :
  js_in_range i (Z.of_nat (length l)) = true -> is_Some (snippet_at l i).
Proof.
  destruct i as [z|]; cbn; [|discriminate].
  intros H. apply andb_prop in H as [Hlo Hhi]. rewrite Hlo.
  apply Z.leb_le in Hlo. apply Z.ltb_lt in Hhi.
  apply lookup_lt_is_Some. lia.
Qed.

Lemma next_index_in_range (z n : Z) :
  (0 <= z < n)%Z ->
  js_rem (js_add (Num z) 1) n = Num ((z + 1) mod n)
  /\ js_in_range (Num ((z + 1) mod n)) n = true.
Proof.
  intros Hz. cbn. destruct (n =? 0)%Z eqn:Hn; [apply Z.eqb_eq in Hn; lia|].
  rewrite Z.rem_mod_nonneg by lia. split; [reflexivity|].
  pose proof (Z.mod_pos_bound (z + 1) n ltac:(lia)).
  apply andb_true_intro. split; [apply Z.leb_le | apply Z.ltb_lt]; lia.
Qed.

Lemma previous_index_in_range (z n : Z) :
  (0 <= z < n)%Z ->
  (if js_is_zero (Num z) then Num (n - 1) else js_add (Num z) (-1))
  = Num ((z - 1) mod n)
  /\ js_in_range (Num ((z - 1) mod n)) n = true.
Proof.
  intros Hz. cbn.
  pose proof (Z.mod_pos_bound (z - 1) n ltac:(lia)).
  split.
  - destruct (z =? 0)%Z eqn:H0.
    + apply Z.eqb_eq in H0. subst z. f_equal. symmetry.
      rewrite <- (Z.mod_unique_pos (0 - 1) n (-1) (n - 1)); [reflexivity|lia|lia].
    + apply Z.eqb_neq in H0. f_equal. symmetry. apply Z.mod_small. lia.
  - apply andb_true_intro. split; [apply Z.leb_le | apply Z.ltb_lt]; lia.
Qed.

Lemma drain_frame_ctl (w : World) :
  currentSnippetIndex (ctl (drain w)) = currentSnippetIndex (ctl w)
  /\ snippets (ctl (drain w)) = snippets (ctl w)
  /\ typingCompleteTimer (ctl (drain w)) = typingCompleteTimer (ctl w)
  /\ autoRotateTimer (ctl (drain w)) = autoRotateTimer (ctl w)
  /\ c_isPaused (ctl (drain w)) = c_isPaused (ctl w)
  /\ isUserInteracting (ctl (drain w)) = isUserInteracting (ctl w)
  /\ c_options (ctl (drain w)) = c_options (ctl w).
Proof.
  unfold drain. destruct (microtasks (env w)) as [|o ms] eqn:Hm; [repeat split|].
  set (w0 := upd_env (set_microtasks []) w).
  assert (H0 : currentSnippetIndex (ctl w0) = currentSnippetIndex (ctl w)
    /\ snippets (ctl w0) = snippets (ctl w)
    /\ typingCompleteTimer (ctl w0) = typingCompleteTimer (ctl w)
    /\ autoRotateTimer (ctl w0) = autoRotateTimer (ctl w)
    /\ c_isPaused (ctl w0) = c_isPaused (ctl w)
    /\ isUserInteracting (ctl w0) = isUserInteracting (ctl w)
    /\ c_options (ctl w0) = c_options (ctl w)) by (repeat split).
  clearbody w0. clear Hm. revert w0 H0.
  induction (o :: ms) as [|o' l IH]; intros w0 H0; [exact H0|].
  cbn [fold_left]. apply IH.
  destruct H0 as (? & ? & ? & ? & ? & ? & ?).
  unfold typeCurrentSnippet_resume. destruct o' as [| |e]; cbn; repeat split; assumption.
Qed.

(** [_completeTyping], by what [onComplete] holds. *)
Lemma completeTyping_eq (w : World) :
  _completeTyping w
  = let w0 := if audio_on w
              then emit (Cue Complete) (upd_eng (set_isTyping false) w)
              else upd_eng (set_isTyping false) w in
    match onComplete (eng w) with
    | Some cb => call_complete cb w0
    | None => w0
    end.
Proof.
  unfold _completeTyping, _highlightSyntax. cbv zeta.
  change (audio_on (upd_eng (set_isTyping false) w)) with (audio_on w).
  destruct (audio_on w); reflexivity.
Qed.

(** [typeText] on an idle engine: the fields it sets, then the first
    [_typeCharacters]. *)
Lemma typeText_idle text language w :
  isTyping (eng w) = false ->
  typeText text language w
  = (next_promise (env w),
     _typeCharacters text 0
       (upd_dom (set_out_class (js "language-" ++ language))
          (upd_dom (set_out_text [])
             (upd_eng (set_onError (Some (Reject (next_promise (env w)))))
                (upd_eng (set_onComplete (Some (Resolve (next_promise (env w)))))
                   (upd_eng (set_isPaused false)
                      (upd_eng (set_isTyping true) (snd (new_promise w))))))))).
Proof.
  intros Hty. unfold typeText, new_promise. cbv beta iota zeta.
  cbn [eng upd_env]. rewrite Hty. reflexivity.
Qed.

Lemma typeText_ctl text language w :
  ctl (snd (typeText text language w)) = ctl w.
Proof.
  destruct (isTyping (eng w)) eqn:Hty.
  - rewrite (typeText_busy _ _ _ Hty). cbn [snd].
    destruct (settle_frame (next_promise (env w)) (Rejected (Error "Already typing"))
                (snd (new_promise w))) as (_ & _ & -> & _).
    reflexivity.
  - rewrite (typeText_idle _ _ _ Hty). cbn [snd].
    set (w0 := upd_dom _ _).
    assert (H0 : isTyping (eng w0) = true /\ isPaused (eng w0) = false
                 /\ onComplete (eng w0) = Some (Resolve (next_promise (env w)))
                 /\ ctl w0 = ctl w) by (repeat split).
    destruct H0 as (Hty0 & Hpa0 & Hco0 & Hc0). clearbody w0.
    destruct (decide (0 < length text)) as [Hlen | Hlen].
    + destruct (typeCharacters_cases text 0 w0 Hty0 Hpa0 Hlen)
        as (tr & n & d & k & o & -> & _).
      exact Hc0.
    + unfold _typeCharacters. rewrite Hty0, Hpa0.
      replace (length text <=? 0) with true by (symmetry; apply Nat.leb_le; lia).
      cbn [negb orb]. rewrite completeTyping_eq, Hco0. cbv zeta. cbn [call_complete].
      match goal with
      | |- ctl (settle ?p ?o ?x) = _ =>
          destruct (settle_frame p o x) as (_ & _ & -> & _)
      end.
      case_if; exact Hc0.
Qed.

Lemma typeCurrentSnippet_index (w : World) :
  currentSnippetIndex (ctl (typeCurrentSnippet w)) = currentSnippetIndex (ctl w).
Proof.
  unfold typeCurrentSnippet. destruct (snippet_at _ _) as [s|]; [|reflexivity].
  set (w1 := upd_dom (set_out_text []) _).
  assert (H1 : currentSnippetIndex (ctl w1) = currentSnippetIndex (ctl w)).
  { subst w1.
    destruct (updateUI_ui (updateTerminalTitle (Some (sn_title s))
                (setState Typing (upd_ctl (set_c_isTyping true) w))))
      as (_ & Hc & _).
    cbn. rewrite Hc. reflexivity. }
  clearbody w1.
  pose proof (typeText_ctl (sn_code s) (sn_language s) w1) as H2.
  destruct (typeText (sn_code s) (sn_language s) w1) as [p w2]. cbn [snd] in H2.
  unfold await. destruct (promises (env w2) !! p) as [[| |e]|]; cbn; congruence.
Qed.

(** C3, as the code has it. While the engine is typing, [nextSnippet]
    and [previousSnippet] move the index by one modulo the number of
    snippets and clear the rotation timers, but they do not stop the
    engine: its state and its pending timer are as before, the
    [typeText] of the new snippet is rejected, and once the turn and its
    microtasks are over the controller is in the error state, with the
    output cleared. *)
Theorem C3_navigation_while_typing (w : World) (z : Z) :
  isTyping (eng w) = true ->
  currentSnippetIndex (ctl w) = Num z ->
  (0 <= z < Z.of_nat (length (snippets (ctl w))))%Z ->
  let n := Z.of_nat (length (snippets (ctl w))) in
  (let w' := step CallNextSnippet w in
   currentSnippetIndex (ctl w') = Num ((z + 1) mod n)
   /\ container_state (dom w') = PError
   /\ eng w' = eng w
   /\ out_text (dom w') = []
   /\ timers (env w') = timers (env (clearRotationTimers w)))
  /\ (let w' := step CallPreviousSnippet w in
      currentSnippetIndex (ctl w') = Num ((z - 1) mod n)
      /\ container_state (dom w') = PError
      /\ eng w' = eng w
      /\ out_text (dom w') = []
      /\ timers (env w') = timers (env (clearRotationTimers w))).
Proof.
  intros Hty Hix Hz n.
  assert (Hgen : forall ix,
    js_in_range ix n = true ->
    let w' := drain (typeCurrentSnippet
                (upd_ctl (set_currentSnippetIndex ix) (clearRotationTimers w))) in
    currentSnippetIndex (ctl w') = ix
    /\ container_state (dom w') = PError /\ eng w' = eng w
    /\ out_text (dom w') = []
    /\ timers (env w') = timers (env (clearRotationTimers w))).
  { intros ix Hin.
    set (w0 := upd_ctl (set_currentSnippetIndex ix) (clearRotationTimers w)).
    assert (H0 : eng w0 = eng w /\ snippets (ctl w0) = snippets (ctl w)
                 /\ currentSnippetIndex (ctl w0) = ix
                 /\ timers (env w0) = timers (env (clearRotationTimers w))).
    { subst w0. rewrite clearRotationTimers_eq. repeat split. }
    destruct H0 as (He0 & Hs0 & Hi0 & Ht0).
    destruct (snippet_at_in_range (snippets (ctl w)) ix Hin) as [s Hs].
    destruct (typeCurrentSnippet_busy w0 s) as (H1 & H2 & H3 & H4 & _).
    { rewrite He0. exact Hty. }
    { rewrite Hs0, Hi0. exact Hs. }
    cbv zeta. rewrite H1, H2, H3, H4, He0, Ht0.
    destruct (drain_frame_ctl (typeCurrentSnippet w0)) as (Hd & _).
    rewrite Hd, typeCurrentSnippet_index, Hi0. repeat split. }
  assert (Hcrt : snippets (ctl (clearRotationTimers w)) = snippets (ctl w)
                 /\ currentSnippetIndex (ctl (clearRotationTimers w)) = Num z).
  { rewrite clearRotationTimers_eq. cbn. auto. }
  destruct Hcrt as (Hsn & Hcix).
  split.
  - destruct (next_index_in_range z n Hz) as (Hnx & Hin).
    unfold step, handle, nextSnippet. cbv zeta.
    replace (upd_ctl _ (clearRotationTimers w))
      with (upd_ctl (set_currentSnippetIndex (Num ((z + 1) mod n)))
                    (clearRotationTimers w)).
    + apply Hgen, Hin.
    + unfold upd_ctl. rewrite Hsn, Hcix. fold n. rewrite Hnx. reflexivity.
  - destruct (previous_index_in_range z n Hz) as (Hpv & Hin).
    unfold step, handle, previousSnippet. cbv zeta.
    replace (upd_ctl _ (clearRotationTimers w))
      with (upd_ctl (set_currentSnippetIndex (Num ((z - 1) mod n)))
                    (clearRotationTimers w)).
    + apply Hgen, Hin.
    + unfold upd_ctl. rewrite Hsn, Hcix. fold n. rewrite Hpv. reflexivity.
Qed.


Lemma C3_navigation_while_typing_witness :
  container_state (dom (step CallNextSnippet two_page_typing)) = PError
  /\ eng (step CallNextSnippet two_page_typing) = eng two_page_typing
  /\ container_state (dom (step CallPreviousSnippet two_page_typing)) = PError.
Proof.
  destruct (C3_navigation_while_typing two_page_typing 0 eq_refl eq_refl)
    as ((_ & Hn & He & _) & (_ & Hp & _)).
  - vm_compute. split; [discriminate | reflexivity].
  - split; [exact Hn|]. split; [exact He | exact Hp].
Defined.

(** After [nextSnippet] on the page that is typing "ab", the old session
    goes on: its next timer types "b" into the output the controller has
    just cleared, and the one after completes it with the completion
    cue, while the controller shows the error state at index 1. *)
Example old_session_survives_navigation :
  let w1 := step CallNextSnippet two_page_typing in
  let w2 := step (Fire 2) w1 in
  let w3 := step (Fire 3) w2 in
  currentSnippetIndex (ctl w1) = Num 1
  /\ out_text (dom w1) = []
  /\ out_text (dom w2) = js "b"
  /\ container_state (dom w3) = PError
  /\ promises (env w3) !! 0 = Some Fulfilled
  /\ cue_count Complete (trace (env w3)) = 1.
Proof. vm_compute. repeat split. Qed.

(** ** Pausing during the hold *)

Lemma cancel_sub h (m : gmap positive timer) id t :
  cancel h m !! id = Some t -> m !! id = Some t.
Proof.
  destruct h as [i|]; cbn; [|trivial].
  destruct (decide (i = id)) as [-> | Hne].
  - rewrite lookup_delete_eq. discriminate.
  - rewrite lookup_delete_ne by exact Hne. trivial.
Qed.

Lemma cancel_gone id (m : gmap positive timer) : cancel (Some id) m !! id = None.
Proof. apply lookup_delete_eq. Qed.

Lemma pause_frame (w : World) :
  ctl (pause w) = ctl w /\ dom (pause w) = dom w
  /\ (forall id t, timers (env (pause w)) !! id = Some t ->
                   timers (env w) !! id = Some t).
Proof.
  destruct (isTyping (eng w)) eqn:Hty.
  - rewrite (pause_eq w Hty). cbn. repeat split. intros id t. apply cancel_sub.
  - unfold pause. rewrite Hty. repeat split. trivial.
Qed.

(** [resume] does nothing, or clears the pause flag, or clears it and
    calls [_typeCharacters] below the end of the recorded text. *)
Lemma resume_cases (w : World) :
  resume w = w
  \/ (isTyping (eng w) = true /\ isPaused (eng w) = true
      /\ (resume w = upd_eng (set_isPaused false) w
          \/ exists text i,
               i < length text
               /\ resume w = _typeCharacters text i (upd_eng (set_isPaused false) w))).
Proof.
  unfold resume.
  destruct (isTyping (eng w)) eqn:Hty; [|left; reflexivity].
  destruct (isPaused (eng w)) eqn:Hpa; [|left; reflexivity].
  right. split; [reflexivity|]. split; [reflexivity|].
  cbv zeta. cbn [andb]. case_if.
  - right. eexists _, _. split; [|reflexivity].
    apply Nat.ltb_lt. eassumption.
  - left. reflexivity.
Qed.

Lemma resume_frame (w : World) :
  ctl (resume w) = ctl w
  /\ (forall id t, timers (env (resume w)) !! id = Some t ->
                   timers (env w) !! id = Some t \/ engine_closure (t_fn t) = true).
Proof.
  destruct (resume_cases w) as [-> | (Hty & Hpa & [-> | (text & i & Hi & ->)])];
    [split; [reflexivity | auto] .. |].
  destruct (typeCharacters_cases text i (upd_eng (set_isPaused false) w))
    as (tr & n & d & k & o & -> & Hk); [exact Hty | reflexivity | exact Hi |].
  cbn. split; [reflexivity|]. intros id t.
  destruct (decide (next_timer (env w) = id)) as [<- | Hne].
  - rewrite lookup_insert_eq. intros [= <-]. right.
    destruct Hk as [[-> _] | (x & s & -> & _)]; reflexivity.
  - rewrite lookup_insert_ne by exact Hne. auto.
Qed.

(** [typeText] overwrites the completion callback the controller
    registered, so when "ab" is typed out the engine resolves its
    promise and the controller's [onTypingComplete] does not run: the
    state class stays at typing and no hold timer is set. *)
Example completion_does_not_reach_controller :
  let w := run [Fire 1; Fire 2; Fire 3] two_page in
  out_text (dom w) = js "ab"
  /\ isTyping (eng w) = false
  /\ container_state (dom w) = Typing
  /\ typingCompleteTimer (ctl w) = None
  /\ timers (env w) = ∅.
Proof. vm_compute. repeat split. Qed.

(** The two calls by themselves.  With the hold timer pending,
    [pauseDemo] cancels it; [resumeDemo] then clears the pause flag and
    resumes the engine, and schedules nothing for the rotation: the
    handle stays empty and every rotation timer pending afterwards was
    pending before the pause. *)
Lemma resumeDemo_leaves_hold_cancelled (w : World) (id : positive) (t : timer) :
  typingCompleteTimer (ctl w) = Some id ->
  timers (env w) !! id = Some t ->
  let w1 := pauseDemo w in
  let w2 := resumeDemo w1 in
  timers (env w1) !! id = None
  /\ typingCompleteTimer (ctl w1) = None
  /\ c_isPaused (ctl w1) = true
  /\ typingCompleteTimer (ctl w2) = None
  /\ c_isPaused (ctl w2) = false
  /\ (forall id' t', timers (env w2) !! id' = Some t' -> t_fn t' = Rotate ->
                     id' <> id /\ timers (env w) !! id' = Some t').
Proof.
  intros Htct Hpend. cbv zeta.
  (* pauseDemo *)
  unfold pauseDemo. cbv zeta.
  set (wa := pause (upd_ctl (set_c_isPaused true) w)).
  destruct (pause_frame (upd_ctl (set_c_isPaused true) w)) as (Hca & _ & Hta).
  fold wa in Hca, Hta. cbn in Hca, Hta. clearbody wa.
  set (wb := clearRotationTimers wa).
  assert (Hb : typingCompleteTimer (ctl wb) = None /\ c_isPaused (ctl wb) = true
               /\ timers (env wb) !! id = None
               /\ (forall i x, timers (env wb) !! i = Some x ->
                               timers (env w) !! i = Some x)).
  { subst wb. rewrite clearRotationTimers_eq. cbn. rewrite Hca. cbn. rewrite Htct.
    repeat split.
    - apply cancel_gone.
    - intros i x Hx. apply Hta. eapply cancel_sub, cancel_sub, Hx. }
  destruct Hb as (Hb1 & Hb2 & Hb3 & Hb4). clearbody wb.
  set (w1 := updateUI (setState Paused wb)).
  assert (H1 : ctl w1 = ctl wb /\ env w1 = env wb).
  { destruct (updateUI_ui (setState Paused wb)) as (_ & Hc & Hv & _).
    subst w1. rewrite Hc, Hv. split; reflexivity. }
  destruct H1 as (Hc1 & Hv1). clearbody w1.
  (* resumeDemo *)
  unfold resumeDemo. cbv zeta.
  set (wc := resume (upd_ctl (set_c_isPaused false) w1)).
  destruct (resume_frame (upd_ctl (set_c_isPaused false) w1)) as (Hcc & Htc).
  fold wc in Hcc, Htc. cbn in Hcc, Htc. clearbody wc.
  set (w2 := updateUI (setState Typing wc)).
  assert (H2 : ctl w2 = ctl wc /\ env w2 = env wc).
  { destruct (updateUI_ui (setState Typing wc)) as (_ & Hc & Hv & _).
    subst w2. rewrite Hc, Hv. split; reflexivity. }
  destruct H2 as (Hc2 & Hv2). clearbody w2.
  rewrite Hc1, Hv1, Hc2, Hv2, Hcc. cbn. rewrite Hc1.
  repeat split; try assumption.
  - intros ->. destruct (Htc _ _ H) as [Hin | Heng].
    + rewrite Hv1, Hb3 in Hin. discriminate.
    + rewrite H0 in Heng. discriminate.
  - destruct (Htc _ _ H) as [Hin | Heng].
    + rewrite Hv1 in Hin. apply Hb4, Hin.
    + rewrite H0 in Heng. discriminate.
Qed.

Example resumeDemo_leaves_hold_cancelled_on_hold_page :
  typingCompleteTimer (ctl two_page_completed) = Some 4%positive
  /\ typingCompleteTimer (ctl (resumeDemo (pauseDemo two_page_completed))) = None.
Proof.
  split; [reflexivity|].
  destruct (resumeDemo_leaves_hold_cancelled two_page_completed 4
              {| t_fn := Rotate; t_delay := 5000 |} eq_refl eq_refl)
    as (_ & _ & _ & H & _).
  exact H.
Qed.

(** With no timer pending and no microtask queued, time passes without
    effect. *)
Lemma quiet_page_is_frozen (w : World) :
  timers (env w) = ∅ -> microtasks (env w) = [] ->
  forall ids, run (List.map Fire ids) w = w.
Proof.
  intros Ht Hm ids. induction ids as [|i ids IH]; [reflexivity|].
  cbn [List.map run fold_left]. unfold step at 2, handle, fire.
  rewrite Ht, lookup_empty. unfold drain. rewrite Hm. exact IH.
Qed.

(** ** The scheduling discipline is kept *)

Lemma wf_ext (w w' : World) :
  currentTimeout (eng w') = currentTimeout (eng w) ->
  isTyping (eng w') = isTyping (eng w) ->
  isPaused (eng w') = isPaused (eng w) ->
  typingCompleteTimer (ctl w') = typingCompleteTimer (ctl w) ->
  timers (env w') = timers (env w) ->
  next_timer (env w') = next_timer (env w) ->
  wf w -> wf w'.
Proof.
  intros H1 H2 H3 H4 H5 H6 (Hf & He & Hr).
  unfold wf, timers_fresh, engine_tracked, rotation_tracked.
  rewrite H1, H2, H3, H4, H5, H6. auto.
Qed.

Lemma engine_idle_ext (w w' : World) :
  timers (env w') = timers (env w) -> engine_idle w -> engine_idle w'.
Proof. unfold engine_idle. intros ->. trivial. Qed.

Lemma no_rotation_ext (w w' : World) :
  timers (env w') = timers (env w) -> no_rotation w -> no_rotation w'.
Proof. unfold no_rotation. intros ->. trivial. Qed.

Lemma wf_ui (w w' : World) : ui_only w w' -> wf w -> wf w'.
Proof.
  intros (He & Hc & Hv & _). apply wf_ext; rewrite ?He, ?Hc, ?Hv; reflexivity.
Qed.

(** Timers may be cancelled at any time. *)
Lemma wf_sub (w w' : World) :
  currentTimeout (eng w') = currentTimeout (eng w) ->
  isTyping (eng w') = isTyping (eng w) ->
  isPaused (eng w') = isPaused (eng w) ->
  typingCompleteTimer (ctl w') = typingCompleteTimer (ctl w) ->
  next_timer (env w') = next_timer (env w) ->
  (forall id t, timers (env w') !! id = Some t -> timers (env w) !! id = Some t) ->
  wf w -> wf w'.
Proof.
  intros H1 H2 H3 H4 H6 Hsub (Hf & He & Hr).
  unfold wf, timers_fresh, engine_tracked, rotation_tracked.
  rewrite H1, H2, H3, H4, H6. repeat split; eauto.
  - eapply He; eauto.
  - eapply He; eauto.
  - eapply He; eauto.
Qed.

(** Whatever the flags of the engine, an engine without pending
    callback is well tracked. *)
Lemma wf_idle (w w' : World) :
  typingCompleteTimer (ctl w') = typingCompleteTimer (ctl w) ->
  next_timer (env w') = next_timer (env w) ->
  (forall id t, timers (env w') !! id = Some t -> timers (env w) !! id = Some t) ->
  engine_idle w' ->
  wf w -> wf w'.
Proof.
  intros H4 H6 Hsub Hidle (Hf & He & Hr).
  unfold wf, timers_fresh, engine_tracked, rotation_tracked.
  rewrite H4, H6. repeat split; eauto;
    intros; exfalso; pose proof (Hidle _ _ H) as Hx; congruence.
Qed.

Lemma engine_idle_of_flags (w : World) :
  wf w -> isTyping (eng w) = false \/ isPaused (eng w) = true -> engine_idle w.
Proof.
  intros (_ & He & _) Hfl id t Hin.
  destruct (engine_closure (t_fn t)) eqn:Hk; [|reflexivity].
  destruct (He id t Hin Hk) as (_ & Hty & Hpa). destruct Hfl; congruence.
Qed.

(** Once the engine's own handle is cancelled nothing of the engine is
    pending. *)
Lemma engine_idle_cancel (w w' : World) :
  wf w ->
  timers (env w') = cancel (currentTimeout (eng w)) (timers (env w)) ->
  engine_idle w'.
Proof.
  intros (_ & He & _) Ht id t Hin. rewrite Ht in Hin.
  destruct (engine_closure (t_fn t)) eqn:Hk; [|reflexivity].
  destruct (He id t (cancel_sub _ _ _ _ Hin) Hk) as (Hcur & _).
  rewrite Hcur in Hin. rewrite cancel_gone in Hin. discriminate.
Qed.

Lemma no_rotation_cancel (w w' : World) h :
  wf w ->
  timers (env w') = cancel (typingCompleteTimer (ctl w)) (cancel h (timers (env w))) ->
  no_rotation w'.
Proof.
  intros (_ & _ & Hr) Ht id t Hin Hk. rewrite Ht in Hin.
  pose proof (Hr id t (cancel_sub _ _ _ _ (cancel_sub _ _ _ _ Hin)) Hk) as Hcur.
  rewrite Hcur in Hin. rewrite cancel_gone in Hin. discriminate.
Qed.

(** A new timer *)
Lemma wf_insert (w w' : World) (k : closure) (d : Q) :
  timers (env w') = <[next_timer (env w) := {| t_fn := k; t_delay := d |}]> (timers (env w)) ->
  next_timer (env w') = Pos.succ (next_timer (env w)) ->
  isTyping (eng w') = isTyping (eng w) ->
  isPaused (eng w') = isPaused (eng w) ->
  (if engine_closure k
   then engine_idle w /\ currentTimeout (eng w') = Some (next_timer (env w))
        /\ isTyping (eng w) = true /\ isPaused (eng w) = false
   else currentTimeout (eng w') = currentTimeout (eng w)) ->
  (match k with
   | Rotate => no_rotation w
               /\ typingCompleteTimer (ctl w') = Some (next_timer (env w))
   | _ => typingCompleteTimer (ctl w') = typingCompleteTimer (ctl w)
   end) ->
  wf w -> wf w'.
Proof.
  intros Ht Hn Hty Hpa Hke Hkr (Hf & He & Hr).
  assert (Hold : forall id t, timers (env w) !! id = Some t ->
                              id <> next_timer (env w)).
  { intros id t Hin ->. apply Hf in Hin. lia. }
  unfold wf, timers_fresh, engine_tracked, rotation_tracked.
  rewrite Ht, Hn, Hty, Hpa.
  split; [|split].
  - intros id t.
    destruct (decide (next_timer (env w) = id)) as [<- | Hne].
    + intros _. lia.
    + rewrite lookup_insert_ne by exact Hne. intros Hin. apply Hf in Hin. lia.
  - intros id t.
    destruct (decide (next_timer (env w) = id)) as [<- | Hne].
    + rewrite lookup_insert_eq. intros [= <-]. cbn. intros Hk.
      rewrite Hk in Hke. tauto.
    + rewrite lookup_insert_ne by exact Hne. intros Hin Hk.
      destruct (engine_closure k) eqn:Hkk.
      * destruct Hke as (Hidle & _). rewrite (Hidle _ _ Hin) in Hk. discriminate.
      * rewrite Hke. apply (He _ _ Hin Hk).
  - intros id t.
    destruct (decide (next_timer (env w) = id)) as [<- | Hne].
    + rewrite lookup_insert_eq. intros [= <-]. cbn. intros ->. tauto.
    + rewrite lookup_insert_ne by exact Hne. intros Hin Hk.
      destruct k; try (rewrite Hkr; apply (Hr _ _ Hin Hk)).
      destruct Hkr as (Hnr & _). destruct (Hnr _ _ Hin Hk).
Qed.

Lemma engine_idle_insert (w w' : World) (k : closure) (d : Q) :
  timers (env w') = <[next_timer (env w) := {| t_fn := k; t_delay := d |}]> (timers (env w)) ->
  engine_closure k = false -> engine_idle w -> engine_idle w'.
Proof.
  intros Ht Hk Hidle id t. rewrite Ht.
  destruct (decide (next_timer (env w) = id)) as [<- | Hne].
  - rewrite lookup_insert_eq. intros [= <-]. exact Hk.
  - rewrite lookup_insert_ne by exact Hne. apply Hidle.
Qed.

Lemma wf_settle p o w : wf w -> wf (settle p o w).
Proof.
  destruct (settle_frame p o w) as (He & _ & Hc & Ht & Hn & _).
  apply wf_ext; rewrite ?He, ?Hc, ?Ht, ?Hn; reflexivity.
Qed.

Lemma engine_idle_settle p o w : engine_idle w -> engine_idle (settle p o w).
Proof.
  destruct (settle_frame p o w) as (_ & _ & _ & Ht & _). apply engine_idle_ext, Ht.
Qed.

Lemma wf_await p w : wf w -> wf (await p w).
Proof.
  unfold await. destruct (promises (env w) !! p) as [[| |e]|]; trivial;
    apply wf_ext; reflexivity.
Qed.

Lemma wf_drain w : wf w -> wf (drain w).
Proof.
  destruct (drain_frame w) as (He & _ & Ht & _ & _ & Hn).
  destruct (drain_frame_ctl w) as (_ & _ & Hc & _).
  apply wf_ext; rewrite ?He, ?Hc, ?Ht, ?Hn; reflexivity.
Qed.

Lemma wf_clearRotationTimers w :
  wf w -> wf (clearRotationTimers w) /\ no_rotation (clearRotationTimers w).
Proof.
  intros Hwf.
  assert (Hnr : no_rotation (clearRotationTimers w)).
  { eapply no_rotation_cancel; [exact Hwf|].
    rewrite clearRotationTimers_eq. reflexivity. }
  split; [|exact Hnr].
  destruct Hwf as (Hf & He & Hr).
  assert (Hsub : forall id t, timers (env (clearRotationTimers w)) !! id = Some t ->
                              timers (env w) !! id = Some t).
  { rewrite clearRotationTimers_eq. cbn. intros id t Hin.
    eapply cancel_sub, cancel_sub, Hin. }
  split; [|split].
  - intros id t Hin. rewrite clearRotationTimers_eq. cbn. apply (Hf _ _ (Hsub _ _ Hin)).
  - intros id t Hin Hk. rewrite clearRotationTimers_eq. cbn.
    apply (He _ _ (Hsub _ _ Hin) Hk).
  - intros id t Hin Hk. destruct (Hnr _ _ Hin Hk).
Qed.

Lemma clearRotationTimers_frame w :
  eng (clearRotationTimers w) = eng w
  /\ dom (clearRotationTimers w) = dom w
  /\ next_timer (env (clearRotationTimers w)) = next_timer (env w)
  /\ (forall id t, timers (env (clearRotationTimers w)) !! id = Some t ->
                   timers (env w) !! id = Some t).
Proof.
  rewrite clearRotationTimers_eq. cbn. repeat split.
  intros id t Hin. eapply cancel_sub, cancel_sub, Hin.
Qed.

Lemma engine_idle_sub (w w' : World) :
  (forall id t, timers (env w') !! id = Some t -> timers (env w) !! id = Some t) ->
  engine_idle w -> engine_idle w'.
Proof. intros Hsub Hidle id t Hin. apply (Hidle _ _ (Hsub _ _ Hin)). Qed.

Lemma scheduleNextRotation_frame w :
  eng (scheduleNextRotation w) = eng w
  /\ dom (scheduleNextRotation w) = dom w
  /\ (wf w -> wf (scheduleNextRotation w))
  /\ (engine_idle w -> engine_idle (scheduleNextRotation w)).
Proof.
  unfold scheduleNextRotation. cbv zeta.
  destruct (clearRotationTimers_frame w) as (He & Hd & Hn & Hsub).
  case_if.
  - unfold setTimeout. cbv zeta. cbn.
    split; [exact He|]. split; [exact Hd|]. split.
    + intros Hwf. destruct (wf_clearRotationTimers w Hwf) as (Hwf' & Hnr).
      eapply wf_insert; [reflexivity .. | | | exact Hwf']; cbn; auto.
    + intros Hidle. eapply engine_idle_insert; [reflexivity | reflexivity |].
      eapply engine_idle_sub; eassumption.
  - split; [exact He|]. split; [exact Hd|]. split.
    + intros Hwf. apply wf_clearRotationTimers, Hwf.
    + intros Hidle. eapply engine_idle_sub; eassumption.
Qed.

Lemma onTypingComplete_frame w :
  eng (onTypingComplete w) = eng w
  /\ out_text (dom (onTypingComplete w)) = out_text (dom w)
  /\ (wf w -> wf (onTypingComplete w))
  /\ (engine_idle w -> engine_idle (onTypingComplete w)).
Proof.
  unfold onTypingComplete. cbv zeta.
  set (w1 := updateUI (setState Completed w)).
  assert (Hui : ui_only w w1).
  { eapply ui_only_trans; [apply (setState_ui Completed)|apply updateUI_ui]. }
  destruct Hui as (He & Hc & Hv & Ho).
  destruct (scheduleNextRotation_frame w1) as (He' & Hd' & Hwf' & Hid').
  rewrite He', Hd', He, Ho. split; [reflexivity|]. split; [reflexivity|]. split.
  - intros Hwf. apply Hwf'. eapply wf_ui; [|exact Hwf]. repeat split; assumption.
  - intros Hidle. apply Hid'. eapply engine_idle_ext; [|exact Hidle].
    rewrite Hv. reflexivity.
Qed.

Lemma completeTyping_wf w :
  wf w -> engine_idle w ->
  wf (_completeTyping w) /\ engine_idle (_completeTyping w).
Proof.
  intros Hwf Hidle. rewrite completeTyping_eq. cbv zeta.
  set (w0 := if audio_on w then _ else _).
  assert (H0 : wf w0 /\ engine_idle w0).
  { subst w0. case_if; (split;
      [ apply (wf_idle w); [reflexivity | reflexivity | trivial | exact Hidle | exact Hwf]
      | exact Hidle ]). }
  destruct H0 as (Hwf0 & Hid0).
  assert (Hco : onComplete (eng w0) = onComplete (eng w)) by (subst w0; case_if; reflexivity).
  clearbody w0.
  destruct (onComplete (eng w)) as [[|p]|]; cbn [call_complete].
  - destruct (onTypingComplete_frame w0) as (_ & _ & H1 & H2). auto.
  - split; [apply wf_settle, Hwf0 | apply engine_idle_settle, Hid0].
  - auto.
Qed.

Lemma typeCharacters_wf text i w :
  wf w -> engine_idle w ->
  wf (_typeCharacters text i w).
Proof.
  intros Hwf Hidle.
  destruct (negb (isTyping (eng w)) || isPaused (eng w)) eqn:Hg.
  { unfold _typeCharacters. rewrite Hg. exact Hwf. }
  apply orb_false_elim in Hg as [Hty Hpa]. apply negb_false_iff in Hty.
  destruct (decide (i < length text)) as [Hi | Hi].
  - destruct (typeCharacters_cases text i w Hty Hpa Hi)
      as (tr & n & d & k & o & -> & Hk).
    eapply wf_insert; [reflexivity .. | | | exact Hwf]; cbn.
    + destruct Hk as [[-> _] | (x & s & -> & _)]; cbn; auto.
    + destruct Hk as [[-> _] | (x & s & -> & _)]; reflexivity.
  - unfold _typeCharacters. rewrite Hty, Hpa.
    replace (length text <=? i) with true by (symmetry; apply Nat.leb_le; lia).
    cbn [negb orb]. apply completeTyping_wf; assumption.
Qed.

Lemma wf_typeText text language w : wf w -> wf (snd (typeText text language w)).
Proof.
  intros Hwf. destruct (isTyping (eng w)) eqn:Hty.
  - rewrite (typeText_busy _ _ _ Hty). cbn [snd]. apply wf_settle.
    apply (wf_ext w); [reflexivity .. | exact Hwf].
  - rewrite (typeText_idle _ _ _ Hty). cbn [snd].
    pose proof (engine_idle_of_flags w Hwf (or_introl Hty)) as Hidle.
    apply typeCharacters_wf.
    + apply (wf_idle w); [reflexivity | reflexivity | trivial | exact Hidle | exact Hwf].
    + exact Hidle.
Qed.

Lemma wf_pause w : wf w -> wf (pause w).
Proof.
  intros Hwf. destruct (isTyping (eng w)) eqn:Hty.
  - rewrite (pause_eq w Hty).
    apply (wf_idle w); [reflexivity | reflexivity | | | exact Hwf].
    + cbn. intros id t. apply cancel_sub.
    + eapply engine_idle_cancel; [exact Hwf | reflexivity].
  - unfold pause. rewrite Hty. exact Hwf.
Qed.

Lemma wf_stop w : wf w -> wf (stop w) /\ engine_idle (stop w).
Proof.
  intros Hwf. rewrite stop_eq.
  assert (Hidle : engine_idle
    (upd_eng (fun e => set_currentTimeout None (set_isPaused false (set_isTyping false e)))
       (upd_env (fun v => set_timers (cancel (currentTimeout (eng w)) (timers v)) v) w))).
  { eapply engine_idle_cancel; [exact Hwf | reflexivity]. }
  split; [|exact Hidle].
  apply (wf_idle w); [reflexivity | reflexivity | | exact Hidle | exact Hwf].
  cbn. intros id t. apply cancel_sub.
Qed.

Lemma wf_resume w : wf w -> wf (resume w).
Proof.
  intros Hwf.
  destruct (resume_cases w) as [-> | (Hty & Hpa & Hr)]; [exact Hwf|].
  pose proof (engine_idle_of_flags w Hwf (or_intror Hpa)) as Hidle.
  assert (Hwf1 : wf (upd_eng (set_isPaused false) w)).
  { apply (wf_idle w); [reflexivity | reflexivity | trivial | exact Hidle | exact Hwf]. }
  destruct Hr as [-> | (text & i & Hi & ->)]; [exact Hwf1|].
  apply typeCharacters_wf; [exact Hwf1 | exact Hidle].
Qed.

(** [typeCurrentSnippet] with a snippet at the index: the UI is
    updated, the output cleared, then [typeText] is called and awaited. *)
Lemma typeCurrentSnippet_eq (w : World) (s : Snippet) :
  snippet_at (snippets (ctl w)) (currentSnippetIndex (ctl w)) = Some s ->
  exists w1,
    typeCurrentSnippet w
    = await (fst (typeText (sn_code s) (sn_language s) w1))
            (snd (typeText (sn_code s) (sn_language s) w1))
    /\ eng w1 = eng w /\ env w1 = env w
    /\ ctl w1 = set_c_isTyping true (ctl w)
    /\ out_text (dom w1) = [].
Proof.
  intros Hs. unfold typeCurrentSnippet. rewrite Hs.
  exists (upd_dom (set_out_text [])
            (updateUI (updateTerminalTitle (Some (sn_title s))
               (setState Typing (upd_ctl (set_c_isTyping true) w))))).
  split.
  - cbv zeta. destruct (typeText _ _ _) as [p w2]. reflexivity.
  - destruct (updateUI_ui (updateTerminalTitle (Some (sn_title s))
                (setState Typing (upd_ctl (set_c_isTyping true) w))))
      as (He & Hc & Hv & _).
    cbn. rewrite He, Hc, Hv. repeat split.
Qed.

Lemma wf_typeCurrentSnippet w : wf w -> wf (typeCurrentSnippet w).
Proof.
  intros Hwf.
  destruct (snippet_at (snippets (ctl w)) (currentSnippetIndex (ctl w))) as [s|] eqn:Hs.
  - destruct (typeCurrentSnippet_eq w s Hs) as (w1 & -> & He & Hv & Hc & _).
    apply wf_await, wf_typeText.
    apply (wf_ext w); rewrite ?He, ?Hv, ?Hc; try reflexivity. exact Hwf.
  - unfold typeCurrentSnippet. rewrite Hs. exact Hwf.
Qed.

Lemma wf_nextSnippet w : wf w -> wf (nextSnippet w).
Proof.
  intros Hwf. unfold nextSnippet. cbv zeta. apply wf_typeCurrentSnippet.
  apply (wf_ext (clearRotationTimers w)); [reflexivity .. |].
  apply wf_clearRotationTimers, Hwf.
Qed.

Lemma wf_startDemo w : wf w -> wf (snd (startDemo w)).
Proof.
  intros Hwf. unfold startDemo. case_if; cbn [snd].
  - apply (wf_ext w); [reflexivity .. | exact Hwf].
  - apply wf_typeCurrentSnippet.
    destruct (sound (env w)); [|exact Hwf].
    apply (wf_ext w); [reflexivity .. | exact Hwf].
Qed.

Lemma wf_pauseDemo w : wf w -> wf (pauseDemo w).
Proof.
  intros Hwf. unfold pauseDemo. cbv zeta.
  eapply wf_ui; [apply updateUI_ui|].
  eapply wf_ui; [apply (setState_ui Paused)|].
  apply wf_clearRotationTimers, wf_pause.
  apply (wf_ext w); [reflexivity .. | exact Hwf].
Qed.

Lemma wf_resumeDemo w : wf w -> wf (resumeDemo w).
Proof.
  intros Hwf. unfold resumeDemo. cbv zeta.
  eapply wf_ui; [apply updateUI_ui|].
  eapply wf_ui; [apply (setState_ui Typing)|].
  apply wf_resume.
  apply (wf_ext w); [reflexivity .. | exact Hwf].
Qed.

Lemma wf_run_closure w id t :
  wf w -> timers (env w) !! id = Some t ->
  wf (run_closure (t_fn t) (clearTimeout id w)).
Proof.
  intros Hwf Hin.
  assert (Hwf0 : wf (clearTimeout id w)).
  { apply (wf_sub w); [reflexivity .. | | exact Hwf].
    cbn. intros i x. apply (cancel_sub (Some id)). }
  destruct (engine_closure (t_fn t)) eqn:Hk.
  - destruct Hwf as (Hf & He & Hr).
    destruct (He id t Hin Hk) as (Hcur & Hty & Hpa).
    assert (Hidle0 : engine_idle (clearTimeout id w)).
    { eapply engine_idle_cancel; [split; [exact Hf | split; [exact He | exact Hr]]|].
      rewrite Hcur. reflexivity. }
    destruct (t_fn t) as [text i | text i c s | text i c s | text i | | |];
      try discriminate; cbn [run_closure].
    + apply typeCharacters_wf; assumption.
    + unfold _playBackspaceSound, _highlightSyntax, setTimeout, emit. cbv zeta.
      case_if; (eapply wf_insert; [reflexivity .. | | | exact Hwf0]; cbn; auto).
    + unfold _playKeypressSound, _highlightSyntax, setTimeout, emit. cbv zeta.
      case_if; (eapply wf_insert; [reflexivity .. | | | exact Hwf0]; cbn; auto).
    + apply typeCharacters_wf; assumption.
  - destruct (t_fn t); try discriminate; cbn [run_closure].
    + apply wf_nextSnippet, Hwf0.
    + apply (wf_ext (clearTimeout id w)); [reflexivity .. | exact Hwf0].
    + apply wf_startDemo, Hwf0.
Qed.

Lemma wf_handle e w : wf w -> wf (handle e w).
Proof.
  intros Hwf. destruct e; cbn [handle].
  - unfold fire. destruct (timers (env w) !! id) as [t|] eqn:Hin; [|exact Hwf].
    apply wf_run_closure; assumption.
  - apply wf_typeText, Hwf.
  - unfold typeWithCursor. apply wf_typeText.
    apply (wf_ext w); [reflexivity .. | exact Hwf].
  - apply wf_pause, Hwf.
  - apply wf_resume, Hwf.
  - apply wf_stop, Hwf.
  - unfold clear. cbv zeta. apply (wf_ext (stop w)); [reflexivity .. |].
    apply wf_stop, Hwf.
  - apply (wf_ext w); [reflexivity .. | exact Hwf].
  - apply wf_startDemo, Hwf.
  - apply wf_nextSnippet, Hwf.
  - unfold previousSnippet. cbv zeta. apply wf_typeCurrentSnippet.
    apply (wf_ext (clearRotationTimers w)); [reflexivity .. |].
    apply wf_clearRotationTimers, Hwf.
  - unfold restartCurrentSnippet. cbv zeta. apply wf_typeCurrentSnippet.
    apply wf_clearRotationTimers, Hwf.
  - unfold handleUserInteraction. cbv zeta.
    set (w1 := nextSnippet _).
    assert (Hwf1 : wf w1).
    { subst w1. apply wf_nextSnippet, wf_clearRotationTimers.
      apply (wf_ext w); [reflexivity .. | exact Hwf]. }
    clearbody w1. unfold setTimeout. cbn [snd].
    eapply wf_insert; [reflexivity .. | | | exact Hwf1]; reflexivity.
  - unfold togglePause. case_if; [apply wf_resumeDemo | apply wf_pauseDemo]; exact Hwf.
  - apply wf_pauseDemo, Hwf.
  - apply wf_resumeDemo, Hwf.
  - unfold toggleSound. destruct (sound (env w)); [|exact Hwf].
    eapply wf_ui; [apply updateSoundToggleUI_ui|].
    apply (wf_ext w); [reflexivity .. | exact Hwf].
  - unfold setSnippet. case_if; [|exact Hwf]. cbv zeta.
    apply wf_typeCurrentSnippet.
    apply (wf_ext (clearRotationTimers w)); [reflexivity .. |].
    apply wf_clearRotationTimers, Hwf.
  - unfold setTypingSpeed. cbv zeta. apply (wf_ext w); [reflexivity .. | exact Hwf].
  - unfold setAutoRotate. cbv zeta. case_if.
    + apply wf_clearRotationTimers. apply (wf_ext w); [reflexivity .. | exact Hwf].
    + apply (wf_ext w); [reflexivity .. | exact Hwf].
  - apply onTypingComplete_frame, Hwf.
Qed.

Lemma wf_step e w : wf w -> wf (step e w).
Proof. intros Hwf. apply wf_drain, wf_handle, Hwf. Qed.

Lemma wf_init opts snips soundManager random : wf (init opts snips soundManager random).
Proof.
  unfold init. cbv zeta.
  set (w0 := updateUI _).
  assert (H0 : wf w0).
  { subst w0. eapply wf_ui; [apply updateUI_ui|].
    split; [|split]; intros i t Hin; cbn in Hin; rewrite lookup_empty in Hin;
      discriminate. }
  clearbody w0. case_if; [|exact H0].
  unfold setTimeout. cbn [snd].
  eapply wf_insert; [reflexivity .. | | | exact H0]; reflexivity.
Qed.

(** Every state the page can reach keeps the discipline. *)
Lemma reachable_wf w : reachable w -> wf w.
Proof.
  induction 1 as [opts snips sm rnd | e w _ IH]; [apply wf_init | apply wf_step, IH].
Qed.

(** ** A stopped session's promise stays pending *)

Lemma abandoned_ext p (w w' : World) :
  promises (env w') !! p = promises (env w) !! p ->
  next_promise (env w) <= next_promise (env w') ->
  onComplete (eng w') = onComplete (eng w) ->
  isTyping (eng w') = isTyping (eng w) ->
  abandoned p w -> abandoned p w'.
Proof.
  intros H1 H2 H3 H4 (Hp & Hlt & Hco). unfold abandoned.
  rewrite H1, H3, H4. repeat split; [assumption | lia | assumption].
Qed.

Lemma abandoned_idle p (w w' : World) :
  promises (env w') !! p = promises (env w) !! p ->
  next_promise (env w) <= next_promise (env w') ->
  isTyping (eng w') = false ->
  abandoned p w -> abandoned p w'.
Proof.
  intros H1 H2 H4 (Hp & Hlt & Hco). unfold abandoned.
  rewrite H1, H4. repeat split; [assumption | lia].
Qed.

Lemma abandoned_other p (w w' : World) :
  promises (env w') !! p = promises (env w) !! p ->
  next_promise (env w) <= next_promise (env w') ->
  onComplete (eng w') <> Some (Resolve p) ->
  abandoned p w -> abandoned p w'.
Proof.
  intros H1 H2 H4 (Hp & Hlt & Hco). unfold abandoned.
  rewrite H1. repeat split; [assumption | lia | congruence].
Qed.

Lemma abandoned_ui p (w w' : World) : ui_only w w' -> abandoned p w -> abandoned p w'.
Proof.
  intros (He & _ & Hv & _). apply abandoned_ext; rewrite ?He, ?Hv; reflexivity.
Qed.

Lemma abandoned_settle p q o w : q <> p -> abandoned p w -> abandoned p (settle q o w).
Proof.
  intros Hne. destruct (settle_frame q o w) as (He & _ & _ & _ & _ & Hn & _ & _ & Hq).
  apply abandoned_ext; rewrite ?He, ?Hn; auto.
Qed.

Lemma abandoned_await p q w : abandoned p w -> abandoned p (await q w).
Proof.
  unfold await. destruct (promises (env w) !! q) as [[| |e]|]; trivial;
    apply abandoned_ext; reflexivity.
Qed.

Lemma abandoned_drain p w : abandoned p w -> abandoned p (drain w).
Proof.
  destruct (drain_frame w) as (He & _ & _ & Hp & Hn & _).
  apply abandoned_ext; rewrite ?He, ?Hp, ?Hn; reflexivity.
Qed.

Lemma clearRotationTimers_env w :
  promises (env (clearRotationTimers w)) = promises (env w)
  /\ next_promise (env (clearRotationTimers w)) = next_promise (env w)
  /\ trace (env (clearRotationTimers w)) = trace (env w).
Proof. rewrite clearRotationTimers_eq. repeat split. Qed.

Lemma scheduleNextRotation_env w :
  promises (env (scheduleNextRotation w)) = promises (env w)
  /\ next_promise (env (scheduleNextRotation w)) = next_promise (env w)
  /\ trace (env (scheduleNextRotation w)) = trace (env w).
Proof.
  unfold scheduleNextRotation. cbv zeta.
  destruct (clearRotationTimers_env w) as (Hp & Hn & Ht).
  case_if; cbn; auto.
Qed.

Lemma onTypingComplete_env w :
  promises (env (onTypingComplete w)) = promises (env w)
  /\ next_promise (env (onTypingComplete w)) = next_promise (env w)
  /\ trace (env (onTypingComplete w)) = trace (env w).
Proof.
  unfold onTypingComplete. cbv zeta.
  destruct (scheduleNextRotation_env (updateUI (setState Completed w))) as (-> & -> & ->).
  destruct (updateUI_ui (setState Completed w)) as (_ & _ & -> & _).
  repeat split.
Qed.

Lemma abandoned_completeTyping p w :
  isTyping (eng w) = true -> abandoned p w -> abandoned p (_completeTyping w).
Proof.
  intros Hty Hab. rewrite completeTyping_eq. cbv zeta.
  set (w0 := if audio_on w then _ else _).
  assert (H0 : abandoned p w0 /\ isTyping (eng w0) = false
               /\ onComplete (eng w0) = onComplete (eng w)).
  { subst w0. case_if; (split; [|split; reflexivity]);
      (apply (abandoned_idle p w); [reflexivity | reflexivity | reflexivity | exact Hab]). }
  destruct H0 as (Hab0 & Hty0 & Hco0). clearbody w0.
  destruct (onComplete (eng w)) as [[|q]|] eqn:Hco; cbn [call_complete].
  - destruct (onTypingComplete_frame w0) as (He & _).
    destruct (onTypingComplete_env w0) as (Hp & Hn & _).
    apply (abandoned_ext p w0); rewrite ?He, ?Hp, ?Hn; auto.
  - apply abandoned_settle; [|exact Hab0].
    intros ->. destruct Hab as (_ & _ & Hx). rewrite (Hx Hco) in Hty. discriminate.
  - exact Hab0.
Qed.

Lemma abandoned_typeCharacters p text i w :
  abandoned p w -> abandoned p (_typeCharacters text i w).
Proof.
  intros Hab.
  destruct (negb (isTyping (eng w)) || isPaused (eng w)) eqn:Hg.
  { unfold _typeCharacters. rewrite Hg. exact Hab. }
  apply orb_false_elim in Hg as [Hty Hpa]. apply negb_false_iff in Hty.
  destruct (decide (i < length text)) as [Hi | Hi].
  - destruct (typeCharacters_cases text i w Hty Hpa Hi)
      as (tr & n & d & k & o & -> & Hk).
    apply (abandoned_ext p w); [reflexivity .. | exact Hab].
  - unfold _typeCharacters. rewrite Hty, Hpa.
    replace (length text <=? i) with true by (symmetry; apply Nat.leb_le; lia).
    cbn [negb orb]. apply abandoned_completeTyping; assumption.
Qed.

Lemma abandoned_typeText p text language w :
  abandoned p w -> abandoned p (snd (typeText text language w)).
Proof.
  intros Hab. pose proof Hab as (Hp & Hlt & Hco).
  assert (Hnew : abandoned p (snd (new_promise w))).
  { apply (abandoned_ext p w); cbn; try reflexivity; [|lia|exact Hab].
    apply lookup_insert_ne. lia. }
  destruct (isTyping (eng w)) eqn:Hty.
  - rewrite (typeText_busy _ _ _ Hty). cbn [snd].
    apply abandoned_settle; [lia | exact Hnew].
  - rewrite (typeText_idle _ _ _ Hty). cbn [snd].
    apply abandoned_typeCharacters.
    apply (abandoned_other p (snd (new_promise w))); [reflexivity | reflexivity | | exact Hnew].
    cbn. intros [= Heq]. lia.
Qed.

Lemma abandoned_pause p w : abandoned p w -> abandoned p (pause w).
Proof.
  intros Hab. destruct (isTyping (eng w)) eqn:Hty.
  - rewrite (pause_eq w Hty). apply (abandoned_ext p w); [reflexivity .. | exact Hab].
  - unfold pause. rewrite Hty. exact Hab.
Qed.

Lemma abandoned_stop p w : abandoned p w -> abandoned p (stop w).
Proof.
  intros Hab. rewrite stop_eq.
  apply (abandoned_idle p w); [reflexivity .. | exact Hab].
Qed.

Lemma abandoned_resume p w : abandoned p w -> abandoned p (resume w).
Proof.
  intros Hab.
  destruct (resume_cases w) as [-> | (Hty & Hpa & Hr)]; [exact Hab|].
  assert (H1 : abandoned p (upd_eng (set_isPaused false) w)).
  { apply (abandoned_ext p w); [reflexivity .. | exact Hab]. }
  destruct Hr as [-> | (text & i & Hi & ->)]; [exact H1|].
  apply abandoned_typeCharacters, H1.
Qed.

Lemma abandoned_typeCurrentSnippet p w :
  abandoned p w -> abandoned p (typeCurrentSnippet w).
Proof.
  intros Hab.
  destruct (snippet_at (snippets (ctl w)) (currentSnippetIndex (ctl w))) as [s|] eqn:Hs.
  - destruct (typeCurrentSnippet_eq w s Hs) as (w1 & -> & He & Hv & _).
    apply abandoned_await, abandoned_typeText.
    apply (abandoned_ext p w); rewrite ?He, ?Hv; try reflexivity. exact Hab.
  - unfold typeCurrentSnippet. rewrite Hs. exact Hab.
Qed.

Lemma abandoned_clearRotationTimers p w :
  abandoned p w -> abandoned p (clearRotationTimers w).
Proof.
  rewrite clearRotationTimers_eq. apply abandoned_ext; reflexivity.
Qed.

Lemma abandoned_nextSnippet p w : abandoned p w -> abandoned p (nextSnippet w).
Proof.
  intros Hab. unfold nextSnippet. cbv zeta. apply abandoned_typeCurrentSnippet.
  apply (abandoned_ext p (clearRotationTimers w)); [reflexivity .. |].
  apply abandoned_clearRotationTimers, Hab.
Qed.

Lemma abandoned_startDemo p w : abandoned p w -> abandoned p (snd (startDemo w)).
Proof.
  intros Hab. unfold startDemo. case_if; cbn [snd].
  - apply (abandoned_ext p w); [reflexivity .. | exact Hab].
  - apply abandoned_typeCurrentSnippet.
    destruct (sound (env w)); [|exact Hab].
    apply (abandoned_ext p w); [reflexivity .. | exact Hab].
Qed.

Lemma abandoned_pauseDemo p w : abandoned p w -> abandoned p (pauseDemo w).
Proof.
  intros Hab. unfold pauseDemo. cbv zeta.
  eapply abandoned_ui; [apply updateUI_ui|].
  eapply abandoned_ui; [apply (setState_ui Paused)|].
  apply abandoned_clearRotationTimers, abandoned_pause.
  apply (abandoned_ext p w); [reflexivity .. | exact Hab].
Qed.

Lemma abandoned_resumeDemo p w : abandoned p w -> abandoned p (resumeDemo w).
Proof.
  intros Hab. unfold resumeDemo. cbv zeta.
  eapply abandoned_ui; [apply updateUI_ui|].
  eapply abandoned_ui; [apply (setState_ui Typing)|].
  apply abandoned_resume.
  apply (abandoned_ext p w); [reflexivity .. | exact Hab].
Qed.

Lemma abandoned_run_closure p k w :
  abandoned p w -> abandoned p (run_closure k w).
Proof.
  intros Hab. destruct k; cbn [run_closure].
  - apply abandoned_typeCharacters, Hab.
  - unfold _playBackspaceSound, _highlightSyntax, setTimeout, emit. cbv zeta.
    case_if; (apply (abandoned_ext p w); [reflexivity .. | exact Hab]).
  - unfold _playKeypressSound, _highlightSyntax, setTimeout, emit. cbv zeta.
    case_if; (apply (abandoned_ext p w); [reflexivity .. | exact Hab]).
  - apply abandoned_typeCharacters, Hab.
  - apply abandoned_nextSnippet, Hab.
  - apply (abandoned_ext p w); [reflexivity .. | exact Hab].
  - apply abandoned_startDemo, Hab.
Qed.

Lemma abandoned_handle p e w : abandoned p w -> abandoned p (handle e w).
Proof.
  intros Hab. destruct e; cbn [handle].
  - unfold fire. destruct (timers (env w) !! id) as [t|]; [|exact Hab].
    apply abandoned_run_closure.
    apply (abandoned_ext p w); [reflexivity .. | exact Hab].
  - apply abandoned_typeText, Hab.
  - unfold typeWithCursor. apply abandoned_typeText.
    apply (abandoned_ext p w); [reflexivity .. | exact Hab].
  - apply abandoned_pause, Hab.
  - apply abandoned_resume, Hab.
  - apply abandoned_stop, Hab.
  - unfold clear. cbv zeta. apply (abandoned_ext p (stop w)); [reflexivity .. |].
    apply abandoned_stop, Hab.
  - apply (abandoned_ext p w); [reflexivity .. | exact Hab].
  - apply abandoned_startDemo, Hab.
  - apply abandoned_nextSnippet, Hab.
  - unfold previousSnippet. cbv zeta. apply abandoned_typeCurrentSnippet.
    apply (abandoned_ext p (clearRotationTimers w)); [reflexivity .. |].
    apply abandoned_clearRotationTimers, Hab.
  - unfold restartCurrentSnippet. cbv zeta. apply abandoned_typeCurrentSnippet.
    apply abandoned_clearRotationTimers, Hab.
  - unfold handleUserInteraction. cbv zeta.
    set (w1 := nextSnippet _).
    assert (H1 : abandoned p w1).
    { subst w1. apply abandoned_nextSnippet, abandoned_clearRotationTimers.
      apply (abandoned_ext p w); [reflexivity .. | exact Hab]. }
    clearbody w1. apply (abandoned_ext p w1); [reflexivity .. | exact H1].
  - unfold togglePause.
    case_if; [apply abandoned_resumeDemo | apply abandoned_pauseDemo]; exact Hab.
  - apply abandoned_pauseDemo, Hab.
  - apply abandoned_resumeDemo, Hab.
  - unfold toggleSound. destruct (sound (env w)); [|exact Hab].
    eapply abandoned_ui; [apply updateSoundToggleUI_ui|].
    apply (abandoned_ext p w); [reflexivity .. | exact Hab].
  - unfold setSnippet. case_if; [|exact Hab]. cbv zeta.
    apply abandoned_typeCurrentSnippet.
    apply (abandoned_ext p (clearRotationTimers w)); [reflexivity .. |].
    apply abandoned_clearRotationTimers, Hab.
  - unfold setTypingSpeed. cbv zeta.
    apply (abandoned_ext p w); [reflexivity .. | exact Hab].
  - unfold setAutoRotate. cbv zeta. case_if.
    + apply abandoned_clearRotationTimers.
      apply (abandoned_ext p w); [reflexivity .. | exact Hab].
    + apply (abandoned_ext p w); [reflexivity .. | exact Hab].
  - destruct (onTypingComplete_frame w) as (He & _).
    destruct (onTypingComplete_env w) as (Hp & Hn & _).
    apply (abandoned_ext p w); rewrite ?He, ?Hp, ?Hn; auto.
Qed.

Lemma abandoned_run p es : forall w, abandoned p w -> abandoned p (run es w).
Proof.
  induction es as [|e es IH]; intros w Hab; [exact Hab|].
  cbn [run fold_left]. apply IH. apply abandoned_drain, abandoned_handle, Hab.
Qed.

(** ** Time passing after a stop *)

Lemma cue_count_snoc k tr e :
  cue_count k (tr ++ [e])
  = cue_count k tr + match e with Cue k' => if cue_eqb k' k then 1 else 0 | _ => 0 end.
Proof.
  unfold cue_count. rewrite List.filter_app, length_app. f_equal.
  destruct e as [k'| |]; cbn; [destruct (cue_eqb k' k)|..]; reflexivity.
Qed.

Lemma drain_cues k w : cue_count k (trace (env (drain w))) = cue_count k (trace (env w)).
Proof.
  unfold drain. destruct (microtasks (env w)) as [|o ms] eqn:Hm; [reflexivity|].
  set (w0 := upd_env (set_microtasks []) w).
  change (trace (env w)) with (trace (env w0)).
  clearbody w0. clear Hm. revert w0.
  induction (o :: ms) as [|o' l IH]; intros w0; [reflexivity|].
  cbn [fold_left]. rewrite IH.
  unfold typeCurrentSnippet_resume. destruct o' as [| |e]; cbn; try reflexivity.
  rewrite cue_count_snoc. cbn. lia.
Qed.

Lemma next_promise_completeTyping w :
  next_promise (env (_completeTyping w)) = next_promise (env w).
Proof.
  rewrite completeTyping_eq. cbv zeta.
  set (w0 := if audio_on w then _ else _).
  assert (H0 : next_promise (env w0) = next_promise (env w))
    by (subst w0; case_if; reflexivity).
  clearbody w0.
  destruct (onComplete (eng w)) as [[|q]|]; cbn [call_complete].
  - destruct (onTypingComplete_env w0) as (_ & -> & _). exact H0.
  - destruct (settle_frame q Fulfilled w0) as (_ & _ & _ & _ & _ & -> & _). exact H0.
  - exact H0.
Qed.

Lemma next_promise_typeCharacters text i w :
  next_promise (env (_typeCharacters text i w)) = next_promise (env w).
Proof.
  destruct (negb (isTyping (eng w)) || isPaused (eng w)) eqn:Hg.
  { unfold _typeCharacters. rewrite Hg. reflexivity. }
  apply orb_false_elim in Hg as [Hty Hpa]. apply negb_false_iff in Hty.
  destruct (decide (i < length text)) as [Hi | Hi].
  - destruct (typeCharacters_cases text i w Hty Hpa Hi)
      as (tr & n & d & k & o & -> & Hk).
    reflexivity.
  - unfold _typeCharacters. rewrite Hty, Hpa.
    replace (length text <=? i) with true by (symmetry; apply Nat.leb_le; lia).
    cbn [negb orb]. apply next_promise_completeTyping.
Qed.

Lemma next_promise_typeText text language w :
  next_promise (env (snd (typeText text language w))) = S (next_promise (env w)).
Proof.
  destruct (isTyping (eng w)) eqn:Hty.
  - rewrite (typeText_busy _ _ _ Hty). cbn [snd].
    destruct (settle_frame (next_promise (env w)) (Rejected (Error "Already typing"))
                (snd (new_promise w))) as (_ & _ & _ & _ & _ & -> & _).
    reflexivity.
  - rewrite (typeText_idle _ _ _ Hty). cbn [snd].
    rewrite next_promise_typeCharacters. reflexivity.
Qed.

Lemma next_promise_await p w : next_promise (env (await p w)) = next_promise (env w).
Proof.
  unfold await. destruct (promises (env w) !! p) as [[| |e]|]; reflexivity.
Qed.

(** [typeCurrentSnippet] does nothing or makes a promise. *)
Lemma typeCurrentSnippet_cases w :
  typeCurrentSnippet w = w
  \/ next_promise (env (typeCurrentSnippet w)) = S (next_promise (env w)).
Proof.
  destruct (snippet_at (snippets (ctl w)) (currentSnippetIndex (ctl w))) as [s|] eqn:Hs.
  - right. destruct (typeCurrentSnippet_eq w s Hs) as (w1 & -> & _ & Hv & _).
    rewrite next_promise_await, next_promise_typeText, Hv. reflexivity.
  - left. unfold typeCurrentSnippet. rewrite Hs. reflexivity.
Qed.

Lemma nextSnippet_cases w :
  nextSnippet w
  = upd_ctl (fun c => set_currentSnippetIndex
               (js_rem (js_add (currentSnippetIndex c) 1)
                       (Z.of_nat (length (snippets c)))) c)
            (clearRotationTimers w)
  \/ next_promise (env (nextSnippet w)) = S (next_promise (env w)).
Proof.
  unfold nextSnippet. cbv zeta.
  match goal with |- context [typeCurrentSnippet ?x] =>
    destruct (typeCurrentSnippet_cases x) as [-> | ->] end.
  - left. reflexivity.
  - right. destruct (clearRotationTimers_env w) as (_ & Hn & _). cbn. rewrite Hn.
    reflexivity.
Qed.

Lemma startDemo_cases w :
  (exists e, snd (startDemo w) = emit e w /\ e <> Cue Complete)
  \/ snd (startDemo w) = w
  \/ next_promise (env (snd (startDemo w))) = S (next_promise (env w)).
Proof.
  unfold startDemo. case_if; cbn [snd].
  - left. eexists. split; [reflexivity | discriminate].
  - match goal with |- context [typeCurrentSnippet ?x] =>
      destruct (typeCurrentSnippet_cases x) as [-> | ->] end.
    + destruct (sound (env w)).
      * left. eexists. split; [reflexivity | discriminate].
      * right. left. reflexivity.
    + right. right. destruct (sound (env w)); reflexivity.
Qed.

(** A controller timer fires while the engine is at rest: either a
    promise is made, or nothing is typed. *)
Lemma quiet_fire (w : World) (id : positive) :
  engine_idle w ->
  next_promise (env w) < next_promise (env (step (Fire id) w))
  \/ (next_promise (env (step (Fire id) w)) = next_promise (env w)
      /\ nothing_typed w (step (Fire id) w)).
Proof.
  intros Hidle. unfold step, handle, fire.
  destruct (drain_frame w) as (Hde & Hdo & Hdt & _ & Hdn & _).
  destruct (timers (env w) !! id) as [t|] eqn:Hin.
  2:{ right. split; [exact Hdn|]. unfold nothing_typed.
      rewrite Hde, Hdo, Hdt, drain_cues. repeat split. trivial. }
  pose proof (Hidle id t Hin) as Hk.
  set (w0 := clearTimeout id w).
  assert (H0 : nothing_typed w w0 /\ next_promise (env w0) = next_promise (env w)).
  { subst w0. split; [|reflexivity]. repeat split. cbn. intros i x.
    apply (cancel_sub (Some id)). }
  destruct H0 as ((He0 & Ho0 & Hc0 & Ht0) & Hn0). clearbody w0.
  assert (Hgen : forall w1,
    next_promise (env w0) < next_promise (env w1)
    \/ (next_promise (env w1) = next_promise (env w0) /\ nothing_typed w0 w1) ->
    next_promise (env w) < next_promise (env (drain w1))
    \/ (next_promise (env (drain w1)) = next_promise (env w)
        /\ nothing_typed w (drain w1))).
  { intros w1 [Hlt | (Heq & He1 & Ho1 & Hc1 & Ht1)];
      destruct (drain_frame w1) as (He & Ho & Ht & _ & Hn & _).
    - left. rewrite Hn. lia.
    - right. rewrite Hn. split; [lia|]. unfold nothing_typed.
      rewrite He, Ho, Ht, drain_cues. repeat split; try congruence. auto. }
  apply Hgen.
  destruct (t_fn t); try discriminate; cbn [run_closure].
  - destruct (nextSnippet_cases w0) as [-> | ->]; [right | left; lia].
    split; [apply clearRotationTimers_env|].
    destruct (clearRotationTimers_frame w0) as (He & Hd & _ & Hsub).
    destruct (clearRotationTimers_env w0) as (_ & _ & Htr).
    unfold nothing_typed. cbn. rewrite He, Hd, Htr. repeat split. exact Hsub.
  - right. split; [reflexivity|]. repeat split. trivial.
  - destruct (startDemo_cases w0) as [(e & -> & Hne) | [-> | ->]];
      [right | right | left; lia].
    + split; [reflexivity|]. unfold nothing_typed. cbn. rewrite cue_count_snoc.
      repeat split; [|trivial].
      destruct e as [[]| |]; cbn; try lia. congruence.
    + split; [reflexivity|]. repeat split. trivial.
Qed.

Lemma next_promise_fire_engine (w : World) (id : positive) (t : timer) :
  timers (env w) !! id = Some t -> engine_closure (t_fn t) = true ->
  next_promise (env (step (Fire id) w)) = next_promise (env w).
Proof.
  intros Hin Hk. unfold step, handle, fire. rewrite Hin.
  destruct (drain_frame (run_closure (t_fn t) (clearTimeout id w)))
    as (_ & _ & _ & _ & -> & _).
  destruct (t_fn t); try discriminate; cbn [run_closure].
  - rewrite next_promise_typeCharacters. reflexivity.
  - unfold _playBackspaceSound, setTimeout, emit. cbv zeta. case_if; reflexivity.
  - unfold _playKeypressSound, setTimeout, emit. cbv zeta. case_if; reflexivity.
  - rewrite next_promise_typeCharacters. reflexivity.
Qed.

(** The promise counter never goes down as timers fire. *)
Lemma next_promise_fire (w : World) (id : positive) :
  next_promise (env w) <= next_promise (env (step (Fire id) w)).
Proof.
  destruct (timers (env w) !! id) as [t|] eqn:Hin.
  - destruct (engine_closure (t_fn t)) eqn:Hk.
    + rewrite (next_promise_fire_engine w id t Hin Hk). lia.
    + unfold step, handle, fire. rewrite Hin.
      destruct (drain_frame (run_closure (t_fn t) (clearTimeout id w)))
        as (_ & _ & _ & _ & -> & _).
      destruct (t_fn t); try discriminate; cbn [run_closure].
      * destruct (nextSnippet_cases (clearTimeout id w)) as [-> | ->].
        -- destruct (clearRotationTimers_env (clearTimeout id w)) as (_ & Hn & _).
           cbn. rewrite Hn. cbn. lia.
        -- cbn. lia.
      * cbn. lia.
      * destruct (startDemo_cases (clearTimeout id w)) as [(e & -> & _) | [-> | ->]];
          cbn; lia.
  - unfold step, handle, fire. rewrite Hin.
    destruct (drain_frame w) as (_ & _ & _ & _ & -> & _). lia.
Qed.

Lemma next_promise_run_fire ids : forall w,
  next_promise (env w) <= next_promise (env (run (List.map Fire ids) w)).
Proof.
  induction ids as [|i ids IH]; intros w; [cbn; lia|].
  change (run (List.map Fire (i :: ids)) w)
    with (run (List.map Fire ids) (step (Fire i) w)).
  pose proof (next_promise_fire w i). pose proof (IH (step (Fire i) w)). lia.
Qed.

Lemma nothing_typed_trans w1 w2 w3 :
  nothing_typed w1 w2 -> nothing_typed w2 w3 -> nothing_typed w1 w3.
Proof.
  intros (He & Ho & Hc & Ht) (He' & Ho' & Hc' & Ht').
  repeat split; try congruence. auto.
Qed.

Lemma quiet_run ids : forall w,
  engine_idle w ->
  next_promise (env (run (List.map Fire ids) w)) = next_promise (env w) ->
  nothing_typed w (run (List.map Fire ids) w).
Proof.
  induction ids as [|i ids IH]; intros w Hidle Hn.
  - repeat split. trivial.
  - change (run (List.map Fire (i :: ids)) w)
      with (run (List.map Fire ids) (step (Fire i) w)) in *.
    pose proof (next_promise_run_fire ids (step (Fire i) w)) as Hmono.
    destruct (quiet_fire w i Hidle) as [Hlt | (Heq & Hq)]; [lia|].
    eapply nothing_typed_trans; [exact Hq|].
    apply IH; [|lia].
    destruct Hq as (_ & _ & _ & Hsub).
    eapply engine_idle_sub; eassumption.
Qed.

(** A navigation call is no cancellation. *)
Lemma session_of_ext p (w w' : World) :
  eng w' = eng w ->
  promises (env w') !! p = promises (env w) !! p ->
  next_promise (env w) <= next_promise (env w') ->
  session_of p w -> session_of p w'.
Proof.
  intros He Hp Hn (Hty & Hco & Hpr & Hlt). unfold session_of.
  rewrite He, Hp. repeat split; try assumption. lia.
Qed.

(** While a session is in flight [typeCurrentSnippet] leaves it so. *)
Lemma session_of_typeCurrentSnippet p w :
  session_of p w -> session_of p (typeCurrentSnippet w).
Proof.
  intros Hs. pose proof Hs as (Hty & Hco & Hpr & Hlt).
  destruct (snippet_at (snippets (ctl w)) (currentSnippetIndex (ctl w))) as [s|] eqn:Hsn.
  2:{ unfold typeCurrentSnippet. rewrite Hsn. exact Hs. }
  destruct (typeCurrentSnippet_eq w s Hsn) as (w1 & -> & He & Hv & _).
  assert (Hty1 : isTyping (eng w1) = true) by (rewrite He; exact Hty).
  rewrite (typeText_busy _ _ w1 Hty1). cbn [fst snd].
  set (q := next_promise (env w1)).
  destruct (settle_frame q (Rejected (Error "Already typing")) (snd (new_promise w1)))
    as (He2 & _ & _ & _ & _ & Hn2 & _ & _ & Hq2).
  assert (Hw2 : session_of p (settle q (Rejected (Error "Already typing"))
                                (snd (new_promise w1)))).
  { apply (session_of_ext p w); [| | |exact Hs].
    - rewrite He2. exact He.
    - rewrite Hq2 by (subst q; rewrite Hv; lia). cbn.
      rewrite lookup_insert_ne by (rewrite Hv; lia). rewrite Hv. reflexivity.
    - rewrite Hn2. cbn. rewrite Hv. lia. }
  unfold await.
  destruct (promises (env _) !! q) as [[| |e]|]; try exact Hw2;
    (eapply session_of_ext; [reflexivity | reflexivity | cbn; lia | exact Hw2]).
Qed.

Lemma session_of_navigation p e w :
  navigation e = true -> session_of p w -> session_of p (step e w).
Proof.
  intros Hnav Hs. unfold step.
  assert (Hcrt : forall w0, session_of p w0 -> session_of p (clearRotationTimers w0)).
  { intros w0 H0. destruct (clearRotationTimers_frame w0) as (He & _).
    destruct (clearRotationTimers_env w0) as (Hp & Hn & _).
    apply (session_of_ext p w0); rewrite ?He, ?Hp, ?Hn; auto. }
  assert (Hh : session_of p (handle e w)).
  { destruct e; try discriminate; cbn [handle].
    - unfold nextSnippet. cbv zeta. apply session_of_typeCurrentSnippet.
      apply (session_of_ext p (clearRotationTimers w)); [reflexivity .. | apply Hcrt, Hs].
    - unfold previousSnippet. cbv zeta. apply session_of_typeCurrentSnippet.
      apply (session_of_ext p (clearRotationTimers w)); [reflexivity .. | apply Hcrt, Hs].
    - unfold restartCurrentSnippet. cbv zeta.
      apply session_of_typeCurrentSnippet, Hcrt, Hs.
    - unfold handleUserInteraction, nextSnippet. cbv zeta.
      match goal with |- session_of p (snd (setTimeout _ _ ?x)) =>
        assert (Hx : session_of p x) end.
      { apply session_of_typeCurrentSnippet.
        match goal with |- session_of p (upd_ctl _ ?y) =>
          apply (session_of_ext p y); [reflexivity .. |] end.
        apply Hcrt, Hcrt.
        apply (session_of_ext p w); [reflexivity .. | exact Hs]. }
      eapply session_of_ext; [reflexivity | reflexivity | cbn; lia | exact Hx].
    - unfold setSnippet. destruct (js_in_range _ _); [|exact Hs]. cbv zeta.
      apply session_of_typeCurrentSnippet.
      apply (session_of_ext p (clearRotationTimers w)); [reflexivity .. | apply Hcrt, Hs]. }
  destruct (drain_frame (handle e w)) as (He & _ & _ & Hp & Hn & _).
  apply (session_of_ext p (handle e w)); rewrite ?He, ?Hp, ?Hn; auto.
Qed.

(** [stop] while "ab" is being typed: "a" stays on screen, no timer is
    left, and nothing ever happens again on its own. *)
Example stopped_page_is_frozen :
  let w' := step CallStop two_page_typing in
  out_text (dom w') = js "a"
  /\ timers (env w') = ∅
  /\ forall ids, run (List.map Fire ids) w' = w'.
Proof.
  cbv zeta. do 2 (split; [vm_compute; reflexivity|]).
  apply quiet_page_is_frozen; vm_compute; reflexivity.
Qed.

(** ** Navigation bounds *)

(** C9. An index below 0 or at or above the number of snippets makes
    [setSnippet] return without touching anything: the index, the
    timers, the engine and the page are as before, and nothing is
    raised. *)
Theorem C9_setSnippet_out_of_range (w : World) (index : Z) :
  (index < 0 \/ Z.of_nat (length (snippets (ctl w))) <= index)%Z ->
  setSnippet (Num index) w = w.
Proof.
  intros Hout. unfold setSnippet, js_in_range.
  destruct (0 <=? index)%Z eqn:Hlo; simpl; [|reflexivity].
  destruct (index <? Z.of_nat (length (snippets (ctl w))))%Z eqn:Hhi; [|reflexivity].
  apply Z.leb_le in Hlo. apply Z.ltb_lt in Hhi. lia.
Qed.

Lemma C9_setSnippet_out_of_range_witness :
  setSnippet (Num (-1)) two_page_typing = two_page_typing
  /\ setSnippet (Num 2) two_page_typing = two_page_typing.
Proof.
  split.
  - apply (C9_setSnippet_out_of_range two_page_typing (-1)). left. lia.
  - apply (C9_setSnippet_out_of_range two_page_typing 2). right.
    vm_compute. discriminate.
Defined.

(** C10. With no snippets, [nextSnippet] takes a remainder by zero and
    leaves NaN in [currentSnippetIndex], and [previousSnippet], from
    index 0, leaves -1; no value is a valid index then, and in both
    calls [typeCurrentSnippet] finds no snippet and returns, so that
    beyond the cleared rotation timers only the index has changed. *)
Theorem C10_navigation_without_snippets (w : World) :
  snippets (ctl w) = [] ->
  nextSnippet w = upd_ctl (set_currentSnippetIndex NaN) (clearRotationTimers w)
  /\ (currentSnippetIndex (ctl w) = Num 0 ->
      previousSnippet w
      = upd_ctl (set_currentSnippetIndex (Num (-1))) (clearRotationTimers w))
  /\ (forall i, js_in_range i (Z.of_nat (length (snippets (ctl w)))) = false).
Proof.
  intros Hnone.
  assert (Hs : snippets (ctl (clearRotationTimers w)) = []).
  { unfold clearRotationTimers.
    destruct (autoRotateTimer (ctl w)); simpl;
      destruct (typingCompleteTimer (ctl w)); simpl; exact Hnone. }
  assert (Hi : currentSnippetIndex (ctl (clearRotationTimers w))
               = currentSnippetIndex (ctl w)).
  { unfold clearRotationTimers.
    destruct (autoRotateTimer (ctl w)); simpl;
      destruct (typingCompleteTimer (ctl w)); simpl; reflexivity. }
  assert (Hrem : forall a, js_rem (js_add a 1) (Z.of_nat 0) = NaN).
  { intros [z|]; reflexivity. }
  repeat split.
  - unfold nextSnippet, typeCurrentSnippet, upd_ctl. simpl.
    rewrite Hs, Hrem. reflexivity.
  - intros Hzero. unfold previousSnippet, typeCurrentSnippet, upd_ctl. simpl.
    rewrite Hs, Hi, Hzero. reflexivity.
  - rewrite Hnone. destruct i as [z|]; [|reflexivity]. cbn.
    destruct (0 <=? z)%Z eqn:Hz; [|reflexivity].
    apply Z.leb_le in Hz. cbn. apply Z.ltb_ge. exact Hz.
Qed.

Lemma C10_navigation_without_snippets_witness :
  currentSnippetIndex (ctl (nextSnippet empty_page)) = NaN
  /\ currentSnippetIndex (ctl (previousSnippet empty_page)) = Num (-1).
Proof.
  destruct (C10_navigation_without_snippets empty_page eq_refl) as (Hn & Hp & _).
  rewrite Hn, (Hp eq_refl). split; reflexivity.
Defined.

(** ** Starting without snippets *)

(** C7, as the code has it. With no snippets [startDemo] raises nothing:
    it writes a warning to the console and returns, its promise
    fulfilled; no cue is played, no session starts, no timer is set and
    the index and phase stay. *)
Theorem C7_startDemo_without_snippets (w : World) :
  snippets (ctl w) = [] ->
  startDemo w = (Fulfilled, emit (ConsoleWarn "No code snippets available") w).
Proof.
  intros Hnone. unfold startDemo. rewrite Hnone. reflexivity.
Qed.

Lemma C7_startDemo_without_snippets_witness :
  startDemo empty_page
  = (Fulfilled, emit (ConsoleWarn "No code snippets available") empty_page).
Proof.
  apply (C7_startDemo_without_snippets empty_page). reflexivity.
Defined.

(** C7 as stated fails: on the page without snippets the promise of
    [startDemo] is fulfilled, not rejected, and the only trace of the
    call is the console warning. *)
Lemma C7_startDemo_raises_nothing :
  snippets (ctl empty_page) = []
  /\ fst (startDemo empty_page) = Fulfilled
  /\ (forall e, fst (startDemo empty_page) <> Rejected e)
  /\ trace (env (snd (startDemo empty_page)))
     = [ConsoleWarn "No code snippets available"].
Proof.
  repeat split; try reflexivity. intros e. simpl. discriminate.
Qed.

(** * Further properties *)

(** ** The engine on its own *)

(** X1. [typeText] with the empty text on an idle engine completes in
    the call itself: its promise is fulfilled on return, the output is
    empty, the engine is idle again and holds the timer handle it held,
    no callback of the engine has been scheduled, and the completion
    cue is played when the sound is on.  With the sound off no timer at
    all has been set (with the sound on, the sound manager schedules
    the notes of its chime, which the timer table does not hold). *)
Theorem typeText_empty_completes_at_once (language : jsstring) (w : World) :
  isTyping (eng w) = false ->
  let p := fst (typeText [] language w) in
  let w' := snd (typeText [] language w) in
  promises (env w') !! p = Some Fulfilled
  /\ out_text (dom w') = []
  /\ isTyping (eng w') = false
  /\ currentTimeout (eng w') = currentTimeout (eng w)
  /\ (forall id t, timers (env w') !! id = Some t -> engine_closure (t_fn t) = true ->
        timers (env w) !! id = Some t)
  /\ (audio_on w = false -> timers (env w') = timers (env w))
  /\ trace (env w') = trace (env w) ++ (if audio_on w then [Cue Complete] else []).
Proof.
  intros Hidle. rewrite (typeText_idle _ _ _ Hidle). cbn [fst snd].
  set (p := next_promise (env w)).
  set (w0 := upd_dom _ _).
  assert (H0 : isTyping (eng w0) = true /\ isPaused (eng w0) = false
               /\ onComplete (eng w0) = Some (Resolve p)
               /\ promises (env w0) !! p = Some Pending
               /\ out_text (dom w0) = []
               /\ timers (env w0) = timers (env w)
               /\ trace (env w0) = trace (env w)
               /\ audio_on w0 = audio_on w
               /\ currentTimeout (eng w0) = currentTimeout (eng w)).
  { subst w0. cbn. repeat split. apply lookup_insert_eq. }
  destruct H0 as (Hty & Hpa & Hco & Hpr & Ho & Ht & Htr & Hau & Hct). clearbody w0.
  unfold _typeCharacters. rewrite Hty, Hpa. cbn [negb orb length Nat.leb].
  rewrite completeTyping_eq, Hco, Hau. cbv zeta. cbn [call_complete].
  set (w1 := if audio_on w then _ else _).
  assert (H1 : promises (env w1) !! p = Some Pending
               /\ out_text (dom w1) = [] /\ isTyping (eng w1) = false
               /\ timers (env w1) = timers (env w)
               /\ currentTimeout (eng w1) = currentTimeout (eng w)
               /\ trace (env w1)
                  = trace (env w) ++ (if audio_on w then [Cue Complete] else [])).
  { subst w1. destruct (audio_on w); cbn; rewrite ?Htr, ?app_nil_r; auto 10. }
  destruct H1 as (Hp1 & Ho1 & Hty1 & Ht1 & Hct1 & Htr1). clearbody w1.
  destruct (settle_pending p Fulfilled w1 Hp1) as (Hs & He & Hd).
  destruct (settle_frame p Fulfilled w1) as (_ & _ & _ & Hts & _ & _ & _ & Htrs & _).
  rewrite Hs, He, Hd, Hts, Htrs, Ht1. auto 10.
Qed.

Lemma typeText_empty_completes_at_once_witness :
  promises (env (snd (typeText [] (js "javascript") empty_page))) !! 0 = Some Fulfilled
  /\ trace (env (snd (typeText [] (js "javascript") empty_page))) = [Cue Complete].
Proof.
  destruct (typeText_empty_completes_at_once (js "javascript") empty_page eq_refl)
    as (Hp & _ & _ & _ & _ & _ & Htr).
  split; [exact Hp | exact Htr].
Defined.

(** X2. A newline is never mistyped: whatever the draws and the error
    chance, [_typeCharacters] at a newline appends the newline itself
    and schedules the next character. *)
Theorem newline_is_never_mistyped (text : jsstring) (i : nat) (w : World) :
  isTyping (eng w) = true -> isPaused (eng w) = false ->
  i < length text -> nth i text 0%N = NEWLINE ->
  let w' := _typeCharacters text i w in
  out_text (dom w') = out_text (dom w) ++ [NEWLINE]
  /\ exists d, timers (env w') !! next_timer (env w)
               = Some {| t_fn := TypeNext text i; t_delay := d |}.
Proof.
  intros Hty Hpa Hi Hnl.
  destruct (typeCharacters_cases text i w Hty Hpa Hi)
    as (tr & n & d & k & o & -> & [[-> ->] | (x & s & _ & _ & Hne)]).
  - cbn. rewrite Hnl. split; [reflexivity|]. exists d. apply lookup_insert_eq.
  - contradiction.
Qed.

(** An engine that always errs, about to type a newline. *)
Lemma newline_is_never_mistyped_witness :
  let w := snd (typeText (js "x") (js "javascript") forced_error_page) in
  out_text (dom (_typeCharacters [NEWLINE] 0 w)) = out_text (dom w) ++ [NEWLINE].
Proof.
  cbv zeta.
  apply (newline_is_never_mistyped [NEWLINE] 0
           (snd (typeText (js "x") (js "javascript") forced_error_page)));
    try reflexivity.
  cbn. lia.
Defined.

(** X3. [stop] and [clear] are idempotent, and after [stop] the engine
    is neither typing nor paused and holds no handle. *)
Theorem stop_is_idempotent (w : World) :
  stop (stop w) = stop w
  /\ clear (clear w) = clear w
  /\ isTyping (eng (stop w)) = false
  /\ isPaused (eng (stop w)) = false
  /\ currentTimeout (eng (stop w)) = None.
Proof.
  assert (Hs : forall x, stop (stop x) = stop x).
  { intros x. rewrite (stop_eq (stop x)), (stop_eq x).
    destruct x as [e c d v]. reflexivity. }
  split; [apply Hs|]. split.
  - unfold clear. cbv zeta.
    rewrite (stop_eq (upd_dom (set_out_text []) (stop w))), (stop_eq w).
    destruct w as [e c d v]. destruct d. reflexivity.
  - rewrite stop_eq. repeat split.
Qed.

(** X4. [pause] does nothing on an engine that is not typing, [resume]
    does nothing on an engine that is not typing or not paused, and
    both are idempotent. *)
Theorem pause_and_resume_noops (w : World) :
  (isTyping (eng w) = false -> pause w = w /\ resume w = w)
  /\ (isPaused (eng w) = false -> resume w = w)
  /\ pause (pause w) = pause w
  /\ resume (resume w) = resume w.
Proof.
  split; [|split; [|split]].
  - intros Hty. unfold pause, resume. rewrite Hty. auto.
  - intros Hpa. unfold resume. rewrite Hpa, andb_false_r. reflexivity.
  - destruct (isTyping (eng w)) eqn:Hty.
    + rewrite (pause_eq (pause w)); rewrite (pause_eq w Hty); [|exact Hty].
      destruct w as [e c d v]. reflexivity.
    + unfold pause at 2. rewrite Hty. unfold pause. rewrite Hty. reflexivity.
  - assert (Hno : forall x, isPaused (eng x) = false -> resume x = x).
    { intros x Hx. unfold resume. rewrite Hx, andb_false_r. reflexivity. }
    destruct (resume_cases w) as [Heq | (Hty & Hpa & [Heq | (text & i & Hi & Heq)])].
    + rewrite Heq. exact Heq.
    + rewrite Heq. apply Hno. reflexivity.
    + apply Hno. rewrite Heq.
      destruct (typeCharacters_cases text i (upd_eng (set_isPaused false) w))
        as (tr & n & d & k & o & -> & _); [exact Hty | reflexivity | exact Hi |].
      reflexivity.
Qed.

(** X5. [pause] freezes the page: in every reachable state, after
    [pause] no callback of the engine is pending, and as timers fire,
    until a call of [typeText] makes a new promise, the engine and the
    text on screen stay, no completion cue is played and no timer is
    scheduled. *)
Theorem pause_freezes_the_text (w : World) :
  reachable w ->
  let w' := step CallPause w in
  engine_idle w'
  /\ out_text (dom w') = out_text (dom w)
  /\ forall ids,
       let w'' := run (List.map Fire ids) w' in
       next_promise (env w'') = next_promise (env w') ->
       nothing_typed w' w''.
Proof.
  intros Hreach w'.
  pose proof (reachable_wf (step CallPause w) (reach_step CallPause w Hreach)) as Hwf'.
  pose proof (reachable_wf w Hreach) as Hwf.
  destruct (drain_frame (pause w)) as (He & Ho & Ht & _).
  assert (Hidle : engine_idle w').
  { subst w'. unfold step, handle. eapply engine_idle_ext; [exact Ht|].
    destruct (isTyping (eng w)) eqn:Hty.
    - rewrite (pause_eq w Hty).
      eapply engine_idle_cancel; [exact Hwf | reflexivity].
    - unfold pause. rewrite Hty. apply engine_idle_of_flags; auto. }
  split; [exact Hidle|]. split.
  - subst w'. unfold step, handle. rewrite Ho.
    destruct (pause_frame w) as (_ & -> & _). reflexivity.
  - intros ids w'' Hn. apply quiet_run; assumption.
Qed.

Lemma pause_freezes_the_text_witness :
  out_text (dom (step CallPause two_page_typing)) = js "a"
  /\ engine_idle (step CallPause two_page_typing).
Proof.
  destruct (pause_freezes_the_text two_page_typing) as (Hi & Ho & _).
  - apply (reach_step (Fire 1) two_page). apply reach_init.
  - split; [exact Ho | exact Hi].
Defined.

Lemma typeCharacters_session_at text p i w :
  isTyping (eng w) = true -> isPaused (eng w) = false ->
  onComplete (eng w) = Some (Resolve p) ->
  promises (env w) !! p = Some Pending -> p < next_promise (env w) ->
  out_text (dom w) = take i text -> i < length text ->
  exists k, in_session text p k (_typeCharacters text i w)
            /\ (k = TypeNext text i \/ exists c s, k = ErrBackspace text i c s).
Proof.
  intros Hty Hpa Hco Hpr Hlt Hout Hi.
  destruct (typeCharacters_cases text i w Hty Hpa Hi)
    as (tr & n & d & k & o & -> & Hk).
  exists k. split.
  - unfold in_session. cbn.
    do 5 (split; [assumption|]).
    exists (next_timer (env w)), d. split; [reflexivity|].
    split; [apply lookup_insert_eq|].
    destruct Hk as [[-> ->] | (x & s & -> & -> & _)]; cbn.
    + repeat split; [exact Hi|]. rewrite Hout. apply take_snoc_nth, Hi.
    + repeat split; [exact Hi|]. exists x. rewrite Hout. reflexivity.
  - destruct Hk as [[-> _] | (x & s & -> & _)]; eauto.
Qed.

(** X6. A session started by [typeWithCursor] and paused while the
    text on screen is a proper prefix of the text resumes at the
    cursor: [resume] calls [_typeCharacters] at the length of the text
    on screen, so that the next character is the one typed (or
    mistyped) next, and the session runs to completion with the text. *)
Theorem typeWithCursor_resumes_at_cursor
    (text : jsstring) (p j : nat) (k0 : closure) (w : World) :
  in_session text p k0 w ->
  targetText (eng w) = Some text ->
  out_text (dom w) = take j text -> j < length text ->
  let w' := resume (pause w) in
  exists k, in_session text p k w'
    /\ (k = TypeNext text j \/ exists c s, k = ErrBackspace text j c s)
    /\ exists w2, await_run (remaining text k) p w' = Some w2 /\ completed text p w2.
Proof.
  intros (Hty & Hpa & Hco & Hpr & Hlt & _) Htt Hout Hj. cbv zeta.
  rewrite (pause_eq w Hty). unfold resume. cbn [eng upd_eng upd_env isTyping isPaused
    set_currentTimeout set_isPaused andb dom targetText out_text].
  rewrite Hty, Htt, Hout. cbn [default andb].
  rewrite length_take, Nat.min_l by lia.
  unfold id.
  replace (j <? length text) with true by (symmetry; apply Nat.ltb_lt; exact Hj).
  match goal with |- context [_typeCharacters text j ?x] => set (w0 := x) end.
  destruct (typeCharacters_session_at text p j w0) as (k & Hs & Hk); try assumption;
    try reflexivity.
  exists k. split; [exact Hs|]. split; [exact Hk|].
  eapply session_completes; [exact Hs | reflexivity].
Qed.

(** [two_page_typing], had the controller called [typeWithCursor]. *)
Lemma typeWithCursor_resumes_at_cursor_witness :
  let w := upd_eng (set_targetText (Some (js "ab"))) two_page_typing in
  exists k, in_session (js "ab") 0 k (resume (pause w))
            /\ (k = TypeNext (js "ab") 1 \/ exists c s, k = ErrBackspace (js "ab") 1 c s).
Proof.
  cbv zeta.
  destruct (typeWithCursor_resumes_at_cursor (js "ab") 0 1 (TypeNext (js "ab") 0)
              (upd_eng (set_targetText (Some (js "ab"))) two_page_typing))
    as (k & Hs & Hk & _).
  - unfold in_session. do 4 (split; [reflexivity|]). split; [vm_compute; lia|].
    exists 2%positive, (240 # 4). vm_compute. repeat split. lia.
  - reflexivity.
  - reflexivity.
  - vm_compute. lia.
  - exists k. split; [exact Hs | exact Hk].
Defined.

(** X7. Paused after its last character, while the completing timer
    was pending, a session started by [typeWithCursor] is never
    completed: [resume] finds the whole text on screen and schedules
    nothing. *)
Theorem pause_after_last_character_never_completes
    (text : jsstring) (p : nat) (k0 : closure) (w : World) :
  in_session text p k0 w ->
  targetText (eng w) = Some text ->
  out_text (dom w) = text ->
  let w' := resume (pause w) in
  isTyping (eng w') = true
  /\ currentTimeout (eng w') = None
  /\ timers (env w') = cancel (currentTimeout (eng w)) (timers (env w))
  /\ promises (env w') !! p = Some Pending
  /\ forall n, await_run n p w' = None.
Proof.
  intros (Hty & Hpa & Hco & Hpr & Hlt & _) Htt Hout. cbv zeta.
  rewrite (pause_eq w Hty). unfold resume. cbn [eng upd_eng upd_env isTyping isPaused
    set_currentTimeout set_isPaused andb dom targetText out_text].
  rewrite Hty, Htt, Hout. cbn [default andb]. unfold id. rewrite Nat.ltb_irrefl. cbn.
  repeat split; try assumption.
  intros n. destruct n; cbn; rewrite Hpr; reflexivity.
Qed.

Lemma pause_after_last_character_never_completes_witness :
  let w := step (Fire 2) (upd_eng (set_targetText (Some (js "ab"))) two_page_typing) in
  out_text (dom w) = js "ab"
  /\ forall n, await_run n 0 (resume (pause w)) = None.
Proof.
  cbv zeta. split; [reflexivity|].
  destruct (pause_after_last_character_never_completes (js "ab") 0 (TypeNext (js "ab") 1)
              (step (Fire 2) (upd_eng (set_targetText (Some (js "ab"))) two_page_typing)))
    as (_ & _ & _ & _ & Hn).
  - unfold in_session. do 4 (split; [reflexivity|]). split; [vm_compute; lia|].
    exists 3%positive, (240 # 4). vm_compute. repeat split. lia.
  - reflexivity.
  - reflexivity.
  - exact Hn.
Defined.

(** ** What every reachable page keeps *)

(** X8. In every reachable state at most one callback of the engine is
    pending; it is the one [currentTimeout] names, and the engine is
    then typing and not paused: two character timers never run side by
    side, and a stopped or paused engine has none. *)
Theorem one_engine_timer_at_most (w : World) :
  reachable w ->
  forall id1 t1 id2 t2,
    timers (env w) !! id1 = Some t1 -> engine_closure (t_fn t1) = true ->
    timers (env w) !! id2 = Some t2 -> engine_closure (t_fn t2) = true ->
    id1 = id2
    /\ currentTimeout (eng w) = Some id1
    /\ isTyping (eng w) = true /\ isPaused (eng w) = false.
Proof.
  intros Hreach id1 t1 id2 t2 H1 K1 H2 K2.
  destruct (reachable_wf w Hreach) as (_ & He & _).
  destruct (He _ _ H1 K1) as (Hc1 & Hty & Hpa).
  destruct (He _ _ H2 K2) as (Hc2 & _).
  repeat split; try assumption. congruence.
Qed.

Lemma one_engine_timer_at_most_witness :
  currentTimeout (eng two_page_typing) = Some 2%positive
  /\ isTyping (eng two_page_typing) = true.
Proof.
  destruct (one_engine_timer_at_most two_page_typing) with
    (id1 := 2%positive) (id2 := 2%positive)
    (t1 := {| t_fn := TypeNext (js "ab") 0; t_delay := 240 # 4 |})
    (t2 := {| t_fn := TypeNext (js "ab") 0; t_delay := 240 # 4 |})
    as (_ & Hc & Hty & _);
    [ apply (reach_step (Fire 1) two_page); apply reach_init
    | reflexivity | reflexivity | reflexivity | reflexivity
    | split; [exact Hc | exact Hty] ].
Defined.

(** X9. In every reachable state at most one hold timer is pending, the
    one [typingCompleteTimer] names, and every pending handle is below
    the next one [setTimeout] gives out. *)
Theorem one_hold_timer_at_most (w : World) :
  reachable w ->
  (forall id1 t1 id2 t2,
     timers (env w) !! id1 = Some t1 -> t_fn t1 = Rotate ->
     timers (env w) !! id2 = Some t2 -> t_fn t2 = Rotate ->
     id1 = id2 /\ typingCompleteTimer (ctl w) = Some id1)
  /\ (forall id t, timers (env w) !! id = Some t -> (id < next_timer (env w))%positive).
Proof.
  intros Hreach. destruct (reachable_wf w Hreach) as (Hf & _ & Hr).
  split; [|exact Hf].
  intros id1 t1 id2 t2 H1 K1 H2 K2.
  pose proof (Hr _ _ H1 K1). pose proof (Hr _ _ H2 K2).
  split; [congruence | assumption].
Qed.

Lemma one_hold_timer_at_most_witness :
  typingCompleteTimer (ctl two_page_completed) = Some 4%positive.
Proof.
  destruct (one_hold_timer_at_most two_page_completed) as (H & _).
  - unfold two_page_completed, run. cbn [fold_left].
    do 4 apply reach_step. apply reach_init.
  - destruct (H 4%positive {| t_fn := Rotate; t_delay := 5000 |}
                4%positive {| t_fn := Rotate; t_delay := 5000 |})
      as (_ & Ht); [reflexivity | reflexivity | reflexivity | reflexivity | exact Ht].
Defined.

(** ** The controller when the engine is idle *)

Lemma drain_empties (w : World) : microtasks (env (drain w)) = [].
Proof.
  unfold drain. destruct (microtasks (env w)) as [|o ms] eqn:Hm; [exact Hm|].
  set (w0 := upd_env (set_microtasks []) w).
  assert (H0 : microtasks (env w0) = []) by reflexivity.
  clearbody w0. clear Hm. revert w0 H0.
  induction (o :: ms) as [|o' l IH]; intros w0 H0; [exact H0|].
  cbn [fold_left]. apply IH.
  unfold typeCurrentSnippet_resume. destruct o' as [| |e]; cbn; exact H0.
Qed.

Lemma drain_quiet (w : World) : microtasks (env w) = [] -> drain w = w.
Proof. intros Hm. unfold drain. rewrite Hm. reflexivity. Qed.

Lemma init_quiet opts snips soundManager random :
  microtasks (env (init opts snips soundManager random)) = [].
Proof.
  unfold init. cbv zeta.
  set (w0 := updateUI _).
  assert (H0 : microtasks (env w0) = []).
  { subst w0. destruct (updateUI_ui
      (upd_eng (set_onError (Some ControllerError))
         (upd_eng (set_onComplete (Some ControllerComplete))
            (upd_eng (set_onProgress (Some ControllerProgress))
               {| eng := {| options := {| baseSpeed := typingSpeed opts; speedVariation := 20;
                               pauseChance := 8 # 100; pauseDuration := 200;
                               errorChance := 15 # 1000; errorCorrectDelay := 500 |};
                 isTyping := false; isPaused := false; currentTimeout := None;
                 onComplete := None; onProgress := None; onError := None;
                 targetText := None |};
       ctl := {| c_options := opts; currentSnippetIndex := Num 0;
                 c_isTyping := false; c_isPaused := false; isUserInteracting := false;
                 autoRotateTimer := None; typingCompleteTimer := None;
                 snippets := snips |};
       dom := {| out_text := []; out_class := []; container_state := Idle;
                 title_text := []; status_text := []; toggle_muted := false |};
       env := {| timers := ∅; next_timer := 1%positive; promises := ∅;
                 next_promise := 0; awaiting := []; microtasks := [];
                 oracle := random; drawn := 0; sound := soundManager; trace := [] |} |}))))
      as (_ & _ & -> & _). reflexivity. }
  clearbody w0. case_if; [|exact H0]. exact H0.
Qed.

(** Between two turns the microtask queue is empty. *)
Lemma reachable_quiet (w : World) : reachable w -> microtasks (env w) = [].
Proof.
  intros [opts snips sm rnd | e w0 _]; [apply init_quiet | apply drain_empties].
Qed.

(** [typeCurrentSnippet] on an idle engine, with a snippet at the index
    whose code is not empty: the session of the snippet begins. *)
Lemma typeCurrentSnippet_idle (w : World) (s : Snippet) :
  isTyping (eng w) = false ->
  microtasks (env w) = [] ->
  snippet_at (snippets (ctl w)) (currentSnippetIndex (ctl w)) = Some s ->
  sn_code s <> [] ->
  let w' := drain (typeCurrentSnippet w) in
  container_state (dom w') = Typing
  /\ ctl w' = set_c_isTyping true (ctl w)
  /\ title_text (dom w') = truthy_or (Some (sn_title s)) (js "~/projects")
  /\ out_class (dom w') = js "language-" ++ sn_language s
  /\ (forall id t, timers (env w') !! id = Some t ->
        timers (env w) !! id = Some t \/ engine_closure (t_fn t) = true)
  /\ exists k, in_session (sn_code s) (next_promise (env w)) k w'
               /\ remaining (sn_code s) k <= 3 * length (sn_code s).
Proof.
  intros Hidle Hq Hs Hne. cbv zeta.
  unfold typeCurrentSnippet. rewrite Hs. cbv zeta.
  set (w1 := upd_dom (set_out_text []) _).
  assert (H1 : eng w1 = eng w /\ env w1 = env w /\ out_text (dom w1) = []
               /\ ctl w1 = set_c_isTyping true (ctl w)
               /\ container_state (dom w1) = Typing
               /\ title_text (dom w1) = truthy_or (Some (sn_title s)) (js "~/projects")).
  { subst w1. unfold updateUI, updateProgress, updateSoundToggleUI. cbv zeta.
    destruct (sound _); cbn; rewrite Hs; repeat split. }
  destruct H1 as (He1 & Hv1 & Ho1 & Hc1 & Hst1 & Hti1). clearbody w1.
  rewrite (typeText_idle _ _ w1) by (rewrite He1; exact Hidle).
  rewrite Hv1. set (p := next_promise (env w)).
  match goal with |- context [_typeCharacters _ 0 ?x] => set (w0 := x) end.
  assert (Hlen : 0 < length (sn_code s)) by (destruct (sn_code s); [contradiction | cbn; lia]).
  assert (H0 : ctl w0 = set_c_isTyping true (ctl w)
               /\ container_state (dom w0) = Typing
               /\ title_text (dom w0) = truthy_or (Some (sn_title s)) (js "~/projects")
               /\ out_class (dom w0) = js "language-" ++ sn_language s
               /\ timers (env w0) = timers (env w)
               /\ next_timer (env w0) = next_timer (env w)
               /\ microtasks (env w0) = []
               /\ promises (env w0) !! p = Some Pending
               /\ isTyping (eng w0) = true /\ isPaused (eng w0) = false
               /\ onComplete (eng w0) = Some (Resolve p)
               /\ p < next_promise (env w0)
               /\ out_text (dom w0) = take 0 (sn_code s)).
  { subst w0. cbn. rewrite Hv1, Hc1, Hst1, Hti1, Hq. fold p.
    repeat split; [apply lookup_insert_eq | lia]. }
  destruct H0 as (Hc0 & Hst0 & Hti0 & Hcl0 & Htm0 & Hnt0 & Hm0 & Hp0
                  & Hty0 & Hpa0 & Hoc0 & Hlt0 & Hout0).
  clearbody w0.
  destruct (typeCharacters_session (sn_code s) p 0 w0 Hty0 Hpa0 Hoc0 Hp0 Hlt0 Hout0 Hlen)
    as (k & Hin & Hr).
  rewrite Nat.sub_0_r in Hr.
  destruct (typeCharacters_cases (sn_code s) 0 w0 Hty0 Hpa0 Hlen)
    as (tr & n & d & k' & o & Heq & Hk').
  cbn [fst snd]. set (w2 := _typeCharacters (sn_code s) 0 w0) in *.
  assert (H2 : ctl w2 = set_c_isTyping true (ctl w)
               /\ container_state (dom w2) = Typing
               /\ title_text (dom w2) = truthy_or (Some (sn_title s)) (js "~/projects")
               /\ out_class (dom w2) = js "language-" ++ sn_language s
               /\ timers (env w2)
                  = <[next_timer (env w) := {| t_fn := k'; t_delay := d |}]> (timers (env w))
               /\ microtasks (env w2) = []
               /\ promises (env w2) !! p = Some Pending).
  { rewrite Heq. cbn. rewrite Hc0, Hst0, Hti0, Hcl0, Htm0, Hnt0, Hm0, Hp0.
    repeat split. }
  destruct H2 as (Hc2 & Hst2 & Hti2 & Hcl2 & Htm2 & Hm2 & Hp2).
  clear Heq. clearbody w2.
  unfold await. rewrite Hp2. cbv beta iota.
  rewrite drain_quiet by (cbn; exact Hm2).
  cbn. split; [exact Hst2|]. split; [exact Hc2|]. split; [exact Hti2|].
  split; [exact Hcl2|]. split.
  { intros id t. rewrite Htm2. destruct (decide (id = next_timer (env w))) as [->|Hne'].
    - rewrite lookup_insert_eq. intros [= <-]. right.
      destruct Hk' as [[-> _] | (x & sp & -> & _)]; reflexivity.
    - rewrite lookup_insert_ne by congruence. auto. }
  exists k. split; [|exact Hr].
  apply (in_session_frame _ _ _ w2); try reflexivity. exact Hin.
Qed.

(** Moving to the snippet at [ix] while the engine is idle. *)
Lemma goto_idle (w : World) (ix : jsnum) (s : Snippet) :
  wf w -> microtasks (env w) = [] -> isTyping (eng w) = false ->
  snippet_at (snippets (ctl w)) ix = Some s -> sn_code s <> [] ->
  let w' := drain (typeCurrentSnippet
                     (upd_ctl (set_currentSnippetIndex ix) (clearRotationTimers w))) in
  currentSnippetIndex (ctl w') = ix
  /\ no_rotation w' /\ typingCompleteTimer (ctl w') = None
  /\ starts_typing s (next_promise (env w)) w'.
Proof.
  intros Hwf Hq Hidle Hs Hne.
  set (w0 := upd_ctl (set_currentSnippetIndex ix) (clearRotationTimers w)).
  assert (H0 : isTyping (eng w0) = false /\ microtasks (env w0) = []
               /\ snippet_at (snippets (ctl w0)) (currentSnippetIndex (ctl w0)) = Some s
               /\ next_promise (env w0) = next_promise (env w)
               /\ currentSnippetIndex (ctl w0) = ix
               /\ typingCompleteTimer (ctl w0) = None
               /\ no_rotation w0).
  { subst w0. split; [|split; [|split; [|split; [|split; [|split]]]]].
    - rewrite clearRotationTimers_eq. exact Hidle.
    - rewrite clearRotationTimers_eq. exact Hq.
    - rewrite clearRotationTimers_eq. exact Hs.
    - rewrite clearRotationTimers_eq. reflexivity.
    - reflexivity.
    - rewrite clearRotationTimers_eq. reflexivity.
    - intros id t Hin. destruct (wf_clearRotationTimers w Hwf) as (_ & Hnr).
      apply (Hnr id t). exact Hin. }
  destruct H0 as (Hidle0 & Hq0 & Hs0 & Hnp0 & Hix0 & Htc0 & Hnr0). clearbody w0.
  destruct (typeCurrentSnippet_idle w0 s Hidle0 Hq0 Hs0 Hne)
    as (Hst & Hc & Hti & Hcl & Htm & k & Hin & Hr).
  cbv zeta. rewrite Hnp0 in Hin.
  split; [rewrite Hc; exact Hix0|].
  split.
  { intros id t Hlook Hrot. destruct (Htm id t Hlook) as [Hold | Heng].
    - apply (Hnr0 id t Hold Hrot).
    - rewrite Hrot in Heng. discriminate. }
  split; [rewrite Hc; exact Htc0|].
  split; [exact Hst|]. split; [exact Hti|]. split; [exact Hcl|].
  split; [exists k; exact Hin|].
  apply (session_completes _ _ _ k _ Hin Hr).
Qed.

Lemma upd_index_eq (f : Controller -> jsnum) (ix : jsnum) (w : World) :
  f (ctl w) = ix ->
  upd_ctl (fun c => set_currentSnippetIndex (f c) c) w
  = upd_ctl (set_currentSnippetIndex ix) w.
Proof. intros <-. reflexivity. Qed.

Lemma clearRotationTimers_ctl (w : World) :
  currentSnippetIndex (ctl (clearRotationTimers w)) = currentSnippetIndex (ctl w)
  /\ snippets (ctl (clearRotationTimers w)) = snippets (ctl w)
  /\ c_options (ctl (clearRotationTimers w)) = c_options (ctl w)
  /\ c_isPaused (ctl (clearRotationTimers w)) = c_isPaused (ctl w)
  /\ isUserInteracting (ctl (clearRotationTimers w)) = isUserInteracting (ctl w)
  /\ c_isTyping (ctl (clearRotationTimers w)) = c_isTyping (ctl w).
Proof. rewrite clearRotationTimers_eq. repeat split. Qed.

Lemma snippet_at_nat (l : list Snippet) (z : Z) :
  (0 <= z)%Z -> snippet_at l (Num z) = l !! Z.to_nat z.
Proof. intros Hz. cbn. apply Z.leb_le in Hz. rewrite Hz. reflexivity. Qed.

(** X10. [nextSnippet] while the engine is idle: the index moves one
    up, from the last snippet round to the first, any pending hold is
    cancelled, and the session of the snippet now at the index begins
    and runs to completion. *)
Theorem nextSnippet_when_idle (w : World) (z : Z) (s : Snippet) :
  reachable w -> isTyping (eng w) = false ->
  currentSnippetIndex (ctl w) = Num z ->
  (0 <= z < Z.of_nat (length (snippets (ctl w))))%Z ->
  snippets (ctl w) !! Z.to_nat ((z + 1) mod Z.of_nat (length (snippets (ctl w)))) = Some s ->
  sn_code s <> [] ->
  let w' := step CallNextSnippet w in
  currentSnippetIndex (ctl w')
  = Num (if (z + 1 =? Z.of_nat (length (snippets (ctl w))))%Z then 0 else z + 1)
  /\ no_rotation w' /\ typingCompleteTimer (ctl w') = None
  /\ starts_typing s (next_promise (env w)) w'.
Proof.
  intros Hreach Hidle Hix Hz Hs Hne.
  set (n := Z.of_nat (length (snippets (ctl w)))) in *.
  destruct (next_index_in_range z n Hz) as (Hrem & Hin).
  assert (Hmod : ((z + 1) mod n)%Z = if (z + 1 =? n)%Z then 0%Z else (z + 1)%Z).
  { destruct (z + 1 =? n)%Z eqn:E.
    - apply Z.eqb_eq in E. rewrite E. apply Z.mod_same. lia.
    - apply Z.eqb_neq in E. apply Z.mod_small. lia. }
  rewrite <- Hmod.
  unfold step. cbn [handle]. unfold nextSnippet. cbv zeta.
  destruct (clearRotationTimers_ctl w) as (Hci & Hcs & _).
  rewrite (upd_index_eq _ (Num ((z + 1) mod n))).
  2:{ rewrite Hci, Hcs, Hix. exact Hrem. }
  apply goto_idle; [apply reachable_wf, Hreach | apply reachable_quiet, Hreach
                   | exact Hidle | | exact Hne].
  rewrite snippet_at_nat; [exact Hs|].
  apply andb_prop in Hin as [Hlo _]. apply Z.leb_le in Hlo. exact Hlo.
Qed.

Lemma two_page_completed_reachable : reachable two_page_completed.
Proof.
  unfold two_page_completed, run. cbn [fold_left].
  do 4 apply reach_step. apply reach_init.
Qed.

Lemma nextSnippet_when_idle_witness :
  currentSnippetIndex (ctl (step CallNextSnippet two_page_completed)) = Num 1
  /\ starts_typing (snippet_of "cd") 1 (step CallNextSnippet two_page_completed).
Proof.
  destruct (nextSnippet_when_idle two_page_completed 0 (snippet_of "cd"))
    as (Hi & _ & _ & Hst);
    [ exact two_page_completed_reachable | reflexivity | reflexivity
    | vm_compute; split; [discriminate | reflexivity] | reflexivity | discriminate
    | split; [exact Hi | exact Hst] ].
Defined.

(** X11. [previousSnippet] while the engine is idle: the index moves
    one down, from the first snippet round to the last, any pending hold
    is cancelled, and the session of the snippet now at the index begins
    and runs to completion. *)
Theorem previousSnippet_when_idle (w : World) (z : Z) (s : Snippet) :
  reachable w -> isTyping (eng w) = false ->
  currentSnippetIndex (ctl w) = Num z ->
  (0 <= z < Z.of_nat (length (snippets (ctl w))))%Z ->
  snippets (ctl w) !! Z.to_nat ((z - 1) mod Z.of_nat (length (snippets (ctl w)))) = Some s ->
  sn_code s <> [] ->
  let w' := step CallPreviousSnippet w in
  currentSnippetIndex (ctl w')
  = Num (if (z =? 0)%Z then Z.of_nat (length (snippets (ctl w))) - 1 else z - 1)
  /\ no_rotation w' /\ typingCompleteTimer (ctl w') = None
  /\ starts_typing s (next_promise (env w)) w'.
Proof.
  intros Hreach Hidle Hix Hz Hs Hne.
  set (n := Z.of_nat (length (snippets (ctl w)))) in *.
  destruct (previous_index_in_range z n Hz) as (Hprev & Hin).
  assert (Hmod : ((z - 1) mod n)%Z = if (z =? 0)%Z then (n - 1)%Z else (z - 1)%Z).
  { cbn in Hprev. destruct (z =? 0)%Z; [injection Hprev as <-; reflexivity|].
    injection Hprev as <-. lia. }
  rewrite <- Hmod.
  unfold step. cbn [handle]. unfold previousSnippet. cbv zeta.
  destruct (clearRotationTimers_ctl w) as (Hci & Hcs & _).
  rewrite (upd_index_eq _ (Num ((z - 1) mod n))).
  2:{ rewrite Hci, Hcs, Hix. exact Hprev. }
  apply goto_idle; [apply reachable_wf, Hreach | apply reachable_quiet, Hreach
                   | exact Hidle | | exact Hne].
  rewrite snippet_at_nat; [exact Hs|].
  apply andb_prop in Hin as [Hlo _]. apply Z.leb_le in Hlo. exact Hlo.
Qed.

Lemma previousSnippet_when_idle_witness :
  currentSnippetIndex (ctl (step CallPreviousSnippet two_page_completed)) = Num 1
  /\ starts_typing (snippet_of "cd") 1 (step CallPreviousSnippet two_page_completed).
Proof.
  destruct (previousSnippet_when_idle two_page_completed 0 (snippet_of "cd"))
    as (Hi & _ & _ & Hst);
    [ exact two_page_completed_reachable | reflexivity | reflexivity
    | vm_compute; split; [discriminate | reflexivity] | reflexivity | discriminate
    | split; [exact Hi | exact Hst] ].
Defined.

(** X12. [setSnippet] with an index in range and [restartCurrentSnippet],
    while the engine is idle: the index is the one asked for (or stays),
    any pending hold is cancelled, and the session of that snippet
    begins and runs to completion. *)
Theorem setSnippet_when_idle (w : World) (z : Z) (s : Snippet) :
  reachable w -> isTyping (eng w) = false ->
  (0 <= z)%Z -> snippets (ctl w) !! Z.to_nat z = Some s ->
  sn_code s <> [] ->
  (let w' := step (CallSetSnippet (Num z)) w in
   currentSnippetIndex (ctl w') = Num z
   /\ no_rotation w' /\ typingCompleteTimer (ctl w') = None
   /\ starts_typing s (next_promise (env w)) w')
  /\ (currentSnippetIndex (ctl w) = Num z ->
      let w' := step CallRestartCurrentSnippet w in
      currentSnippetIndex (ctl w') = Num z
      /\ no_rotation w' /\ typingCompleteTimer (ctl w') = None
      /\ starts_typing s (next_promise (env w)) w').
Proof.
  intros Hreach Hidle Hz Hs Hne.
  pose proof (reachable_wf w Hreach) as Hwf.
  pose proof (reachable_quiet w Hreach) as Hq.
  assert (Hat : snippet_at (snippets (ctl w)) (Num z) = Some s)
    by (rewrite snippet_at_nat; assumption).
  split.
  - unfold step. cbn [handle]. unfold setSnippet.
    assert (Hin : js_in_range (Num z) (Z.of_nat (length (snippets (ctl w)))) = true).
    { cbn. apply andb_true_intro. split; [apply Z.leb_le; exact Hz|].
      apply Z.ltb_lt. pose proof (lookup_lt_Some _ _ _ Hs). lia. }
    rewrite Hin. cbv zeta. apply goto_idle; assumption.
  - intros Hix. unfold step. cbn [handle]. unfold restartCurrentSnippet. cbv zeta.
    replace (clearRotationTimers w)
      with (upd_ctl (set_currentSnippetIndex (Num z)) (clearRotationTimers w)).
    + apply goto_idle; assumption.
    + destruct (clearRotationTimers_ctl w) as (Hci & _). rewrite <- Hix, <- Hci.
      destruct (clearRotationTimers w) as [e [] d v]. reflexivity.
Qed.

Lemma setSnippet_when_idle_witness :
  starts_typing (snippet_of "cd") 1 (step (CallSetSnippet (Num 1)) two_page_completed).
Proof.
  destruct (setSnippet_when_idle two_page_completed 1 (snippet_of "cd"))
    as ((_ & _ & _ & Hst) & _);
    [ exact two_page_completed_reachable | reflexivity | discriminate
    | reflexivity | discriminate | exact Hst ].
Defined.

(** X13. The hold timer fires while the engine is idle: the controller
    moves to the next snippet, round to the first after the last, and
    the session of that snippet begins and runs to completion; no hold
    is pending any more. *)
Theorem hold_fires_next_snippet (w : World) (id : positive) (d : Q) (z : Z) (s : Snippet) :
  reachable w -> isTyping (eng w) = false ->
  timers (env w) !! id = Some {| t_fn := Rotate; t_delay := d |} ->
  currentSnippetIndex (ctl w) = Num z ->
  (0 <= z < Z.of_nat (length (snippets (ctl w))))%Z ->
  snippets (ctl w) !! Z.to_nat ((z + 1) mod Z.of_nat (length (snippets (ctl w)))) = Some s ->
  sn_code s <> [] ->
  let w' := step (Fire id) w in
  typingCompleteTimer (ctl w) = Some id
  /\ currentSnippetIndex (ctl w')
     = Num ((z + 1) mod Z.of_nat (length (snippets (ctl w))))
  /\ no_rotation w' /\ typingCompleteTimer (ctl w') = None
  /\ starts_typing s (next_promise (env w)) w'.
Proof.
  intros Hreach Hidle Hin Hix Hz Hs Hne.
  pose proof (reachable_wf w Hreach) as Hwf.
  split; [destruct Hwf as (_ & _ & Hr); apply (Hr id _ Hin); reflexivity|].
  set (n := Z.of_nat (length (snippets (ctl w)))) in *.
  destruct (next_index_in_range z n Hz) as (Hrem & Hrange).
  unfold step. cbn [handle]. unfold fire. rewrite Hin. cbn [t_fn run_closure].
  set (w0 := clearTimeout id w).
  assert (Hwf0 : wf w0).
  { apply (wf_sub w); [reflexivity .. | | exact Hwf].
    cbn. intros i x. apply (cancel_sub (Some id)). }
  unfold nextSnippet. cbv zeta.
  destruct (clearRotationTimers_ctl w0) as (Hci & Hcs & _).
  rewrite (upd_index_eq _ (Num ((z + 1) mod n))).
  2:{ rewrite Hci, Hcs. subst w0. cbn. rewrite Hix. exact Hrem. }
  change (next_promise (env w)) with (next_promise (env w0)).
  apply goto_idle; [exact Hwf0 | apply (reachable_quiet w Hreach) | exact Hidle | | exact Hne].
  change (snippets (ctl w0)) with (snippets (ctl w)).
  rewrite snippet_at_nat; [exact Hs|].
  apply andb_prop in Hrange as [Hlo _]. apply Z.leb_le in Hlo. exact Hlo.
Qed.

Lemma hold_fires_next_snippet_witness :
  currentSnippetIndex (ctl (step (Fire 4) two_page_completed)) = Num 1
  /\ starts_typing (snippet_of "cd") 1 (step (Fire 4) two_page_completed).
Proof.
  destruct (hold_fires_next_snippet two_page_completed 4 5000 0 (snippet_of "cd"))
    as (_ & Hi & _ & _ & Hst);
    [ exact two_page_completed_reachable | reflexivity | reflexivity | reflexivity
    | vm_compute; split; [discriminate | reflexivity] | reflexivity | discriminate
    | split; [exact Hi | exact Hst] ].
Defined.

(** ** The completion callback of the controller *)

Lemma completion_inv_sub b (w w' : World) :
  isTyping (eng w') = isTyping (eng w) ->
  onComplete (eng w') = onComplete (eng w) ->
  container_state (dom w') = container_state (dom w) ->
  typingCompleteTimer (ctl w') = typingCompleteTimer (ctl w) ->
  (forall id t, timers (env w') !! id = Some t ->
                timers (env w) !! id = Some t \/ t_fn t <> Rotate) ->
  completion_inv b w -> completion_inv b w'.
Proof.
  intros H1 H2 H3 H4 Hsub (Hp & Hn). unfold completion_inv.
  rewrite H1, H2, H3, H4. split; [exact Hp|].
  intros Hb. destruct (Hn Hb) as (Hs & Ht & Hr). split; [exact Hs|]. split; [exact Ht|].
  intros id t Hin. destruct (Hsub id t Hin) as [Hold | Hk]; [apply (Hr id t Hold) | exact Hk].
Qed.

Lemma completion_inv_ext b (w w' : World) :
  isTyping (eng w') = isTyping (eng w) ->
  onComplete (eng w') = onComplete (eng w) ->
  container_state (dom w') = container_state (dom w) ->
  typingCompleteTimer (ctl w') = typingCompleteTimer (ctl w) ->
  timers (env w') = timers (env w) ->
  completion_inv b w -> completion_inv b w'.
Proof.
  intros H1 H2 H3 H4 H5. apply completion_inv_sub; try assumption.
  rewrite H5. auto.
Qed.

(** A world whose engine is not typing, or completes by a promise. *)
Lemma completion_inv_engine b (w w' : World) :
  (isTyping (eng w') = true -> exists p, onComplete (eng w') = Some (Resolve p)) ->
  container_state (dom w') = container_state (dom w)
  \/ container_state (dom w') <> Completed ->
  typingCompleteTimer (ctl w') = typingCompleteTimer (ctl w) ->
  (forall id t, timers (env w') !! id = Some t ->
                timers (env w) !! id = Some t \/ t_fn t <> Rotate) ->
  completion_inv b w -> completion_inv b w'.
Proof.
  intros He Hst H4 Hsub (_ & Hn). split; [exact He|].
  intros Hb. destruct (Hn Hb) as (Hs & Ht & Hr).
  split; [destruct Hst as [-> | Hx]; assumption|]. split; [rewrite H4; exact Ht|].
  intros id t Hin. destruct (Hsub id t Hin) as [Hold | Hk]; [apply (Hr id t Hold) | exact Hk].
Qed.

Lemma completion_inv_weaken b w : completion_inv b w -> completion_inv false w.
Proof. intros (Hp & _). split; [exact Hp | discriminate]. Qed.

Lemma completion_inv_settle b p o w :
  completion_inv b w -> completion_inv b (settle p o w).
Proof.
  destruct (settle_frame p o w) as (He & Hd & Hc & Ht & _).
  apply completion_inv_ext; rewrite ?He, ?Hd, ?Hc, ?Ht; reflexivity.
Qed.

Lemma completion_inv_await b p w :
  completion_inv b w -> completion_inv b (await p w).
Proof.
  unfold await. destruct (promises (env w) !! p) as [[| |e]|]; trivial;
    apply completion_inv_ext; reflexivity.
Qed.

Lemma completion_inv_drain b w : completion_inv b w -> completion_inv b (drain w).
Proof.
  intros Hinv. unfold drain. destruct (microtasks (env w)) as [|o ms]; [exact Hinv|].
  set (w0 := upd_env (set_microtasks []) w).
  assert (H0 : completion_inv b w0)
    by (apply (completion_inv_ext b w); [reflexivity .. | exact Hinv]).
  clearbody w0. clear Hinv. revert w0 H0.
  induction (o :: ms) as [|o' l IH]; intros w0 H0; [exact H0|].
  cbn [fold_left]. apply IH. unfold typeCurrentSnippet_resume.
  destruct o' as [| |e].
  - apply (completion_inv_ext b w0); [reflexivity .. | exact H0].
  - apply (completion_inv_ext b w0); [reflexivity .. | exact H0].
  - apply (completion_inv_engine b w0); [apply H0 | right; discriminate | reflexivity
                                        | auto | exact H0].
Qed.

Lemma completion_inv_completeTyping b w :
  isTyping (eng w) = true -> completion_inv b w -> completion_inv b (_completeTyping w).
Proof.
  intros Hty Hinv. destruct (proj1 Hinv Hty) as (p & Hco).
  rewrite completeTyping_eq. cbv zeta. rewrite Hco. cbn [call_complete].
  apply completion_inv_settle.
  case_if; (apply (completion_inv_engine b w);
            [discriminate | left; reflexivity | reflexivity | auto | exact Hinv]).
Qed.

Lemma completion_inv_typeCharacters b text i w :
  completion_inv b w -> completion_inv b (_typeCharacters text i w).
Proof.
  intros Hinv.
  destruct (negb (isTyping (eng w)) || isPaused (eng w)) eqn:Hg.
  { unfold _typeCharacters. rewrite Hg. exact Hinv. }
  apply orb_false_elim in Hg as [Hty Hpa]. apply negb_false_iff in Hty.
  destruct (decide (i < length text)) as [Hi | Hi].
  - destruct (typeCharacters_cases text i w Hty Hpa Hi)
      as (tr & n & d & k & o & -> & Hk).
    apply (completion_inv_sub b w); [reflexivity .. | | exact Hinv].
    cbn. intros id t.
    destruct (decide (id = next_timer (env w))) as [->|Hne].
    + rewrite lookup_insert_eq. intros [= <-]. right.
      destruct Hk as [[-> _] | (x & s & -> & _)]; discriminate.
    + rewrite lookup_insert_ne by congruence. auto.
  - unfold _typeCharacters. rewrite Hty, Hpa.
    replace (length text <=? i) with true by (symmetry; apply Nat.leb_le; lia).
    cbn [negb orb]. apply completion_inv_completeTyping; assumption.
Qed.

Lemma completion_inv_typeText b text language w :
  completion_inv b w -> completion_inv b (snd (typeText text language w)).
Proof.
  intros Hinv.
  destruct (isTyping (eng w)) eqn:Hty.
  - rewrite (typeText_busy _ _ _ Hty). cbn [snd].
    apply completion_inv_settle.
    apply (completion_inv_ext b w); [reflexivity .. | exact Hinv].
  - rewrite (typeText_idle _ _ _ Hty). cbn [snd].
    apply completion_inv_typeCharacters.
    apply (completion_inv_engine b w);
      [intros _; eexists; reflexivity | left; reflexivity | reflexivity | auto | exact Hinv].
Qed.

Lemma completion_inv_pause b w : completion_inv b w -> completion_inv b (pause w).
Proof.
  intros Hinv. destruct (isTyping (eng w)) eqn:Hty.
  - rewrite (pause_eq w Hty).
    apply (completion_inv_sub b w); [reflexivity .. | | exact Hinv].
    cbn. intros id t Hin. left. eapply cancel_sub, Hin.
  - unfold pause. rewrite Hty. exact Hinv.
Qed.

Lemma completion_inv_stop b w : completion_inv b w -> completion_inv b (stop w).
Proof.
  intros Hinv. rewrite stop_eq.
  apply (completion_inv_engine b w);
    [discriminate | left; reflexivity | reflexivity | | exact Hinv].
  cbn. intros id t Hin. left. eapply cancel_sub, Hin.
Qed.

Lemma completion_inv_resume b w : completion_inv b w -> completion_inv b (resume w).
Proof.
  intros Hinv.
  destruct (resume_cases w) as [-> | (Hty & Hpa & Hr)]; [exact Hinv|].
  assert (H1 : completion_inv b (upd_eng (set_isPaused false) w))
    by (apply (completion_inv_ext b w); [reflexivity .. | exact Hinv]).
  destruct Hr as [-> | (text & i & Hi & ->)]; [exact H1|].
  apply completion_inv_typeCharacters, H1.
Qed.

Lemma completion_inv_clearRotationTimers b w :
  completion_inv b w -> completion_inv b (clearRotationTimers w).
Proof.
  intros Hinv. rewrite clearRotationTimers_eq.
  split; [exact (proj1 Hinv)|].
  intros Hb. destruct (proj2 Hinv Hb) as (Hs & Ht & Hr).
  split; [exact Hs|]. split; [reflexivity|].
  intros id t Hin. apply (Hr id t). cbn in Hin. eapply cancel_sub, cancel_sub, Hin.
Qed.

Lemma updateUI_state w :
  container_state (dom (updateUI w)) = container_state (dom w).
Proof.
  unfold updateUI, updateProgress, updateSoundToggleUI. cbv zeta.
  destruct (sound _); reflexivity.
Qed.

Lemma completion_inv_typeCurrentSnippet b w :
  completion_inv b w -> completion_inv b (typeCurrentSnippet w).
Proof.
  intros Hinv. unfold typeCurrentSnippet.
  destruct (snippet_at (snippets (ctl w)) (currentSnippetIndex (ctl w))) as [s|];
    [|exact Hinv].
  cbv zeta.
  set (w1 := upd_dom (set_out_text []) _).
  assert (H1 : completion_inv b w1).
  { destruct (updateUI_ui (updateTerminalTitle (Some (sn_title s))
                (setState Typing (upd_ctl (set_c_isTyping true) w))))
      as (He & Hc & Hv & _).
    apply (completion_inv_engine b w).
    - subst w1. cbn. rewrite He. apply Hinv.
    - right. subst w1. cbn. rewrite updateUI_state. discriminate.
    - subst w1. cbn. rewrite Hc. reflexivity.
    - subst w1. cbn. rewrite Hv. auto.
    - exact Hinv. }
  clearbody w1.
  pose proof (completion_inv_typeText b (sn_code s) (sn_language s) w1 H1) as H2.
  destruct (typeText _ _ w1) as [p w2]. apply completion_inv_await, H2.
Qed.

Lemma completion_inv_nextSnippet b w :
  completion_inv b w -> completion_inv b (nextSnippet w).
Proof.
  intros Hinv. unfold nextSnippet. cbv zeta. apply completion_inv_typeCurrentSnippet.
  apply (completion_inv_ext b (clearRotationTimers w)); [reflexivity .. |].
  apply completion_inv_clearRotationTimers, Hinv.
Qed.

Lemma completion_inv_startDemo b w :
  completion_inv b w -> completion_inv b (snd (startDemo w)).
Proof.
  intros Hinv. unfold startDemo. case_if; cbn [snd].
  - apply (completion_inv_ext b w); [reflexivity .. | exact Hinv].
  - apply completion_inv_typeCurrentSnippet.
    destruct (sound (env w)); [|exact Hinv].
    apply (completion_inv_ext b w); [reflexivity .. | exact Hinv].
Qed.

Lemma completion_inv_ui b st w w' :
  st <> Completed -> ui_only w w' ->
  completion_inv b w -> completion_inv b (updateUI (setState st w')).
Proof.
  intros Hst (He & Hc & Hv & _) Hinv.
  destruct (updateUI_ui (setState st w')) as (He' & Hc' & Hv' & _).
  apply (completion_inv_engine b w).
  - rewrite He'. cbn. rewrite He. apply Hinv.
  - right. rewrite updateUI_state. exact Hst.
  - rewrite Hc'. cbn. rewrite Hc. reflexivity.
  - rewrite Hv'. cbn. rewrite Hv. auto.
  - exact Hinv.
Qed.

Lemma completion_inv_pauseDemo b w :
  completion_inv b w -> completion_inv b (pauseDemo w).
Proof.
  intros Hinv. unfold pauseDemo. cbv zeta.
  apply (completion_inv_ui b Paused (clearRotationTimers (pause (upd_ctl (set_c_isPaused true) w))));
    [discriminate | apply ui_only_refl |].
  apply completion_inv_clearRotationTimers, completion_inv_pause.
  apply (completion_inv_ext b w); [reflexivity .. | exact Hinv].
Qed.

Lemma completion_inv_resumeDemo b w :
  completion_inv b w -> completion_inv b (resumeDemo w).
Proof.
  intros Hinv. unfold resumeDemo. cbv zeta.
  apply (completion_inv_ui b Typing (resume (upd_ctl (set_c_isPaused false) w)));
    [discriminate | apply ui_only_refl |].
  apply completion_inv_resume.
  apply (completion_inv_ext b w); [reflexivity .. | exact Hinv].
Qed.

Lemma completion_inv_run_closure b k w :
  completion_inv b w -> completion_inv b (run_closure k w).
Proof.
  intros Hinv. destruct k; cbn [run_closure].
  - apply completion_inv_typeCharacters, Hinv.
  - unfold _playBackspaceSound, _highlightSyntax, setTimeout, emit. cbv zeta.
    case_if; (apply (completion_inv_sub b w); [reflexivity .. | | exact Hinv]);
      cbn; intros id t;
      (destruct (decide (id = next_timer (env w))) as [->|Hne];
       [rewrite lookup_insert_eq; intros [= <-]; right; discriminate
       |rewrite lookup_insert_ne by congruence; auto]).
  - unfold _playKeypressSound, _highlightSyntax, setTimeout, emit. cbv zeta.
    case_if; (apply (completion_inv_sub b w); [reflexivity .. | | exact Hinv]);
      cbn; intros id t;
      (destruct (decide (id = next_timer (env w))) as [->|Hne];
       [rewrite lookup_insert_eq; intros [= <-]; right; discriminate
       |rewrite lookup_insert_ne by congruence; auto]).
  - apply completion_inv_typeCharacters, Hinv.
  - apply completion_inv_nextSnippet, Hinv.
  - apply (completion_inv_ext b w); [reflexivity .. | exact Hinv].
  - apply completion_inv_startDemo, Hinv.
Qed.

Lemma completion_inv_handle b e w :
  completion_inv b w -> completion_inv (b && negb (direct_completion e)) (handle e w).
Proof.
  intros Hinv.
  destruct e; cbn [handle direct_completion negb]; rewrite ?andb_true_r.
  - unfold fire. destruct (timers (env w) !! id) as [t|]; [|exact Hinv].
    apply completion_inv_run_closure.
    apply (completion_inv_sub b w); [reflexivity .. | | exact Hinv].
    cbn. intros i x Hin. left. apply (cancel_sub (Some id)) in Hin. exact Hin.
  - apply completion_inv_typeText, Hinv.
  - unfold typeWithCursor. apply completion_inv_typeText.
    apply (completion_inv_ext b w); [reflexivity .. | exact Hinv].
  - apply completion_inv_pause, Hinv.
  - apply completion_inv_resume, Hinv.
  - apply completion_inv_stop, Hinv.
  - unfold clear. cbv zeta. apply (completion_inv_ext b (stop w)); [reflexivity .. |].
    apply completion_inv_stop, Hinv.
  - apply (completion_inv_ext b w); [reflexivity .. | exact Hinv].
  - apply completion_inv_startDemo, Hinv.
  - apply completion_inv_nextSnippet, Hinv.
  - unfold previousSnippet. cbv zeta. apply completion_inv_typeCurrentSnippet.
    apply (completion_inv_ext b (clearRotationTimers w)); [reflexivity .. |].
    apply completion_inv_clearRotationTimers, Hinv.
  - unfold restartCurrentSnippet. cbv zeta. apply completion_inv_typeCurrentSnippet.
    apply completion_inv_clearRotationTimers, Hinv.
  - unfold handleUserInteraction. cbv zeta.
    set (w1 := nextSnippet _).
    assert (H1 : completion_inv b w1).
    { subst w1. apply completion_inv_nextSnippet, completion_inv_clearRotationTimers.
      apply (completion_inv_ext b w); [reflexivity .. | exact Hinv]. }
    clearbody w1. apply (completion_inv_sub b w1); [reflexivity .. | | exact H1].
    cbn. intros id t.
    destruct (decide (id = next_timer (env w1))) as [->|Hne];
      [rewrite lookup_insert_eq; intros [= <-]; right; discriminate
      |rewrite lookup_insert_ne by congruence; auto].
  - unfold togglePause.
    case_if; [apply completion_inv_resumeDemo | apply completion_inv_pauseDemo]; exact Hinv.
  - apply completion_inv_pauseDemo, Hinv.
  - apply completion_inv_resumeDemo, Hinv.
  - unfold toggleSound. destruct (sound (env w)); [|exact Hinv].
    unfold updateSoundToggleUI. cbn.
    apply (completion_inv_ext b w); [reflexivity .. | exact Hinv].
  - unfold setSnippet. case_if; [|exact Hinv]. cbv zeta.
    apply completion_inv_typeCurrentSnippet.
    apply (completion_inv_ext b (clearRotationTimers w)); [reflexivity .. |].
    apply completion_inv_clearRotationTimers, Hinv.
  - unfold setTypingSpeed. cbv zeta.
    apply (completion_inv_ext b w); [reflexivity .. | exact Hinv].
  - unfold setAutoRotate. cbv zeta. case_if.
    + apply completion_inv_clearRotationTimers.
      apply (completion_inv_ext b w); [reflexivity .. | exact Hinv].
    + apply (completion_inv_ext b w); [reflexivity .. | exact Hinv].
  - rewrite andb_false_r. destruct (onTypingComplete_frame w) as (He & _).
    split; [rewrite He; apply Hinv | discriminate].
Qed.

Lemma completion_inv_init opts snips soundManager random :
  completion_inv true (init opts snips soundManager random).
Proof.
  unfold init. cbv zeta.
  set (w0 := updateUI _).
  assert (H0 : completion_inv true w0).
  { subst w0. split.
    - match goal with |- context [updateUI ?x] =>
        destruct (updateUI_ui x) as (-> & _) end. discriminate.
    - intros _. rewrite updateUI_state.
      match goal with |- context [updateUI ?x] =>
        destruct (updateUI_ui x) as (_ & Hc & Hv & _) end.
      split; [discriminate|]. split; [rewrite Hc; reflexivity|].
      intros id t. rewrite Hv. cbn. rewrite lookup_empty. discriminate. }
  clearbody w0. case_if; [|exact H0].
  apply (completion_inv_sub true w0); [reflexivity .. | | exact H0].
  cbn. intros id t.
  destruct (decide (id = next_timer (env w0))) as [->|Hne];
    [rewrite lookup_insert_eq; intros [= <-]; right; discriminate
    |rewrite lookup_insert_ne by congruence; auto].
Qed.

Lemma completion_inv_run es : forall b w,
  completion_inv b w ->
  completion_inv (b && forallb (fun e => negb (direct_completion e)) es) (run es w).
Proof.
  induction es as [|e es IH]; intros b w Hinv.
  - cbn. rewrite andb_true_r. exact Hinv.
  - cbn [run fold_left forallb]. rewrite andb_assoc.
    apply (IH _ (step e w)). apply completion_inv_drain, completion_inv_handle, Hinv.
Qed.

(** X14. Whenever the engine is typing, in any reachable state, its
    [onComplete] holds the [resolve] of a promise of [typeText]: the
    callback that [setupTypingCallbacks] registered is overwritten as
    soon as the first session starts, so the end of a session settles a
    promise and never calls the controller's [onTypingComplete]. *)
Theorem engine_completes_by_promise (w : World) :
  reachable w -> isTyping (eng w) = true ->
  exists p, onComplete (eng w) = Some (Resolve p).
Proof.
  intros Hreach.
  assert (Hinv : completion_inv false w).
  { induction Hreach as [opts snips sm rnd | e w Hreach IH].
    - apply (completion_inv_weaken true), completion_inv_init.
    - apply completion_inv_drain.
      apply (completion_inv_handle false e w IH). }
  apply Hinv.
Qed.

Lemma engine_completes_by_promise_witness :
  exists p, onComplete (eng two_page_typing) = Some (Resolve p).
Proof.
  apply (engine_completes_by_promise two_page_typing);
    [apply (reach_step (Fire 1) two_page); apply reach_init | reflexivity].
Defined.

(** X15. From the constructor on, as long as nothing outside calls
    [onTypingComplete] itself, the page never shows the completed phase,
    [typingCompleteTimer] stays null and no hold timer is ever pending,
    whatever timers fire and whatever methods are called: the automatic
    rotation to the next snippet never starts. *)
Theorem rotation_never_starts opts snips soundManager random (es : list event) :
  forallb (fun e => negb (direct_completion e)) es = true ->
  let w := run es (init opts snips soundManager random) in
  container_state (dom w) <> Completed
  /\ typingCompleteTimer (ctl w) = None
  /\ no_rotation w.
Proof.
  intros Hes.
  pose proof (completion_inv_run es true _
                (completion_inv_init opts snips soundManager random)) as Hinv.
  rewrite Hes in Hinv. apply Hinv. reflexivity.
Qed.

Lemma rotation_never_starts_witness :
  container_state (dom (run [Fire 1; Fire 2; Fire 3] two_page)) <> Completed
  /\ typingCompleteTimer (ctl (run [Fire 1; Fire 2; Fire 3] two_page)) = None
  /\ no_rotation (run [Fire 1; Fire 2; Fire 3] two_page).
Proof.
  apply (rotation_never_starts demo_options [snippet_of "ab"; snippet_of "cd"]
           (Some true) (fun _ => draw_half) [Fire 1; Fire 2; Fire 3]).
  reflexivity.
Defined.

(** ** Clicks and the hold *)

Lemma typeCurrentSnippet_ctl (w : World) :
  ctl (typeCurrentSnippet w) = ctl w
  \/ ctl (typeCurrentSnippet w) = set_c_isTyping true (ctl w).
Proof.
  unfold typeCurrentSnippet. destruct (snippet_at _ _) as [s|]; [|left; reflexivity].
  right.
  set (w1 := upd_dom (set_out_text []) _).
  assert (H1 : ctl w1 = set_c_isTyping true (ctl w)).
  { subst w1.
    destruct (updateUI_ui (updateTerminalTitle (Some (sn_title s))
                (setState Typing (upd_ctl (set_c_isTyping true) w))))
      as (_ & Hc & _).
    cbn. rewrite Hc. reflexivity. }
  clearbody w1.
  pose proof (typeText_ctl (sn_code s) (sn_language s) w1) as H2.
  destruct (typeText (sn_code s) (sn_language s) w1) as [p w2]. cbn [snd] in H2.
  unfold await. destruct (promises (env w2) !! p) as [[| |e]|]; cbn; congruence.
Qed.

Lemma setState_updateUI_ui st w : ui_only w (updateUI (setState st w)).
Proof. eapply ui_only_trans; [apply (setState_ui st) | apply updateUI_ui]. Qed.

Lemma nextSnippet_flags (w : World) :
  isUserInteracting (ctl (nextSnippet w)) = isUserInteracting (ctl w)
  /\ c_isPaused (ctl (nextSnippet w)) = c_isPaused (ctl w)
  /\ c_options (ctl (nextSnippet w)) = c_options (ctl w).
Proof.
  unfold nextSnippet. cbv zeta.
  match goal with |- context [typeCurrentSnippet ?x] =>
    destruct (typeCurrentSnippet_ctl x) as [-> | ->] end;
    rewrite clearRotationTimers_eq; repeat split.
Qed.

(** X16. A click on the terminal raises [isUserInteracting] and leaves
    a five-second cooldown timer pending; when that timer fires the
    flag is lowered again.  While the flag is up, a call of
    [onTypingComplete] schedules no hold. *)
Theorem click_raises_cooldown (w : World) :
  reachable w ->
  let w' := step CallHandleUserInteraction w in
  isUserInteracting (ctl w') = true
  /\ no_rotation (step CallOnTypingComplete w')
  /\ exists id,
       timers (env w') !! id = Some {| t_fn := Cooldown; t_delay := 5000 |}
       /\ isUserInteracting (ctl (step (Fire id) w')) = false.
Proof.
  intros Hreach. cbv zeta.
  pose proof (reach_step CallHandleUserInteraction w Hreach) as Hreach'.
  pose proof (reachable_wf _ Hreach') as Hwf'.
  unfold step in *. cbn [handle] in *.
  destruct (drain_frame_ctl (handleUserInteraction w)) as (_ & _ & _ & _ & _ & Hui & _).
  destruct (drain_frame (handleUserInteraction w)) as (_ & _ & Htm & _).
  set (w' := drain (handleUserInteraction w)) in *.
  assert (Hflag : isUserInteracting (ctl (handleUserInteraction w)) = true).
  { unfold handleUserInteraction. cbv zeta. cbn.
    destruct (nextSnippet_flags
                (clearRotationTimers (upd_ctl (set_isUserInteracting true) w)))
      as (-> & _).
    rewrite clearRotationTimers_eq. reflexivity. }
  rewrite Hflag in Hui.
  split; [exact Hui|]. split.
  - destruct (drain_frame (onTypingComplete w')) as (_ & _ & Htm2 & _).
    apply (no_rotation_ext (onTypingComplete w')); [exact Htm2|].
    unfold onTypingComplete, scheduleNextRotation. cbv zeta.
    set (w1 := updateUI (setState Completed w')).
    assert (H1 : wf w1 /\ isUserInteracting (ctl w1) = true).
    { pose proof (setState_updateUI_ui Completed w') as Hu.
      split; [apply (wf_ui w' _ Hu Hwf')|].
      destruct Hu as (_ & Hc & _). subst w1. rewrite Hc. exact Hui. }
    destruct H1 as (Hwf1 & Hui1). clearbody w1.
    destruct (clearRotationTimers_ctl w1) as (_ & _ & _ & _ & Hui2 & _).
    rewrite Hui2, Hui1, andb_false_r. cbn [negb andb].
    apply wf_clearRotationTimers, Hwf1.
  - unfold handleUserInteraction in Htm. cbv zeta in Htm.
    set (w1 := nextSnippet _) in Htm.
    exists (next_timer (env w1)).
    assert (Hin : timers (env w') !! next_timer (env w1)
                  = Some {| t_fn := Cooldown; t_delay := 5000 |}).
    { rewrite Htm. cbn. apply lookup_insert_eq. }
    split; [exact Hin|].
    destruct (drain_frame_ctl (fire (next_timer (env w1)) w'))
      as (_ & _ & _ & _ & _ & -> & _).
    unfold fire. rewrite Hin. reflexivity.
Qed.

(** X17. [onTypingComplete]: the page shows the completed phase, with
    the text and the engine as they were.  When [autoRotate] is set and
    the controller is neither paused nor under a click's cooldown, a
    hold timer of [waitAfterComplete] milliseconds is pending
    afterwards under a fresh handle, which [typingCompleteTimer]
    records, and it is the only one, a hold that was pending before
    having been cancelled; otherwise none is. *)
Theorem onTypingComplete_schedules_one_hold (w : World) :
  reachable w ->
  let w' := step CallOnTypingComplete w in
  container_state (dom w') = Completed
  /\ eng w' = eng w /\ out_text (dom w') = out_text (dom w)
  /\ if autoRotate (c_options (ctl w)) && negb (isUserInteracting (ctl w))
        && negb (c_isPaused (ctl w))
     then typingCompleteTimer (ctl w') = Some (next_timer (env w))
          /\ timers (env w') !! next_timer (env w)
             = Some {| t_fn := Rotate;
                       t_delay := waitAfterComplete (c_options (ctl w)) |}
          /\ forall id t, timers (env w') !! id = Some t -> t_fn t = Rotate ->
               id = next_timer (env w)
               /\ t_delay t = waitAfterComplete (c_options (ctl w))
     else typingCompleteTimer (ctl w') = None /\ no_rotation w'.
Proof.
  intros Hreach. cbv zeta.
  pose proof (reachable_wf _ Hreach) as Hwf.
  unfold step. cbn [handle].
  assert (Hq : microtasks (env (onTypingComplete w)) = []).
  { pose proof (reachable_quiet w Hreach) as Hq.
    unfold onTypingComplete, scheduleNextRotation. cbv zeta.
    destruct (setState_updateUI_ui Completed w) as (_ & _ & Hv & _).
    rewrite clearRotationTimers_eq.
    case_if; cbn; rewrite Hv; exact Hq. }
  rewrite (drain_quiet _ Hq). clear Hq.
  destruct (onTypingComplete_frame w) as (He1 & Ho1 & _).
  split; [|split; [exact He1|split; [exact Ho1|]]]; clear He1 Ho1;
    unfold onTypingComplete, scheduleNextRotation; cbv zeta;
    set (w1 := updateUI (setState Completed w));
    (assert (H1 : ctl w1 = ctl w /\ env w1 = env w /\ container_state (dom w1) = Completed
                 /\ wf w1);
     [ pose proof (setState_updateUI_ui Completed w) as Hu;
       split; [apply Hu|]; split; [apply Hu|];
       split; [subst w1; rewrite updateUI_state; reflexivity|];
       apply (wf_ui w _ Hu Hwf) |]);
    destruct H1 as (Hc1 & Hv1 & Hst1 & Hwf1); clearbody w1;
    destruct (clearRotationTimers_ctl w1) as (_ & _ & Hop & Hpa & Hui & _);
    destruct (clearRotationTimers_frame w1) as (_ & Hd & Hnt & _);
    destruct (wf_clearRotationTimers w1 Hwf1) as (_ & Hnr);
    rewrite Hop, Hpa, Hui, Hc1;
    destruct (autoRotate (c_options (ctl w)) && negb (isUserInteracting (ctl w))
              && negb (c_isPaused (ctl w))).
  - cbn. rewrite Hd. exact Hst1.
  - rewrite Hd. exact Hst1.
  - cbn. rewrite Hnt, Hv1. split; [reflexivity|].
    split; [apply lookup_insert_eq|].
    intros id t. destruct (decide (id = next_timer (env w))) as [->|Hne].
    + rewrite lookup_insert_eq. intros [= <-] _. split; reflexivity.
    + rewrite lookup_insert_ne by congruence. intros Hin Hk.
      destruct (Hnr id t Hin Hk).
  - split; [rewrite clearRotationTimers_eq; reflexivity | exact Hnr].
Qed.

Lemma onTypingComplete_schedules_one_hold_witness :
  let w := run [Fire 1; Fire 2; Fire 3] two_page in
  container_state (dom (step CallOnTypingComplete w)) = Completed
  /\ typingCompleteTimer (ctl (step CallOnTypingComplete w)) = Some (next_timer (env w))
  /\ timers (env (step CallOnTypingComplete w)) !! next_timer (env w)
     = Some {| t_fn := Rotate; t_delay := waitAfterComplete (c_options (ctl w)) |}.
Proof.
  intros w.
  assert (Hc : autoRotate (c_options (ctl w)) && negb (isUserInteracting (ctl w))
               && negb (c_isPaused (ctl w)) = true) by (vm_compute; reflexivity).
  destruct (onTypingComplete_schedules_one_hold w) as (H & _ & _ & Hif);
    [ unfold w, run; cbn [fold_left]; do 3 apply reach_step; apply reach_init |].
  rewrite Hc in Hif. destruct Hif as (H1 & H2 & _).
  split; [exact H | split; [exact H1 | exact H2]].
Defined.

Lemma click_raises_cooldown_witness :
  isUserInteracting (ctl (step CallHandleUserInteraction two_page_completed)) = true.
Proof.
  destruct (click_raises_cooldown two_page_completed) as (H & _);
    [exact two_page_completed_reachable | exact H].
Defined.

(** ** The start of the demo *)

Lemma init_fields opts snips soundManager random :
  let w := init opts snips soundManager random in
  isTyping (eng w) = false
  /\ microtasks (env w) = []
  /\ snippets (ctl w) = snips
  /\ currentSnippetIndex (ctl w) = Num 0
  /\ next_promise (env w) = 0
  /\ timers (env w)
     = if autoStart opts && (0 <? length snips)
       then <[1%positive := {| t_fn := AutoStart; t_delay := 1000 |}]> ∅
       else ∅.
Proof.
  cbv zeta. unfold init. cbv zeta.
  match goal with |- context [updateUI ?x] =>
    destruct (updateUI_ui x) as (He & Hc & Hv & _); set (w0 := updateUI x) in * end.
  clearbody w0.
  destruct (autoStart opts && (0 <? length snips)); cbn; rewrite ?He, ?Hc, ?Hv;
    repeat split.
Qed.

(** X18. The constructor with [autoStart] and a first snippet whose
    code is not empty leaves one timer of a second pending; when it
    fires, the session of the first snippet begins and runs to
    completion.  Without [autoStart] no timer is pending at all, so
    that nothing happens until a method is called. *)
Theorem autostart_types_first_snippet opts (s : Snippet) (rest : list Snippet)
    soundManager random :
  sn_code s <> [] ->
  let w := init opts (s :: rest) soundManager random in
  if autoStart opts then
    timers (env w) = <[1%positive := {| t_fn := AutoStart; t_delay := 1000 |}]> ∅
    /\ starts_typing s 0 (step (Fire 1) w)
    /\ currentSnippetIndex (ctl (step (Fire 1) w)) = Num 0
  else timers (env w) = ∅.
Proof.
  intros Hne. cbv zeta.
  destruct (init_fields opts (s :: rest) soundManager random)
    as (Hidle & Hq & Hsn & Hix & Hnp & Htm).
  set (w := init opts (s :: rest) soundManager random) in *. clearbody w.
  destruct (autoStart opts); cbn [andb length Nat.ltb Nat.leb] in Htm; [|exact Htm].
  split; [exact Htm|].
  unfold step. cbn [handle]. unfold fire. rewrite Htm, lookup_insert_eq.
  cbn [t_fn run_closure]. unfold startDemo.
  change (snippets (ctl (clearTimeout 1 w))) with (snippets (ctl w)).
  rewrite Hsn. cbn [length Nat.eqb snd].
  set (w0 := match sound (env (clearTimeout 1 w)) with
             | Some _ => emit (Cue Startup) (clearTimeout 1 w)
             | None => clearTimeout 1 w
             end).
  assert (H0 : isTyping (eng w0) = false /\ microtasks (env w0) = []
               /\ snippet_at (snippets (ctl w0)) (currentSnippetIndex (ctl w0)) = Some s
               /\ next_promise (env w0) = 0
               /\ currentSnippetIndex (ctl w0) = Num 0).
  { subst w0. destruct (sound _); cbn; rewrite Hidle, Hq, Hsn, Hix, Hnp; repeat split. }
  destruct H0 as (Hidle0 & Hq0 & Hs0 & Hnp0 & Hix0). clearbody w0.
  destruct (typeCurrentSnippet_idle w0 s Hidle0 Hq0 Hs0 Hne)
    as (Hst & Hc & Hti & Hcl & _ & k & Hin & Hr).
  rewrite Hnp0 in Hin.
  split; [|rewrite Hc; exact Hix0].
  split; [exact Hst|]. split; [exact Hti|]. split; [exact Hcl|].
  split; [exists k; exact Hin|].
  apply (session_completes _ _ _ k _ Hin Hr).
Qed.

Lemma autostart_types_first_snippet_witness :
  starts_typing (snippet_of "ab") 0 two_page_typing.
Proof.
  destruct (autostart_types_first_snippet demo_options (snippet_of "ab") [snippet_of "cd"]
              (Some true) (fun _ => draw_half)) as (_ & H & _);
    [discriminate | exact H].
Defined.

(** ** The page once a snippet is typed out *)

Lemma settle_awaited (p : nat) (w : World) :
  promises (env w) !! p = Some Pending ->
  p ∈ awaiting (env w) -> microtasks (env w) = [] ->
  let w' := drain (settle p Fulfilled w) in
  ctl w' = set_c_isTyping false (ctl w)
  /\ dom w' = dom w
  /\ eng w' = eng w
  /\ timers (env w') = timers (env w).
Proof.
  intros Hp Hin Hq. cbv zeta. unfold settle. rewrite Hp.
  cbv zeta. cbn [env upd_env awaiting set_promises].
  rewrite (bool_decide_eq_true_2 _ Hin).
  unfold drain. cbn [env upd_env microtasks set_microtasks set_awaiting set_promises].
  rewrite Hq. cbn [app fold_left].
  unfold typeCurrentSnippet_resume. cbn. repeat split.
Qed.

(** What a timer of the session changes on the page and in the
    controller. *)
Lemma session_step_page text p k w id :
  in_session text p k w -> currentTimeout (eng w) = Some id ->
  microtasks (env w) = [] -> p ∈ awaiting (env w) ->
  let w' := step (Fire id) w in
  dom w' = set_out_text (out_text (dom w')) (dom w)
  /\ (forall i t, timers (env w') !! i = Some t -> t_fn t = Rotate ->
        timers (env w) !! i = Some t)
  /\ ((ctl w' = ctl w /\ microtasks (env w') = [] /\ p ∈ awaiting (env w')
       /\ promises (env w') !! p = Some Pending)
      \/ (ctl w' = set_c_isTyping false (ctl w)
          /\ promises (env w') !! p = Some Fulfilled)).
Proof.
  intros (Hty & Hpa & Hco & Hpr & Hlt & id' & d & Hid & Htm & Hpt) Hcur Hq Haw.
  assert (id' = id) as -> by congruence.
  cbv zeta. unfold step, handle, fire. rewrite Htm. cbn [t_fn].
  assert (Hnext : forall i,
    let w0 := clearTimeout id w in
    let w' := drain (_typeCharacters text i w0) in
    dom w' = set_out_text (out_text (dom w')) (dom w)
    /\ (forall j t, timers (env w') !! j = Some t -> t_fn t = Rotate ->
          timers (env w) !! j = Some t)
    /\ ((ctl w' = ctl w /\ microtasks (env w') = [] /\ p ∈ awaiting (env w')
       /\ promises (env w') !! p = Some Pending)
        \/ (ctl w' = set_c_isTyping false (ctl w)
            /\ promises (env w') !! p = Some Fulfilled))).
  { intros i. cbv zeta. set (w0 := clearTimeout id w).
    assert (H0 : isTyping (eng w0) = true /\ isPaused (eng w0) = false
                 /\ onComplete (eng w0) = Some (Resolve p)
                 /\ promises (env w0) !! p = Some Pending
                 /\ microtasks (env w0) = [] /\ p ∈ awaiting (env w0)
                 /\ dom w0 = dom w /\ ctl w0 = ctl w
                 /\ (forall j t, timers (env w0) !! j = Some t ->
                       timers (env w) !! j = Some t)).
    { subst w0. cbn. repeat split; try assumption.
      intros j t Hj. apply (cancel_sub (Some id)) in Hj. exact Hj. }
    destruct H0 as (Hty0 & Hpa0 & Hco0 & Hpr0 & Hq0 & Haw0 & Hd0 & Hc0 & Hsub0).
    clearbody w0.
    destruct (decide (i < length text)) as [Hi | Hi].
    - destruct (typeCharacters_cases text i w0 Hty0 Hpa0 Hi)
        as (tr & n & d' & k' & o & -> & Hk).
      rewrite drain_quiet by exact Hq0. cbn. rewrite Hd0, Hc0.
      split; [destruct (dom w); reflexivity|]. split.
      + intros j t. destruct (decide (j = next_timer (env w0))) as [->|Hne].
        * rewrite lookup_insert_eq. intros [= <-] Hrot. cbn in Hrot.
          destruct Hk as [[-> _] | (x & s & -> & _)]; discriminate.
        * rewrite lookup_insert_ne by congruence. intros Hj _. apply Hsub0, Hj.
      + left. repeat split; assumption.
    - unfold _typeCharacters. rewrite Hty0, Hpa0.
      replace (length text <=? i) with true by (symmetry; apply Nat.leb_le; lia).
      cbn [negb orb]. rewrite completeTyping_eq, Hco0. cbv zeta. cbn [call_complete].
      set (w1 := if audio_on w0 then _ else _).
      assert (H1 : promises (env w1) !! p = Some Pending
                   /\ microtasks (env w1) = [] /\ p ∈ awaiting (env w1)
                   /\ dom w1 = dom w /\ ctl w1 = ctl w
                   /\ timers (env w1) = timers (env w0)).
      { subst w1. case_if; cbn; repeat split; assumption. }
      destruct H1 as (Hpr1 & Hq1 & Haw1 & Hd1 & Hc1 & Ht1). clearbody w1.
      destruct (settle_awaited p w1 Hpr1 Haw1 Hq1) as (Hc & Hd & _ & Ht).
      rewrite Hd, Hc, Ht, Hd1, Hc1, Ht1.
      split; [destruct (dom w); reflexivity|]. split.
      + intros j t Hj _. apply Hsub0, Hj.
      + right. split; [reflexivity|].
        destruct (drain_frame (settle p Fulfilled w1)) as (_ & _ & _ & -> & _).
        apply settle_pending, Hpr1. }
  destruct k as [t i | t i c s | t i c s | t i | | | ]; cbn in Hpt; try contradiction.
  - destruct Hpt as (-> & _). cbn [run_closure]. apply Hnext.
  - destruct Hpt as (-> & _). cbn [run_closure].
    unfold _playBackspaceSound, _highlightSyntax, setTimeout, emit. cbv zeta.
    rewrite drain_quiet by (case_if; cbn; exact Hq).
    case_if; cbn; (split; [destruct (dom w); reflexivity|]);
      (split; [|left; repeat split; assumption]);
      intros j t; (destruct (decide (j = next_timer (env w))) as [->|Hne];
        [rewrite lookup_insert_eq; intros [= <-]; discriminate
        |rewrite lookup_insert_ne by congruence; intros Hj _;
         apply (cancel_sub (Some id)) in Hj; exact Hj]).
  - destruct Hpt as (-> & _). cbn [run_closure].
    unfold _playKeypressSound, _highlightSyntax, setTimeout, emit. cbv zeta.
    rewrite drain_quiet by (case_if; cbn; exact Hq).
    case_if; cbn; (split; [destruct (dom w); reflexivity|]);
      (split; [|left; repeat split; assumption]);
      intros j t; (destruct (decide (j = next_timer (env w))) as [->|Hne];
        [rewrite lookup_insert_eq; intros [= <-]; discriminate
        |rewrite lookup_insert_ne by congruence; intros Hj _;
         apply (cancel_sub (Some id)) in Hj; exact Hj]).
  - destruct Hpt as (-> & _). cbn [run_closure]. apply Hnext.
Qed.

Lemma session_page_completes text p n : forall k w,
  in_session text p k w -> p ∈ awaiting (env w) -> microtasks (env w) = [] ->
  remaining text k <= n ->
  exists w2, await_run n p w = Some w2
    /\ completed text p w2
    /\ ctl w2 = set_c_isTyping false (ctl w)
    /\ dom w2 = set_out_text text (dom w)
    /\ (forall i t, timers (env w2) !! i = Some t -> t_fn t = Rotate ->
          timers (env w) !! i = Some t).
Proof.
  induction n as [|n IH]; intros k w Hs Haw Hq Hr.
  - destruct k; cbn in Hr; try lia;
      destruct Hs as (_ & _ & _ & _ & _ & ? & ? & _ & _ & []).
  - pose proof Hs as (Hty & Hpa & Hco & Hpr & Hlt & id & d & Hid & Htm & Hpt).
    cbn [await_run]. rewrite Hpr, Hid, Htm.
    destruct (session_step_page text p k w id Hs Hid Hq Haw) as (Hd & Hrot & Hcase).
    destruct (session_step text p k w id Hs Hid) as [(k' & Hs' & Hr') | Hc].
    + destruct Hcase as [(Hc' & Hq' & Haw' & _) | (_ & Hful)];
        [|destruct Hs' as (_ & _ & _ & Hpen & _); congruence].
      destruct (IH k' _ Hs' Haw' Hq') as (w2 & Hrun & Hcomp & Hc2 & Hd2 & Hrot2); [lia|].
      exists w2. split; [exact Hrun|]. split; [exact Hcomp|].
      split; [rewrite Hc2, Hc'; reflexivity|].
      split; [rewrite Hd2, Hd; destruct (dom w); reflexivity|].
      intros i t Hi Hk. apply (Hrot i t); [apply (Hrot2 i t Hi Hk) | exact Hk].
    + exists (step (Fire id) w).
      pose proof Hc as (Hf & Hout & _).
      split; [destruct n; cbn [await_run]; rewrite Hf; reflexivity|].
      split; [exact Hc|].
      destruct Hcase as [(_ & _ & _ & Hpen) | (Hc' & _)].
      * congruence.
      * split; [exact Hc'|]. split; [rewrite Hd, Hout; reflexivity | exact Hrot].
Qed.

(** X19. A session that [typeCurrentSnippet] awaits runs to completion
    as its timers fire, and when its text is typed out the [finally]
    of [typeCurrentSnippet] has lowered the controller's [isTyping];
    nothing else of the controller has changed, and the page is the
    one of the start of the session but for the text: its phase, title
    and status line are not refreshed, and no hold timer is set. *)
Theorem typed_out_page_is_not_refreshed
    (text : jsstring) (p : nat) (k : closure) (w : World) :
  in_session text p k w -> p ∈ awaiting (env w) -> microtasks (env w) = [] ->
  exists w2, await_run (remaining text k) p w = Some w2
    /\ completed text p w2
    /\ ctl w2 = set_c_isTyping false (ctl w)
    /\ dom w2 = set_out_text text (dom w)
    /\ (forall i t, timers (env w2) !! i = Some t -> t_fn t = Rotate ->
          timers (env w) !! i = Some t).
Proof.
  intros Hs Haw Hq.
  apply (session_page_completes text p (remaining text k) k w Hs Haw Hq). lia.
Qed.

Lemma typed_out_page_is_not_refreshed_witness :
  exists w2, await_run 4 0 two_page_typing = Some w2
    /\ completed (js "ab") 0 w2
    /\ ctl w2 = set_c_isTyping false (ctl two_page_typing)
    /\ dom w2 = set_out_text (js "ab") (dom two_page_typing).
Proof.
  destruct (typed_out_page_is_not_refreshed (js "ab") 0 (TypeNext (js "ab") 0)
              two_page_typing) as (w2 & Hrun & Hc & Hctl & Hdom & _).
  - unfold in_session.
    split; [reflexivity|]. split; [reflexivity|]. split; [reflexivity|].
    split; [reflexivity|]. split; [vm_compute; lia|].
    exists 2%positive, (240 # 4). split; [reflexivity|]. split; [reflexivity|].
    cbn. split; [reflexivity|]. split; [lia | reflexivity].
  - apply (list_elem_of_here 0 []).
  - reflexivity.
  - exists w2. split; [exact Hrun|]. split; [exact Hc|]. split; [exact Hctl | exact Hdom].
Defined.

(** On the page with the snippets "ab" and "cd", once "ab" is typed out
    the status line still reads 'Typing... click to skip' and the phase
    is still the typing one. *)
Example typed_out_page_says_typing :
  let w := run [Fire 1; Fire 2; Fire 3] two_page in
  out_text (dom w) = js "ab"
  /\ isTyping (eng w) = false /\ c_isTyping (ctl w) = false
  /\ container_state (dom w) = Typing
  /\ status_text (dom w) = js "Typing... click to skip"
  /\ timers (env w) = ∅.
Proof. vm_compute. repeat split. Qed.

(** ** Pausing the demo *)

Lemma pauseDemo_eq (w : World) :
  pauseDemo w
  = upd_dom (fun d =>
        match sound (env w) with
        | Some b => set_toggle_muted (negb b)
        | None => fun d => d
        end
          (set_status_text (js "Paused - click to continue")
             (set_title_text
                (truthy_or None
                   (truthy_or (sn_title <$> snippet_at (snippets (ctl w))
                                              (currentSnippetIndex (ctl w)))
                              (js "~/projects")))
                (set_container_state Paused d))))
      (upd_ctl (fun c => set_typingCompleteTimer None
                           (set_autoRotateTimer None (set_c_isPaused true c)))
         (upd_eng (fun e => if isTyping e
                            then set_currentTimeout None (set_isPaused true e) else e)
            (upd_env (fun v =>
               set_timers (cancel (typingCompleteTimer (ctl w))
                             (cancel (autoRotateTimer (ctl w))
                                (if isTyping (eng w)
                                 then cancel (currentTimeout (eng w)) (timers v)
                                 else timers v))) v) w))).
Proof.
  unfold pauseDemo. cbv zeta. rewrite clearRotationTimers_eq.
  destruct (pause_frame (upd_ctl (set_c_isPaused true) w)) as (Hc & _).
  rewrite Hc. clear Hc.
  destruct (isTyping (eng w)) eqn:Hty.
  - rewrite (pause_eq (upd_ctl (set_c_isPaused true) w)) by exact Hty.
    unfold updateUI, updateProgress, updateTerminalTitle, updateStatusText,
      updateSoundToggleUI, setState. cbv zeta.
    destruct w as [[op ty pa ct oc opg oe tt] [co ix cty cpa ui art tct sn]
                   [ot ocl st ti stt tg] [tm nt pr np aw mt orc dr sd tr]].
    cbn in Hty. subst ty. destruct sd; reflexivity.
  - unfold pause. cbn [eng upd_ctl]. rewrite Hty.
    unfold updateUI, updateProgress, updateTerminalTitle, updateStatusText,
      updateSoundToggleUI, setState. cbv zeta.
    destruct w as [[op ty pa ct oc opg oe tt] [co ix cty cpa ui art tct sn]
                   [ot ocl st ti stt tg] [tm nt pr np aw mt orc dr sd tr]].
    cbn in Hty. subst ty. destruct sd; reflexivity.
Qed.

Lemma pauseDemo_idempotent (w : World) : pauseDemo (pauseDemo w) = pauseDemo w.
Proof.
  rewrite (pauseDemo_eq (pauseDemo w)). rewrite !(pauseDemo_eq w).
  destruct w as [[op ty pa ct oc opg oe tt] [co ix cty cpa ui art tct sn]
                 [ot ocl st ti stt tg] [tm nt pr np aw mt orc dr sd tr]].
  destruct ty, sd; reflexivity.
Qed.

Lemma pauseDemo_quiet (w : World) :
  microtasks (env (pauseDemo w)) = microtasks (env w).
Proof.
  unfold pauseDemo. cbv zeta.
  destruct (setState_updateUI_ui Paused
              (clearRotationTimers (pause (upd_ctl (set_c_isPaused true) w))))
    as (_ & _ & -> & _).
  rewrite clearRotationTimers_eq. cbn.
  destruct (isTyping (eng w)) eqn:Hty.
  - rewrite pause_eq by exact Hty. reflexivity.
  - unfold pause. cbn. rewrite Hty. reflexivity.
Qed.

(** X20. [pauseDemo], in any reachable state: the controller is paused,
    the page shows the paused phase and status line with the text as
    it was, and neither a callback of the engine nor a hold is pending
    any more; calling it again, as the blur and visibility listeners
    both do, changes nothing. *)
Theorem pauseDemo_silences_the_page (w : World) :
  reachable w ->
  let w' := step CallPauseDemo w in
  c_isPaused (ctl w') = true
  /\ container_state (dom w') = Paused
  /\ status_text (dom w') = js "Paused - click to continue"
  /\ out_text (dom w') = out_text (dom w)
  /\ engine_idle w' /\ no_rotation w' /\ typingCompleteTimer (ctl w') = None
  /\ step CallPauseDemo w' = w'.
Proof.
  intros Hreach. cbv zeta.
  pose proof (reachable_wf _ Hreach) as Hwf.
  pose proof (reachable_quiet _ Hreach) as Hq.
  unfold step. cbn [handle].
  assert (Hd : drain (pauseDemo w) = pauseDemo w).
  { apply drain_quiet. rewrite pauseDemo_quiet. exact Hq. }
  rewrite Hd.
  assert (Hd2 : drain (pauseDemo (pauseDemo w)) = pauseDemo w).
  { rewrite pauseDemo_idempotent. exact Hd. }
  pose proof (wf_pauseDemo w Hwf) as Hwf'.
  unfold pauseDemo in Hwf' |- * at 1 2 3 4 5 6 7. cbv zeta in *.
  set (w1 := clearRotationTimers (pause (upd_ctl (set_c_isPaused true) w))) in *.
  assert (H1 : c_isPaused (ctl w1) = true /\ out_text (dom w1) = out_text (dom w)
               /\ typingCompleteTimer (ctl w1) = None
               /\ no_rotation w1
               /\ (isTyping (eng w1) = false \/ isPaused (eng w1) = true)).
  { subst w1. destruct (pause_frame (upd_ctl (set_c_isPaused true) w)) as (Hc & Hdm & _).
    split; [rewrite clearRotationTimers_eq; cbn; rewrite Hc; reflexivity|].
    split; [rewrite clearRotationTimers_eq; cbn; rewrite Hdm; reflexivity|].
    split; [rewrite clearRotationTimers_eq; reflexivity|].
    split.
    - apply wf_clearRotationTimers, wf_pause.
      apply (wf_ext w); [reflexivity .. | exact Hwf].
    - rewrite clearRotationTimers_eq. cbn.
      destruct (isTyping (eng w)) eqn:Hty.
      + right. rewrite pause_eq by exact Hty. reflexivity.
      + left. unfold pause. cbn. rewrite Hty. exact Hty. }
  destruct H1 as (Hpa1 & Ho1 & Htc1 & Hnr1 & Hfl1). clearbody w1.
  destruct (setState_updateUI_ui Paused w1) as (He & Hc & Hv & Ho).
  split; [rewrite Hc; exact Hpa1|].
  split; [rewrite updateUI_state; reflexivity|].
  split.
  { unfold updateUI, updateProgress, updateSoundToggleUI. cbv zeta.
    destruct (sound _); cbn; rewrite Hpa1; reflexivity. }
  split; [rewrite Ho; exact Ho1|].
  split; [apply engine_idle_of_flags; [exact Hwf' | rewrite He; exact Hfl1]|].
  split; [apply (no_rotation_ext w1); [rewrite Hv; reflexivity | exact Hnr1]|].
  split; [rewrite Hc; exact Htc1|].
  exact Hd2.
Qed.

Lemma pauseDemo_silences_the_page_witness :
  c_isPaused (ctl (step CallPauseDemo two_page_typing)) = true
  /\ engine_idle (step CallPauseDemo two_page_typing).
Proof.
  destruct (pauseDemo_silences_the_page two_page_typing)
    as (Hp & _ & _ & _ & Hi & _);
    [ apply (reach_step (Fire 1) two_page); apply reach_init
    | split; [exact Hp | exact Hi] ].
Defined.

(** ** The text on screen during a session *)

Lemma session_point_prefix text out k :
  session_point text out k -> prefix_or_one_more text out.
Proof.
  destruct k as [t i | t i c s | t i c s | t i | | | ]; cbn; try contradiction.
  - intros (_ & Hi & ->). exists (S i). split; [lia | left; reflexivity].
  - intros (_ & Hi & _ & x & ->). exists i. split; [lia|]. right. exists x. auto.
  - intros (_ & Hi & _ & ->). exists i. split; [lia | left; reflexivity].
  - intros (_ & Hi & ->). exists (S i). split; [lia | left; reflexivity].
Qed.

(** The timer that completes a session is gone afterwards, and the
    engine still holds its handle. *)
Lemma session_step_end text p k w id :
  in_session text p k w -> currentTimeout (eng w) = Some id ->
  completed text p (step (Fire id) w) ->
  currentTimeout (eng (step (Fire id) w)) = Some id
  /\ timers (env (step (Fire id) w)) !! id = None.
Proof.
  intros (Hty & Hpa & Hco & Hpr & Hlt & id' & d & Hid & Htm & Hpt) Hcur.
  assert (id' = id) as -> by congruence.
  unfold completed, step, handle, fire. rewrite Htm. cbn [t_fn].
  assert (Hnext : forall i,
    let w' := drain (_typeCharacters text i (clearTimeout id w)) in
    promises (env w') !! p = Some Fulfilled /\ out_text (dom w') = text
    /\ isTyping (eng w') = false ->
    currentTimeout (eng w') = Some id /\ timers (env w') !! id = None).
  { intros i. cbv zeta. set (w0 := clearTimeout id w).
    assert (H0 : isTyping (eng w0) = true /\ isPaused (eng w0) = false
                 /\ onComplete (eng w0) = Some (Resolve p)
                 /\ promises (env w0) !! p = Some Pending
                 /\ currentTimeout (eng w0) = Some id
                 /\ timers (env w0) !! id = None).
    { subst w0. cbn. repeat split; try assumption. apply lookup_delete_eq. }
    destruct H0 as (Hty0 & Hpa0 & Hco0 & Hpr0 & Hcur0 & Hgone0). clearbody w0.
    destruct (drain_frame (_typeCharacters text i w0)) as (-> & _ & -> & -> & _).
    destruct (decide (i < length text)) as [Hi | Hi].
    - destruct (typeCharacters_cases text i w0 Hty0 Hpa0 Hi)
        as (tr & n & d' & k' & o & -> & Hk).
      cbn. intros (Hf & _). congruence.
    - intros _. unfold _typeCharacters. rewrite Hty0, Hpa0.
      replace (length text <=? i) with true by (symmetry; apply Nat.leb_le; lia).
      cbn [negb orb]. rewrite completeTyping_eq, Hco0. cbv zeta. cbn [call_complete].
      match goal with |- context [settle p Fulfilled ?x] =>
        destruct (settle_frame p Fulfilled x) as (-> & _ & _ & -> & _) end.
      case_if; cbn; split; assumption. }
  destruct k as [t i | t i c s | t i c s | t i | | | ]; cbn in Hpt; try contradiction.
  - destruct Hpt as (-> & _). cbn [run_closure]. apply Hnext.
  - cbn [run_closure].
    unfold _playBackspaceSound, _highlightSyntax, setTimeout, emit. cbv zeta.
    match goal with |- context [drain ?x] =>
      destruct (drain_frame x) as (_ & _ & _ & -> & _) end.
    case_if; cbn; intros (Hf & _); congruence.
  - cbn [run_closure].
    unfold _playKeypressSound, _highlightSyntax, setTimeout, emit. cbv zeta.
    match goal with |- context [drain ?x] =>
      destruct (drain_frame x) as (_ & _ & _ & -> & _) end.
    case_if; cbn; intros (Hf & _); congruence.
  - destruct Hpt as (-> & _). cbn [run_closure]. apply Hnext.
Qed.

Lemma typeText_starts_session text language w :
  text <> [] -> isTyping (eng w) = false ->
  exists k, in_session text (next_promise (env w)) k (snd (typeText text language w))
            /\ remaining text k <= 3 * length text.
Proof.
  intros Hne Hidle. rewrite (typeText_idle _ _ _ Hidle). cbn [snd].
  set (p := next_promise (env w)).
  match goal with |- context [_typeCharacters text 0 ?x] => set (w0 := x) end.
  destruct (typeCharacters_session text p 0 w0) as (k & Hs & Hr);
    try reflexivity.
  - subst w0. cbn. apply lookup_insert_eq.
  - subst w0 p. cbn. lia.
  - destruct text; [contradiction | cbn; lia].
  - exists k. split; [exact Hs | lia].
Qed.

(** A session, or a completed one whose last timer is gone. *)
Lemma ticks_keep_prefix text p n : forall w,
  (exists k, in_session text p k w)
  \/ (completed text p w
      /\ forall id, currentTimeout (eng w) = Some id -> timers (env w) !! id = None) ->
  prefix_or_one_more text (out_text (dom (Nat.iter n tick w))).
Proof.
  induction n as [|n IH]; intros w Hw.
  - cbn. destruct Hw as [(k & Hs) | ((_ & -> & _) & _)].
    + destruct Hs as (_ & _ & _ & _ & _ & id & d & _ & _ & Hpt).
      apply (session_point_prefix _ _ k Hpt).
    + exists (length text). split; [lia|]. left. symmetry. apply firstn_all.
  - rewrite Nat.iter_succ_r. apply IH.
    destruct Hw as [(k & Hs) | (Hc & Hgone)].
    + pose proof Hs as (_ & _ & _ & _ & _ & id & d & Hid & _ & _).
      unfold tick. rewrite Hid.
      destruct (session_step text p k w id Hs Hid) as [(k' & Hs' & _) | Hc].
      * left. exists k'. exact Hs'.
      * right. split; [exact Hc|].
        destruct (session_step_end text p k w id Hs Hid Hc) as (Hcur & Hnone).
        intros id' Hid'. congruence.
    + right. unfold tick. destruct (currentTimeout (eng w)) as [id|] eqn:Hid.
      * unfold step, handle, fire. rewrite (Hgone id eq_refl).
        split; [apply completed_drain, Hc|].
        destruct (drain_frame w) as (-> & _ & -> & _). rewrite Hid.
        intros id' [= <-]. apply (Hgone id eq_refl).
      * split; [exact Hc|]. rewrite Hid. discriminate.
Qed.

(** X21. After [typeText] on an idle engine, however many of the
    engine's timers have fired, the output element shows a prefix of the
    text, or a prefix followed by one more character (the wrong letter
    of a simulated error): the text never runs ahead, and never
    carries more than one stray character. *)
Theorem typing_shows_a_prefix (text language : jsstring) (w : World) (n : nat) :
  text <> [] -> isTyping (eng w) = false ->
  prefix_or_one_more text
    (out_text (dom (Nat.iter n tick (snd (typeText text language w))))).
Proof.
  intros Hne Hidle.
  destruct (typeText_starts_session text language w Hne Hidle) as (k & Hs & _).
  apply (ticks_keep_prefix text (next_promise (env w))). left. exists k. exact Hs.
Qed.

Lemma typing_shows_a_prefix_witness :
  prefix_or_one_more (js "x")
    (out_text (dom (Nat.iter 1 tick (snd (typeText (js "x") (js "javascript")
                                            forced_error_page))))).
Proof.
  apply (typing_shows_a_prefix (js "x") (js "javascript") forced_error_page 1);
    [discriminate | reflexivity].
Defined.

(** ** An engine that makes no errors *)

Lemma rand_nonneg (r : rand01) : (0 <= rval r)%Q.
Proof.
  destruct r as [q Hq]. cbn [rval]. unfold in_unit in Hq.
  apply andb_prop in Hq as [Hlo _]. apply Qle_bool_iff in Hlo. exact Hlo.
Qed.

Lemma typeCharacters_no_error text i w :
  isTyping (eng w) = true -> isPaused (eng w) = false -> i < length text ->
  (errorChance (options (eng w)) <= 0)%Q ->
  exists tr n d,
    _typeCharacters text i w
    = {| eng := set_currentTimeout (Some (next_timer (env w))) (eng w);
         ctl := ctl w;
         dom := set_out_text (out_text (dom w) ++ [nth i text 0%N]) (dom w);
         env := set_trace tr (set_drawn n
                  (set_next_timer (Pos.succ (next_timer (env w)))
                     (set_timers (<[next_timer (env w)
                                     := {| t_fn := TypeNext text i; t_delay := d |}]>
                                    (timers (env w))) (env w)))) |}.
Proof.
  intros Hty Hpa Hi Herr0.
  unfold _typeCharacters. rewrite Hty, Hpa.
  assert (Hleb : (length text <=? i) = false) by (apply Nat.leb_gt; lia).
  cbv beta iota zeta. unfold negb at 1, orb at 1. rewrite Hleb.
  unfold Math_random. cbv beta iota zeta.
  set (cls := if (nth i text 0 =? NEWLINE)%N then _ else _).
  assert (Hcls : exists s tr, cls
            = (s, upd_env (fun v => set_trace tr (set_drawn (S (drawn v)) v)) w)).
  { subst cls. unfold _playEnterSound, _playKeypressSound, emit.
    repeat case_if; eexists; eexists; destruct w as [e c d []]; reflexivity. }
  destruct Hcls as (s & tr & ->). cbv beta iota zeta.
  match goal with
  | |- context [if Qlt_bool (rval ?r) ?e && negb ?n then _ else _] =>
      assert (Hno : Qlt_bool (rval r) e = false)
  end.
  { unfold Qlt_bool. apply negb_false_iff. apply Qle_bool_iff.
    eapply Qle_trans; [exact Herr0 | apply rand_nonneg]. }
  rewrite Hno. cbn [andb].
  unfold setTimeout, _highlightSyntax, call_progress, updateProgress.
  cbv beta iota zeta.
  destruct w as [e c d v]. destruct v. destruct e as [? ? ? ? ? op ? ?]. simpl.
  destruct op as [[]|]; do 3 eexists; reflexivity.
Qed.

Lemma typeCharacters_session_no_error text p i w :
  isTyping (eng w) = true -> isPaused (eng w) = false ->
  onComplete (eng w) = Some (Resolve p) ->
  promises (env w) !! p = Some Pending -> p < next_promise (env w) ->
  out_text (dom w) = take i text -> i < length text ->
  (errorChance (options (eng w)) <= 0)%Q ->
  in_session text p (TypeNext text i) (_typeCharacters text i w)
  /\ options (eng (_typeCharacters text i w)) = options (eng w).
Proof.
  intros Hty Hpa Hco Hpr Hlt Hout Hi Herr0.
  destruct (typeCharacters_no_error text i w Hty Hpa Hi Herr0) as (tr & n & d & ->).
  split; [|reflexivity].
  unfold in_session. cbn.
  split; [exact Hty|]. split; [exact Hpa|]. split; [exact Hco|].
  split; [exact Hpr|]. split; [exact Hlt|].
  exists (next_timer (env w)), d. split; [reflexivity|].
  split; [apply lookup_insert_eq|].
  split; [reflexivity|]. split; [exact Hi|].
  rewrite Hout. apply take_snoc_nth, Hi.
Qed.

Lemma no_error_step text p i w :
  in_session text p (TypeNext text i) w ->
  (errorChance (options (eng w)) <= 0)%Q ->
  (S i < length text ->
   in_session text p (TypeNext text (S i)) (tick w)
   /\ options (eng (tick w)) = options (eng w))
  /\ (S i = length text -> completed text p (tick w)).
Proof.
  intros Hs Herr0.
  pose proof Hs as (Hty & Hpa & Hco & Hpr & Hlt & id & d & Hid & Htm & Hpt).
  cbn in Hpt. destruct Hpt as (_ & Hi & Hout).
  unfold tick. rewrite Hid. unfold step, handle, fire. rewrite Htm.
  cbn [t_fn run_closure]. replace (i + 1) with (S i) by lia.
  split.
  - intros Hlen.
    destruct (typeCharacters_session_no_error text p (S i) (clearTimeout id w))
      as (Hs' & Hop); try assumption.
    split; [apply in_session_drain, Hs'|].
    destruct (drain_frame (_typeCharacters text (S i) (clearTimeout id w))) as (-> & _).
    exact Hop.
  - intros Hlen. apply completed_drain. rewrite Hlen.
    apply typeCharacters_completes; try assumption.
    cbn. rewrite Hout, Hlen. apply firstn_all.
Qed.

Lemma no_error_ticks text p n : forall i w,
  in_session text p (TypeNext text i) w ->
  (errorChance (options (eng w)) <= 0)%Q ->
  i + n < length text ->
  in_session text p (TypeNext text (i + n)) (Nat.iter n tick w)
  /\ options (eng (Nat.iter n tick w)) = options (eng w).
Proof.
  induction n as [|n IH]; intros i w Hs Herr0 Hlen.
  - cbn. rewrite Nat.add_0_r. auto.
  - rewrite Nat.iter_succ_r.
    destruct (no_error_step text p i w Hs Herr0) as (Hstep & _).
    destruct Hstep as (Hs' & Hop); [lia|].
    destruct (IH (S i) (tick w) Hs') as (Hs2 & Hop2); [rewrite Hop; exact Herr0 | lia |].
    replace (i + S n) with (S i + n) by lia. split; [exact Hs2|].
    rewrite Hop2. exact Hop.
Qed.

(** X22. With an error chance of zero (or below) the engine never
    mistypes: after [typeText] on an idle engine the first character is
    on screen, each timer of the engine that fires adds exactly the
    next character, and the timer after the last character completes
    the session; a text of [n] characters takes [n] timers. *)
Theorem no_errors_one_character_per_timer (text language : jsstring) (w : World) :
  text <> [] -> isTyping (eng w) = false ->
  (errorChance (options (eng w)) <= 0)%Q ->
  let w1 := snd (typeText text language w) in
  (forall n, n < length text ->
     out_text (dom (Nat.iter n tick w1)) = take (S n) text
     /\ isTyping (eng (Nat.iter n tick w1)) = true)
  /\ completed text (next_promise (env w)) (Nat.iter (length text) tick w1).
Proof.
  intros Hne Hidle Herr0. cbv zeta.
  assert (Hlen : 0 < length text) by (destruct text; [contradiction | cbn; lia]).
  set (p := next_promise (env w)).
  assert (H1 : in_session text p (TypeNext text 0) (snd (typeText text language w))
               /\ options (eng (snd (typeText text language w))) = options (eng w)).
  { rewrite (typeText_idle _ _ _ Hidle). cbn [snd]. fold p.
    match goal with |- context [_typeCharacters text 0 ?x] => set (w0 := x) end.
    destruct (typeCharacters_session_no_error text p 0 w0) as (Hs & Hop);
      try reflexivity.
    - subst w0. cbn. apply lookup_insert_eq.
    - subst w0 p. cbn. lia.
    - exact Hlen.
    - subst w0. cbn. exact Herr0.
    - split; [exact Hs|]. rewrite Hop. subst w0. reflexivity. }
  destruct H1 as (Hs1 & Hop1).
  set (w1 := snd (typeText text language w)) in *. clearbody w1.
  assert (Herr1 : (errorChance (options (eng w1)) <= 0)%Q) by (rewrite Hop1; exact Herr0).
  split.
  - intros n Hn.
    destruct (no_error_ticks text p n 0 w1 Hs1 Herr1) as (Hs & _); [lia|].
    cbn [Nat.add] in Hs.
    destruct Hs as (Hty & _ & _ & _ & _ & id & d & _ & _ & Hpt).
    cbn in Hpt. destruct Hpt as (_ & _ & Hout). auto.
  - destruct (length text) as [|m] eqn:Hm; [lia|].
    destruct (no_error_ticks text p m 0 w1 Hs1 Herr1) as (Hs & Hop); [lia|].
    cbn [Nat.add] in Hs. cbn [Nat.iter nat_rect].
    change (nat_rect (fun _ => World) w1 (fun _ => tick) m) with (Nat.iter m tick w1).
    destruct (no_error_step text p m (Nat.iter m tick w1) Hs) as (_ & Hend).
    { rewrite Hop. exact Herr1. }
    apply Hend. lia.
Qed.

Lemma no_errors_one_character_per_timer_witness :
  out_text (dom (Nat.iter 1 tick (snd (typeText (js "ab") (js "javascript")
       (upd_eng (fun e => set_options
          {| baseSpeed := 60; speedVariation := 20; pauseChance := 8 # 100;
             pauseDuration := 200; errorChance := 0; errorCorrectDelay := 500 |} e)
          empty_page))))) = js "ab".
Proof.
  destruct (no_errors_one_character_per_timer (js "ab") (js "javascript")
       (upd_eng (fun e => set_options
          {| baseSpeed := 60; speedVariation := 20; pauseChance := 8 # 100;
             pauseDuration := 200; errorChance := 0; errorCorrectDelay := 500 |} e)
          empty_page)) as (H & _);
    [discriminate | reflexivity | vm_compute; discriminate |].
  destruct (H 1) as (Hout & _); [vm_compute; lia | exact Hout].
Defined.

(** ** Backspacing *)

Lemma removelast_take_length {A} (l : list A) : removelast l = take (length l - 1) l.
Proof.
  destruct (decide (l = [])) as [-> | Hne]; [reflexivity|].
  destruct (exists_last Hne) as (l' & x & ->).
  rewrite removelast_last, length_app. cbn [length].
  replace (length l' + 1 - 1) with (length l') by lia.
  rewrite take_app_length. reflexivity.
Qed.

Lemma backspace_tick_live (r : Z) (w : World) :
  (0 < r)%Z ->
  let w' := snd (backspace_tick r w) in
  fst (backspace_tick r w) = Some (r - 1)%Z
  /\ out_text (dom w') = take (length (out_text (dom w)) - 1) (out_text (dom w))
  /\ eng w' = eng w /\ ctl w' = ctl w /\ timers (env w') = timers (env w)
  /\ sound (env w') = sound (env w)
  /\ cue_count Backspace (trace (env w'))
     = cue_count Backspace (trace (env w))
       + (if audio_on w && (0 <? length (out_text (dom w))) then 1 else 0).
Proof.
  intros Hr. cbv zeta. unfold backspace_tick.
  replace (r <=? 0)%Z with false by (symmetry; apply Z.leb_gt; exact Hr).
  cbn [fst snd]. split; [reflexivity|].
  destruct (0 <? length (out_text (dom w))) eqn:Hlen.
  - unfold _playBackspaceSound, _highlightSyntax, slice_drop_last.
    change (audio_on (upd_dom (set_out_text (removelast (out_text (dom w)))) w))
      with (audio_on w).
    destruct (audio_on w); cbn;
      (split; [apply removelast_take_length|]); repeat split; try lia.
    unfold emit. cbn. rewrite cue_count_snoc. reflexivity.
  - apply Nat.ltb_ge in Hlen.
    assert (Hnil : out_text (dom w) = [])
      by (destruct (out_text (dom w)); [reflexivity | cbn in Hlen; lia]).
    rewrite Hnil, andb_false_r. cbn. repeat split; lia.
Qed.

Lemma backspace_ticks_live j : forall (r : Z) (w : World),
  (Z.of_nat j <= r)%Z ->
  let w' := snd (backspace_ticks j r w) in
  fst (backspace_ticks j r w) = Some (r - Z.of_nat j)%Z
  /\ out_text (dom w') = take (length (out_text (dom w)) - j) (out_text (dom w))
  /\ eng w' = eng w /\ ctl w' = ctl w /\ timers (env w') = timers (env w)
  /\ sound (env w') = sound (env w)
  /\ cue_count Backspace (trace (env w'))
     = cue_count Backspace (trace (env w))
       + (if audio_on w then Nat.min j (length (out_text (dom w))) else 0).
Proof.
  induction j as [|j IH]; intros r w Hr; cbv zeta.
  - cbn [backspace_ticks fst snd]. rewrite Nat.sub_0_r, firstn_all, Z.sub_0_r.
    repeat split. destruct (audio_on w); cbn; lia.
  - cbn [backspace_ticks].
    destruct (backspace_tick_live r w) as (Hf & Ho & He & Hc & Ht & Hsd & Hq); [lia|].
    destruct (backspace_tick r w) as [o w1]. cbn [fst snd] in *. subst o.
    destruct (IH (r - 1)%Z w1) as (Hf' & Ho' & He' & Hc' & Ht' & Hsd' & Hq'); [lia|].
    split; [rewrite Hf'; f_equal; lia|].
    split.
    { rewrite Ho', Ho. rewrite length_take, take_take. f_equal. lia. }
    split; [congruence|]. split; [congruence|]. split; [congruence|].
    split; [congruence|].
    rewrite Hq', Hq. unfold audio_on in *. rewrite Hsd.
    rewrite Ho, length_take.
    destruct (sound (env w)) as [[|]|]; cbn [andb]; try lia.
    destruct (0 <? length (out_text (dom w))) eqn:Hlen;
      [apply Nat.ltb_lt in Hlen | apply Nat.ltb_ge in Hlen]; lia.
Qed.

(** X23. The interval of [_simulateBackspace count], for a whole number
    [count] that is not negative: each of its first [count] ticks
    removes the last character of the output, if there is one, and plays
    the backspace cue for it when the sound is on; the tick after those
    clears the interval and resolves.  So [min count length] characters
    are removed, and backspacing over an empty output does nothing. *)
Theorem simulateBackspace_removes_count (count : Z) (w : World) :
  (0 <= count)%Z ->
  let n := Z.to_nat count in
  let out := out_text (dom w) in
  (forall j, j <= n ->
     fst (backspace_ticks j count w) = Some (count - Z.of_nat j)%Z
     /\ out_text (dom (snd (backspace_ticks j count w))) = take (length out - j) out)
  /\ let w' := snd (backspace_ticks (S n) count w) in
     fst (backspace_ticks (S n) count w) = None
     /\ out_text (dom w') = take (length out - n) out
     /\ eng w' = eng w /\ ctl w' = ctl w /\ timers (env w') = timers (env w)
     /\ cue_count Backspace (trace (env w'))
        = cue_count Backspace (trace (env w))
          + (if audio_on w then Nat.min n (length out) else 0).
Proof.
  intros Hc. cbv zeta. split.
  - intros j Hj.
    destruct (backspace_ticks_live j count w) as (Hf & Ho & _); [lia|]. auto.
  - assert (Hend : forall j r x,
      backspace_ticks j r x = (Some 0%Z, snd (backspace_ticks j r x)) ->
      backspace_ticks (S j) r x = (None, snd (backspace_ticks j r x))).
    { induction j as [|j IH]; intros r x Hx.
      - cbn in Hx. injection Hx as ->. reflexivity.
      - cbn [backspace_ticks] in *.
        destruct (backspace_tick r x) as [[r'|] x1]; [|discriminate].
        apply IH. exact Hx. }
    destruct (backspace_ticks_live (Z.to_nat count) count w)
      as (Hf & Ho & He & Hct & Ht & _ & Hq); [lia|].
    rewrite (Hend (Z.to_nat count) count w).
    + cbn [fst snd]. repeat split; assumption.
    + rewrite (surjective_pairing (backspace_ticks _ _ _)) at 1. rewrite Hf.
      do 2 f_equal. lia.
Qed.

Lemma simulateBackspace_removes_count_witness :
  out_text (dom (snd (backspace_ticks 3 2 two_page_typing))) = []
  /\ fst (backspace_ticks 3 2 two_page_typing) = None.
Proof.
  destruct (simulateBackspace_removes_count 2 two_page_typing) as (_ & Hf & Ho & _);
    [lia|].
  split; [exact Ho | exact Hf].
Defined.

(** ** A muted engine *)

Lemma as_silent_refl w : as_silent w w.
Proof. split; reflexivity. Qed.

Lemma as_silent_trans w1 w2 w3 : as_silent w1 w2 -> as_silent w2 w3 -> as_silent w1 w3.
Proof. intros (? & ?) (? & ?). split; congruence. Qed.

Lemma as_silent_ext (w w' : World) :
  sound (env w') = sound (env w) -> trace (env w') = trace (env w) -> as_silent w w'.
Proof. intros Hs Ht. split; [exact Hs | rewrite Ht; reflexivity]. Qed.

Lemma as_silent_audio w0 w : as_silent w0 w -> audio_on w = audio_on w0.
Proof. intros (Hs & _). unfold audio_on. rewrite Hs. reflexivity. Qed.

Lemma as_silent_emit e w : engine_cue e = false -> as_silent w (emit e w).
Proof.
  intros He. split; [reflexivity|]. cbn. rewrite List.filter_app. cbn. rewrite He.
  apply app_nil_r.
Qed.

(** Chaining: [f] is silent on a muted page, and leaves it muted. *)
Lemma as_silent_then w0 w w' :
  as_silent w0 w -> (audio_on w = false -> as_silent w w') -> audio_on w0 = false ->
  as_silent w0 w'.
Proof.
  intros H1 H2 Hm. apply (as_silent_trans w0 w w' H1). apply H2.
  rewrite (as_silent_audio w0 w H1). exact Hm.
Qed.

Lemma as_silent_settle p o w : as_silent w (settle p o w).
Proof.
  unfold settle. destruct (promises (env w) !! p) as [[| |e]|];
    try apply as_silent_refl.
  cbv zeta. case_if; apply as_silent_ext; reflexivity.
Qed.

Lemma as_silent_await p w : as_silent w (await p w).
Proof.
  unfold await. destruct (promises (env w) !! p) as [[| |e]|];
    try apply as_silent_refl; apply as_silent_ext; reflexivity.
Qed.

Lemma as_silent_drain w : as_silent w (drain w).
Proof.
  unfold drain. destruct (microtasks (env w)) as [|o ms]; [apply as_silent_refl|].
  set (w0 := upd_env (set_microtasks []) w).
  assert (H0 : as_silent w w0) by (apply as_silent_ext; reflexivity).
  clearbody w0. revert w0 H0.
  induction (o :: ms) as [|o' l IH]; intros w0 H0; [exact H0|].
  cbn [fold_left]. apply IH. apply (as_silent_trans w w0 _ H0).
  unfold typeCurrentSnippet_resume. destruct o' as [| |e].
  - apply as_silent_ext; reflexivity.
  - apply as_silent_ext; reflexivity.
  - apply (as_silent_trans _ (emit (ConsoleError "Error typing snippet:") w0));
      [apply as_silent_emit; reflexivity | apply as_silent_ext; reflexivity].
Qed.

Lemma as_silent_clearRotationTimers w : as_silent w (clearRotationTimers w).
Proof. rewrite clearRotationTimers_eq. apply as_silent_ext; reflexivity. Qed.

Lemma as_silent_ui w w' : ui_only w w' -> as_silent w w'.
Proof. intros (_ & _ & Hv & _). apply as_silent_ext; rewrite Hv; reflexivity. Qed.

Lemma as_silent_onTypingComplete w : as_silent w (onTypingComplete w).
Proof.
  unfold onTypingComplete, scheduleNextRotation. cbv zeta.
  set (w1 := updateUI (setState Completed w)).
  assert (H1 : as_silent w w1) by (apply as_silent_ui, setState_updateUI_ui).
  clearbody w1. apply (as_silent_trans w w1 _ H1).
  apply (as_silent_trans w1 (clearRotationTimers w1));
    [apply as_silent_clearRotationTimers|].
  case_if; [|apply as_silent_refl]. apply as_silent_ext; reflexivity.
Qed.

Lemma as_silent_completeTyping w :
  audio_on w = false -> as_silent w (_completeTyping w).
Proof.
  intros Hm. rewrite completeTyping_eq, Hm. cbv zeta.
  set (w0 := upd_eng (set_isTyping false) w).
  assert (H0 : as_silent w w0) by (apply as_silent_ext; reflexivity).
  clearbody w0. apply (as_silent_trans w w0 _ H0).
  destruct (onComplete (eng w)) as [[|p]|]; cbn [call_complete].
  - apply as_silent_onTypingComplete.
  - apply as_silent_settle.
  - apply as_silent_refl.
Qed.

Lemma typeCharacters_muted text i w :
  audio_on w = false -> as_silent w (_typeCharacters text i w).
Proof.
  intros Hm.
  destruct (negb (isTyping (eng w)) || isPaused (eng w)) eqn:Hg.
  { unfold _typeCharacters. rewrite Hg. apply as_silent_refl. }
  unfold _typeCharacters. rewrite Hg.
  destruct (length text <=? i) eqn:Hleb; [apply as_silent_completeTyping, Hm|].
  unfold Math_random. cbv beta iota zeta.
  set (cls := if (nth i text 0 =? NEWLINE)%N then _ else _).
  assert (Hcls : exists s, cls
            = (s, upd_env (fun v => set_drawn (S (drawn v)) v) w)).
  { subst cls. unfold _playEnterSound, _playKeypressSound.
    change (audio_on (upd_env (fun v => set_drawn (S (drawn v)) v) w)) with (audio_on w).
    rewrite Hm. repeat case_if; eexists; reflexivity. }
  destruct Hcls as (s & ->). cbv beta iota zeta.
  match goal with
  | |- context [if ?c && negb ?n then _ else _] => destruct (c && negb n)
  end.
  - unfold _simulateError, Math_random. cbv beta iota zeta.
    unfold _playKeypressSound, setTimeout, _highlightSyntax.
    match goal with |- context [if audio_on ?x then _ else _] =>
      change (audio_on x) with (audio_on w) end.
    rewrite Hm. cbv beta iota zeta. apply as_silent_ext; reflexivity.
  - unfold setTimeout, _highlightSyntax, call_progress, updateProgress.
    cbv beta iota zeta.
    match goal with |- context [match onProgress ?e with _ => _ end] =>
      destruct (onProgress e) as [[]|] end;
      apply as_silent_ext; reflexivity.
Qed.

Lemma typeText_muted text language w :
  audio_on w = false -> as_silent w (snd (typeText text language w)).
Proof.
  intros Hm.
  destruct (isTyping (eng w)) eqn:Hty.
  - rewrite (typeText_busy _ _ _ Hty). cbn [snd].
    apply (as_silent_trans w (snd (new_promise w)));
      [apply as_silent_ext; reflexivity | apply as_silent_settle].
  - rewrite (typeText_idle _ _ _ Hty). cbn [snd].
    match goal with |- context [_typeCharacters text 0 ?x] => set (w0 := x) end.
    assert (H0 : as_silent w w0) by (apply as_silent_ext; reflexivity).
    clearbody w0. apply (as_silent_then w w0 _ H0); [|exact Hm].
    apply typeCharacters_muted.
Qed.

Lemma pause_muted w : as_silent w (pause w).
Proof.
  destruct (isTyping (eng w)) eqn:Hty.
  - rewrite (pause_eq w Hty). apply as_silent_ext; reflexivity.
  - unfold pause. rewrite Hty. apply as_silent_refl.
Qed.

Lemma resume_muted w : audio_on w = false -> as_silent w (resume w).
Proof.
  intros Hm.
  destruct (resume_cases w) as [-> | (Hty & Hpa & Hr)]; [apply as_silent_refl|].
  destruct Hr as [-> | (text & i & Hi & ->)]; [apply as_silent_ext; reflexivity|].
  apply (as_silent_then w (upd_eng (set_isPaused false) w));
    [apply as_silent_ext; reflexivity | apply typeCharacters_muted | exact Hm].
Qed.

Lemma typeCurrentSnippet_muted w :
  audio_on w = false -> as_silent w (typeCurrentSnippet w).
Proof.
  intros Hm.
  destruct (snippet_at (snippets (ctl w)) (currentSnippetIndex (ctl w))) as [s|] eqn:Hs.
  - destruct (typeCurrentSnippet_eq w s Hs) as (w1 & -> & _ & Hv & _).
    assert (H1 : as_silent w w1) by (apply as_silent_ext; rewrite Hv; reflexivity).
    apply (as_silent_then w w1 _ H1); [|exact Hm].
    intros Hm1.
    apply (as_silent_trans w1 (snd (typeText (sn_code s) (sn_language s) w1)));
      [apply typeText_muted, Hm1 | apply as_silent_await].
  - unfold typeCurrentSnippet. rewrite Hs. apply as_silent_refl.
Qed.

Lemma goto_muted (f : Controller -> Controller) w :
  audio_on w = false ->
  as_silent w (typeCurrentSnippet (upd_ctl f (clearRotationTimers w))).
Proof.
  intros Hm.
  apply (as_silent_then w (upd_ctl f (clearRotationTimers w)));
    [|apply typeCurrentSnippet_muted | exact Hm].
  apply (as_silent_trans w (clearRotationTimers w));
    [apply as_silent_clearRotationTimers | apply as_silent_ext; reflexivity].
Qed.

Lemma nextSnippet_muted w : audio_on w = false -> as_silent w (nextSnippet w).
Proof. intros Hm. unfold nextSnippet. cbv zeta. apply goto_muted, Hm. Qed.

Lemma startDemo_muted w : audio_on w = false -> as_silent w (snd (startDemo w)).
Proof.
  intros Hm. unfold startDemo. case_if; cbn [snd].
  - apply as_silent_emit. reflexivity.
  - destruct (sound (env w)) eqn:Hsd.
    + apply (as_silent_then w (emit (Cue Startup) w));
        [apply as_silent_emit; reflexivity | apply typeCurrentSnippet_muted | exact Hm].
    + apply typeCurrentSnippet_muted, Hm.
Qed.

Lemma pauseDemo_muted w : as_silent w (pauseDemo w).
Proof.
  unfold pauseDemo. cbv zeta.
  eapply as_silent_trans; [|apply as_silent_ui, setState_updateUI_ui].
  eapply as_silent_trans; [|apply as_silent_clearRotationTimers].
  eapply as_silent_trans; [|apply pause_muted].
  apply as_silent_ext; reflexivity.
Qed.

Lemma resumeDemo_muted w : audio_on w = false -> as_silent w (resumeDemo w).
Proof.
  intros Hm. unfold resumeDemo. cbv zeta.
  eapply as_silent_trans; [|apply as_silent_ui, setState_updateUI_ui].
  apply (as_silent_then w (upd_ctl (set_c_isPaused false) w));
    [apply as_silent_ext; reflexivity | apply resume_muted | exact Hm].
Qed.

Lemma run_closure_muted k w : audio_on w = false -> as_silent w (run_closure k w).
Proof.
  intros Hm. destruct k; cbn [run_closure].
  - apply typeCharacters_muted, Hm.
  - unfold _playBackspaceSound, _highlightSyntax, setTimeout. cbv zeta.
    match goal with |- context [if audio_on ?x then _ else _] =>
      change (audio_on x) with (audio_on w) end.
    rewrite Hm. apply as_silent_ext; reflexivity.
  - unfold _playKeypressSound, _highlightSyntax, setTimeout. cbv zeta.
    match goal with |- context [if audio_on ?x then _ else _] =>
      change (audio_on x) with (audio_on w) end.
    rewrite Hm. apply as_silent_ext; reflexivity.
  - apply typeCharacters_muted, Hm.
  - apply nextSnippet_muted, Hm.
  - apply as_silent_ext; reflexivity.
  - apply startDemo_muted, Hm.
Qed.

Lemma handle_muted e w :
  sound_toggle e = false -> audio_on w = false -> as_silent w (handle e w).
Proof.
  intros He Hm. destruct e; cbn [handle]; try discriminate.
  - unfold fire. destruct (timers (env w) !! id) as [t|]; [|apply as_silent_refl].
    apply (as_silent_then w (clearTimeout id w));
      [apply as_silent_ext; reflexivity | apply run_closure_muted | exact Hm].
  - apply typeText_muted, Hm.
  - unfold typeWithCursor.
    apply (as_silent_then w (upd_eng (set_targetText (Some text)) w));
      [apply as_silent_ext; reflexivity | apply typeText_muted | exact Hm].
  - apply pause_muted.
  - apply resume_muted, Hm.
  - rewrite stop_eq. apply as_silent_ext; reflexivity.
  - unfold clear. cbv zeta. rewrite stop_eq. apply as_silent_ext; reflexivity.
  - apply as_silent_ext; reflexivity.
  - apply startDemo_muted, Hm.
  - apply nextSnippet_muted, Hm.
  - unfold previousSnippet. cbv zeta. apply goto_muted, Hm.
  - unfold restartCurrentSnippet. cbv zeta.
    apply (as_silent_then w (clearRotationTimers w));
      [apply as_silent_clearRotationTimers | apply typeCurrentSnippet_muted | exact Hm].
  - unfold handleUserInteraction. cbv zeta.
    eapply as_silent_trans; [|apply as_silent_ext; reflexivity].
    apply (as_silent_then w (clearRotationTimers (upd_ctl (set_isUserInteracting true) w)));
      [|apply nextSnippet_muted | exact Hm].
    eapply as_silent_trans; [|apply as_silent_clearRotationTimers].
    apply as_silent_ext; reflexivity.
  - unfold togglePause. case_if; [apply resumeDemo_muted, Hm | apply pauseDemo_muted].
  - apply pauseDemo_muted.
  - apply resumeDemo_muted, Hm.
  - unfold setSnippet. case_if; [|apply as_silent_refl]. cbv zeta. apply goto_muted, Hm.
  - unfold setTypingSpeed. cbv zeta. apply as_silent_ext; reflexivity.
  - unfold setAutoRotate. cbv zeta. case_if.
    + eapply as_silent_trans; [|apply as_silent_clearRotationTimers].
      apply as_silent_ext; reflexivity.
    + apply as_silent_ext; reflexivity.
  - apply as_silent_onTypingComplete.
Qed.

Lemma run_muted (es : list event) : forall w,
  audio_on w = false ->
  forallb (fun e => negb (sound_toggle e)) es = true ->
  as_silent w (run es w).
Proof.
  induction es as [|e es IH]; intros w Hm Hes; [apply as_silent_refl|].
  cbn [forallb] in Hes. apply andb_prop in Hes as [He Hes].
  apply negb_true_iff in He.
  cbn [run fold_left].
  assert (H1 : as_silent w (step e w)).
  { unfold step. apply (as_silent_trans w (handle e w));
      [apply handle_muted; assumption | apply as_silent_drain]. }
  apply (as_silent_then w (step e w) _ H1); [|exact Hm].
  intros Hm1. apply (IH _ Hm1 Hes).
Qed.

(** X24. While the sound is off (muted, or no sound manager), whatever
    timers fire and whatever methods are called, short of
    [toggleSound], the engine plays no cue: no keypress, backspace,
    enter or completion cue is added, and the sound stays off. *)
Theorem muted_engine_is_silent (w : World) (es : list event) :
  audio_on w = false ->
  forallb (fun e => negb (sound_toggle e)) es = true ->
  let w' := run es w in
  audio_on w' = false
  /\ List.filter engine_cue (trace (env w')) = List.filter engine_cue (trace (env w)).
Proof.
  intros Hm Hes. cbv zeta.
  pose proof (run_muted es w Hm Hes) as H.
  split; [rewrite (as_silent_audio w _ H); exact Hm | apply H].
Qed.

Lemma muted_engine_is_silent_witness :
  List.filter engine_cue
    (trace (env (run [Fire 1; Fire 2; Fire 3]
                   (init demo_options [snippet_of "ab"] None (fun _ => draw_half)))))
  = [].
Proof.
  destruct (muted_engine_is_silent
              (init demo_options [snippet_of "ab"] None (fun _ => draw_half))
              [Fire 1; Fire 2; Fire 3]) as (_ & H);
    [reflexivity | reflexivity | exact H].
Defined.

Lemma drain_toggle (w : World) : toggle_muted (dom (drain w)) = toggle_muted (dom w).
Proof.
  unfold drain. destruct (microtasks (env w)) as [|o ms]; [reflexivity|].
  set (w0 := upd_env (set_microtasks []) w).
  change (toggle_muted (dom w)) with (toggle_muted (dom w0)).
  clearbody w0. revert w0.
  induction (o :: ms) as [|o' l IH]; intros w0; [reflexivity|].
  cbn [fold_left]. rewrite IH. unfold typeCurrentSnippet_resume.
  destruct o' as [| |e]; reflexivity.
Qed.

(** X25. The sound toggle, on a page whose sound is on: the sound
    manager is disabled and the toggle gets the muted class; from then
    on, whatever timers fire and methods are called, the engine plays
    no cue, until the toggle is used again, which enables the sound and
    takes the muted class off. *)
Theorem toggleSound_mutes_the_engine (w : World) (es : list event) :
  sound (env w) = Some true ->
  forallb (fun e => negb (sound_toggle e)) es = true ->
  let w1 := step CallToggleSound w in
  let w2 := run es w1 in
  let w3 := step CallToggleSound w2 in
  sound (env w1) = Some false /\ toggle_muted (dom w1) = true
  /\ List.filter engine_cue (trace (env w2)) = List.filter engine_cue (trace (env w))
  /\ sound (env w3) = Some true /\ toggle_muted (dom w3) = false.
Proof.
  intros Hon Hes. cbv zeta.
  assert (Htog : forall x b, sound (env x) = Some b ->
            sound (env (step CallToggleSound x)) = Some (negb b)
            /\ toggle_muted (dom (step CallToggleSound x)) = b
            /\ List.filter engine_cue (trace (env (step CallToggleSound x)))
               = List.filter engine_cue (trace (env x))).
  { intros x b Hx. unfold step. cbn [handle].
    assert (Ht : sound (env (toggleSound x)) = Some (negb b)
                 /\ toggle_muted (dom (toggleSound x)) = b
                 /\ trace (env (toggleSound x)) = trace (env x)).
    { unfold toggleSound, updateSoundToggleUI. rewrite Hx. cbn.
      rewrite negb_involutive. repeat split. }
    destruct Ht as (Hs & Hd & Htr).
    destruct (as_silent_drain (toggleSound x)) as (Hs' & Htr').
    rewrite Hs', drain_toggle, Htr', Htr. auto. }
  destruct (Htog w true Hon) as (Hs1 & Hd1 & Ht1).
  set (w1 := step CallToggleSound w) in *. clearbody w1.
  assert (Hm1 : audio_on w1 = false) by (unfold audio_on; rewrite Hs1; reflexivity).
  destruct (run_muted es w1 Hm1 Hes) as (Hs2 & Ht2).
  set (w2 := run es w1) in *. clearbody w2.
  rewrite Hs1 in Hs2.
  destruct (Htog w2 false Hs2) as (Hs3 & Hd3 & _).
  split; [exact Hs1|]. split; [exact Hd1|]. split; [congruence|].
  split; [exact Hs3 | exact Hd3].
Qed.

Lemma toggleSound_mutes_the_engine_witness :
  List.filter engine_cue
    (trace (env (run [Fire 2; Fire 3] (step CallToggleSound two_page_typing))))
  = [Cue Keypress].
Proof.
  destruct (toggleSound_mutes_the_engine two_page_typing [Fire 2; Fire 3])
    as (_ & _ & H & _); [reflexivity | reflexivity |].
  rewrite H. reflexivity.
Defined.

(** ** Round trips of the navigation *)

Lemma goto_index (f : Controller -> jsnum) (w : World) :
  let w' := drain (typeCurrentSnippet
                     (upd_ctl (fun c => set_currentSnippetIndex (f c) c)
                              (clearRotationTimers w))) in
  currentSnippetIndex (ctl w') = f (ctl (clearRotationTimers w))
  /\ snippets (ctl w') = snippets (ctl w).
Proof.
  cbv zeta.
  destruct (drain_frame_ctl (typeCurrentSnippet
              (upd_ctl (fun c => set_currentSnippetIndex (f c) c)
                       (clearRotationTimers w)))) as (-> & -> & _).
  destruct (clearRotationTimers_ctl w) as (_ & Hsn & _).
  match goal with |- context [typeCurrentSnippet ?x] =>
    destruct (typeCurrentSnippet_ctl x) as [-> | ->] end; cbn; auto.
Qed.

Lemma next_index (w : World) (z : Z) :
  currentSnippetIndex (ctl w) = Num z ->
  (0 <= z < Z.of_nat (length (snippets (ctl w))))%Z ->
  currentSnippetIndex (ctl (step CallNextSnippet w))
  = Num ((z + 1) mod Z.of_nat (length (snippets (ctl w))))
  /\ snippets (ctl (step CallNextSnippet w)) = snippets (ctl w).
Proof.
  intros Hix Hz. unfold step. cbn [handle]. unfold nextSnippet. cbv zeta.
  destruct (goto_index
    (fun c => js_rem (js_add (currentSnippetIndex c) 1) (Z.of_nat (length (snippets c)))) w)
    as (-> & ->).
  split; [|reflexivity].
  destruct (clearRotationTimers_ctl w) as (-> & -> & _). rewrite Hix.
  apply next_index_in_range, Hz.
Qed.

Lemma previous_index (w : World) (z : Z) :
  currentSnippetIndex (ctl w) = Num z ->
  (0 <= z < Z.of_nat (length (snippets (ctl w))))%Z ->
  currentSnippetIndex (ctl (step CallPreviousSnippet w))
  = Num ((z - 1) mod Z.of_nat (length (snippets (ctl w))))
  /\ snippets (ctl (step CallPreviousSnippet w)) = snippets (ctl w).
Proof.
  intros Hix Hz. unfold step. cbn [handle]. unfold previousSnippet. cbv zeta.
  destruct (goto_index
    (fun c => if js_is_zero (currentSnippetIndex c)
              then Num (Z.of_nat (length (snippets c)) - 1)
              else js_add (currentSnippetIndex c) (-1)) w)
    as (-> & ->).
  split; [|reflexivity].
  destruct (clearRotationTimers_ctl w) as (-> & -> & _). rewrite Hix.
  apply previous_index_in_range, Hz.
Qed.

Lemma next_index_iter (k : nat) : forall (w : World) (z : Z),
  currentSnippetIndex (ctl w) = Num z ->
  (0 <= z < Z.of_nat (length (snippets (ctl w))))%Z ->
  currentSnippetIndex (ctl (Nat.iter k (step CallNextSnippet) w))
  = Num ((z + Z.of_nat k) mod Z.of_nat (length (snippets (ctl w))))
  /\ snippets (ctl (Nat.iter k (step CallNextSnippet) w)) = snippets (ctl w).
Proof.
  induction k as [|k IH]; intros w z Hix Hz.
  - cbn [Nat.iter nat_rect]. rewrite Z.add_0_r, Z.mod_small by exact Hz. auto.
  - rewrite Nat.iter_succ_r.
    destruct (next_index w z Hix Hz) as (Hix1 & Hsn1).
    set (n := Z.of_nat (length (snippets (ctl w)))) in *.
    assert (Hr : (0 <= (z + 1) mod n < n)%Z) by (apply Z.mod_pos_bound; lia).
    destruct (IH (step CallNextSnippet w) ((z + 1) mod n)%Z Hix1) as (Hix2 & Hsn2).
    { rewrite Hsn1. exact Hr. }
    rewrite Hix2, Hsn2, Hsn1. fold n. split; [|reflexivity].
    f_equal. rewrite Zplus_mod_idemp_l. f_equal. lia.
Qed.

(** X26. The navigation goes round: whatever the engine is doing, with
    the index in range, [previousSnippet] after [nextSnippet] and
    [nextSnippet] after [previousSnippet] give back the index, and as
    many calls of [nextSnippet] as there are snippets come back to the
    same snippet. *)
Theorem navigation_goes_round (w : World) (z : Z) :
  currentSnippetIndex (ctl w) = Num z ->
  (0 <= z < Z.of_nat (length (snippets (ctl w))))%Z ->
  currentSnippetIndex (ctl (step CallPreviousSnippet (step CallNextSnippet w))) = Num z
  /\ currentSnippetIndex (ctl (step CallNextSnippet (step CallPreviousSnippet w))) = Num z
  /\ currentSnippetIndex
       (ctl (Nat.iter (length (snippets (ctl w))) (step CallNextSnippet) w)) = Num z.
Proof.
  intros Hix Hz.
  set (n := Z.of_nat (length (snippets (ctl w)))) in *.
  assert (Hn : (0 < n)%Z) by lia.
  split; [|split].
  - destruct (next_index w z Hix Hz) as (Hix1 & Hsn1). fold n in Hix1.
    destruct (previous_index (step CallNextSnippet w) ((z + 1) mod n)%Z Hix1) as (-> & _).
    { rewrite Hsn1. apply Z.mod_pos_bound. exact Hn. }
    rewrite Hsn1. fold n. f_equal.
    rewrite Zminus_mod_idemp_l. replace (z + 1 - 1)%Z with z by lia.
    apply Z.mod_small, Hz.
  - destruct (previous_index w z Hix Hz) as (Hix1 & Hsn1). fold n in Hix1.
    destruct (next_index (step CallPreviousSnippet w) ((z - 1) mod n)%Z Hix1) as (-> & _).
    { rewrite Hsn1. apply Z.mod_pos_bound. exact Hn. }
    rewrite Hsn1. fold n. f_equal.
    rewrite Zplus_mod_idemp_l. replace (z - 1 + 1)%Z with z by lia.
    apply Z.mod_small, Hz.
  - destruct (next_index_iter (length (snippets (ctl w))) w z Hix Hz) as (-> & _).
    fold n. f_equal. rewrite <- Zplus_mod_idemp_r, Z_mod_same_full, Z.add_0_r.
    apply Z.mod_small, Hz.
Qed.

Lemma navigation_goes_round_witness :
  currentSnippetIndex
    (ctl (step CallPreviousSnippet (step CallNextSnippet two_page_typing))) = Num 0.
Proof.
  destruct (navigation_goes_round two_page_typing 0) as (H & _);
    [reflexivity | vm_compute; split; [discriminate | reflexivity] | exact H].
Defined.

(** ** Switching the rotation off *)

(** X27. [setAutoRotate(false)], in any reachable state, cancels the
    pending hold and leaves none; it schedules nothing, the engine and
    the page are untouched, and a later [onTypingComplete] schedules no
    hold.  [setAutoRotate(true)] sets the option and schedules
    nothing. *)
Theorem setAutoRotate_off_cancels_the_hold (w : World) :
  reachable w ->
  (let w' := step (CallSetAutoRotate false) w in
   autoRotate (c_options (ctl w')) = false
   /\ typingCompleteTimer (ctl w') = None /\ no_rotation w'
   /\ eng w' = eng w /\ dom w' = dom w
   /\ (forall id t, timers (env w') !! id = Some t -> timers (env w) !! id = Some t)
   /\ no_rotation (step CallOnTypingComplete w'))
  /\ (let w' := step (CallSetAutoRotate true) w in
      autoRotate (c_options (ctl w')) = true
      /\ timers (env w') = timers (env w) /\ eng w' = eng w /\ dom w' = dom w).
Proof.
  intros Hreach.
  pose proof (reachable_wf _ Hreach) as Hwf.
  pose proof (reachable_quiet _ Hreach) as Hq.
  split.
  - pose proof (reachable_wf _ (reach_step (CallSetAutoRotate false) w Hreach)) as Hwf'.
    cbv zeta.
    set (w0 := upd_ctl (fun c => set_c_options (set_autoRotate false (c_options c)) c) w).
    assert (Hstep : step (CallSetAutoRotate false) w = clearRotationTimers w0).
    { unfold step. cbn [handle]. unfold setAutoRotate. cbv zeta. cbn [negb].
      apply drain_quiet. rewrite clearRotationTimers_eq. exact Hq. }
    rewrite Hstep in *.
    assert (Hwf0 : wf w0) by (apply (wf_ext w); [reflexivity .. | exact Hwf]).
    destruct (wf_clearRotationTimers w0 Hwf0) as (_ & Hnr).
    destruct (clearRotationTimers_frame w0) as (He & Hd & _ & Hsub).
    set (w1 := clearRotationTimers w0) in *.
    assert (H1 : autoRotate (c_options (ctl w1)) = false
                 /\ typingCompleteTimer (ctl w1) = None).
    { subst w1 w0. rewrite clearRotationTimers_eq. split; reflexivity. }
    destruct H1 as (Har & Htc). clearbody w1.
    split; [exact Har|]. split; [exact Htc|]. split; [exact Hnr|].
    split; [exact He|]. split; [exact Hd|]. split; [exact Hsub|].
    unfold step. cbn [handle].
    destruct (drain_frame (onTypingComplete w1)) as (_ & _ & Htm2 & _).
    apply (no_rotation_ext (onTypingComplete w1)); [exact Htm2|].
    unfold onTypingComplete, scheduleNextRotation. cbv zeta.
    set (w2 := updateUI (setState Completed w1)).
    assert (H2 : wf w2 /\ autoRotate (c_options (ctl w2)) = false).
    { pose proof (setState_updateUI_ui Completed w1) as Hu.
      split; [apply (wf_ui w1 _ Hu Hwf')|].
      destruct Hu as (_ & Hc & _). subst w2. rewrite Hc. exact Har. }
    destruct H2 as (Hwf2 & Har2). clearbody w2.
    destruct (clearRotationTimers_ctl w2) as (_ & _ & Hop & _).
    rewrite Hop, Har2. cbn [andb].
    apply wf_clearRotationTimers, Hwf2.
  - cbv zeta. unfold step. cbn [handle]. unfold setAutoRotate. cbv zeta. cbn [negb].
    rewrite drain_quiet by exact Hq. repeat split.
Qed.

Lemma setAutoRotate_off_cancels_the_hold_witness :
  no_rotation (step (CallSetAutoRotate false) two_page_completed).
Proof.
  destruct (setAutoRotate_off_cancels_the_hold two_page_completed)
    as ((_ & _ & H & _) & _);
    [exact two_page_completed_reachable | exact H].
Defined.

(** On the completed page the hold was pending; it is gone. *)
Example hold_cancelled_by_setAutoRotate :
  timers (env two_page_completed) !! 4%positive
  = Some {| t_fn := Rotate; t_delay := 5000 |}
  /\ timers (env (step (CallSetAutoRotate false) two_page_completed)) = ∅.
Proof. vm_compute. split; reflexivity. Qed.

(** ** The delay of a character *)

Lemma typeCharacters_delay text i w :
  isTyping (eng w) = true -> isPaused (eng w) = false -> i < length text ->
  let s := char_speed (options (eng w)) (nth i text 0%N)
             (rval (oracle (env w) (drawn (env w))))
             (rval (oracle (env w) (S (drawn (env w))))) in
  exists tr n d k o,
    _typeCharacters text i w
    = {| eng := set_currentTimeout (Some (next_timer (env w))) (eng w);
         ctl := ctl w;
         dom := set_out_text o (dom w);
         env := set_trace tr (set_drawn n
                  (set_next_timer (Pos.succ (next_timer (env w)))
                     (set_timers (<[next_timer (env w) := {| t_fn := k; t_delay := d |}]>
                                    (timers (env w))) (env w)))) |}
    /\ ((k = TypeNext text i /\ d = s)
        \/ (k = ErrBackspace text i (nth i text 0%N) s
            /\ d = errorCorrectDelay (options (eng w)))).
Proof.
  intros Hty Hpa Hi. cbv zeta.
  unfold _typeCharacters. rewrite Hty, Hpa.
  assert (Hleb : (length text <=? i) = false) by (apply Nat.leb_gt; lia).
  cbv beta iota zeta. unfold negb at 1, orb at 1. rewrite Hleb.
  unfold Math_random. cbv beta iota zeta.
  set (cls := if (nth i text 0 =? NEWLINE)%N then _ else _).
  set (speed0 := (baseSpeed (options (eng w))
                  + (rval (oracle (env w) (drawn (env w))) - (1 # 2))
                    * speedVariation (options (eng w)))%Q).
  assert (Hcls : exists tr, cls
            = (if (nth i text 0 =? NEWLINE)%N then (speed0 * 2)%Q
               else if (nth i text 0 =? SPACE)%N then (speed0 * (3 # 2))%Q
               else if is_punctuation (nth i text 0%N) then (speed0 * 2)%Q
               else if is_uppercase (nth i text 0%N) then (speed0 * (6 # 5))%Q
               else speed0,
               upd_env (fun v => set_trace tr (set_drawn (S (drawn v)) v)) w)).
  { subst cls speed0. unfold _playEnterSound, _playKeypressSound, emit.
    repeat case_if; eexists; destruct w as [e c d []]; reflexivity. }
  destruct Hcls as (tr & ->). cbv beta iota zeta.
  unfold char_speed. cbv zeta. fold speed0.
  set (s1 := if (nth i text 0 =? NEWLINE)%N then _ else _).
  cbn [env upd_env oracle drawn set_trace set_drawn eng options].
  set (s2 := if Qlt_bool _ _ then _ else _).
  match goal with
  | |- context [if ?c && negb ?n then _ else _] => destruct (c && negb n) eqn:Herr
  end.
  - unfold _simulateError, Math_random. cbv beta iota zeta.
    match goal with
    | |- context [(rval ?r * 26)%Q] => destruct (wrong_char_defined r) as [x Hx]; rewrite Hx
    end.
    unfold _playKeypressSound, emit, setTimeout, _highlightSyntax.
    cbv beta iota zeta.
    destruct w as [e c d v]. destruct v.
    case_if; do 5 eexists; (split; [reflexivity|]);
      right; split; reflexivity.
  - unfold setTimeout, _highlightSyntax, call_progress, updateProgress.
    cbv beta iota zeta.
    destruct w as [e c d v]. destruct v. destruct e as [? ? ? ? ? op ? ?]. simpl.
    destruct op as [[]|]; do 5 eexists; (split; [reflexivity|]);
      left; split; reflexivity.
Qed.

Lemma rand_below_one (r : rand01) : (rval r < 1)%Q.
Proof.
  destruct r as [q Hq]. cbn [rval]. unfold in_unit in Hq.
  apply andb_prop in Hq as [_ Hhi]. apply negb_true_iff in Hhi.
  apply Qnot_le_lt. intros Hle. apply Qle_bool_iff in Hle. congruence.
Qed.

Lemma char_speed_bounds (o : EngineOptions) (c : N) (r r' : rand01) :
  (0 <= speedVariation o)%Q ->
  (speedVariation o * (1 # 2) <= baseSpeed o)%Q ->
  (0 <= pauseDuration o)%Q ->
  (baseSpeed o - speedVariation o * (1 # 2) <= char_speed o c (rval r) (rval r'))%Q
  /\ (char_speed o c (rval r) (rval r')
      <= 2 * (baseSpeed o + speedVariation o * (1 # 2)) + pauseDuration o)%Q.
Proof.
  intros Hv Hb Hp.
  pose proof (rand_nonneg r) as H0. pose proof (rand_below_one r) as H1.
  unfold char_speed. cbv zeta.
  set (b := baseSpeed o) in *. set (v := speedVariation o) in *.
  set (pd := pauseDuration o) in *. set (q := rval r) in *.
  assert (Hrv0 : (0 <= q * v)%Q) by (apply Qmult_le_0_compat; assumption).
  assert (Hrv1 : (q * v <= v)%Q).
  { rewrite <- (Qmult_1_l v) at 2. apply Qmult_le_compat_r; [|exact Hv].
    apply Qlt_le_weak, H1. }
  assert (Hx : (b - v * (1 # 2) <= b + (q - (1 # 2)) * v
                /\ b + (q - (1 # 2)) * v <= b + v * (1 # 2))%Q).
  { split; lra. }
  set (x := (b + (q - (1 # 2)) * v)%Q) in *. destruct Hx as (Hlo & Hhi).
  clearbody x. clear Hrv0 Hrv1 H0 H1.
  repeat case_if; split; lra.
Qed.

(** X28. The delays of the engine stay within the bounds its options
    give.  With a speed variation that is not negative and at most
    twice the base speed, and a pause duration that is not negative,
    the delay [_typeCharacters] computes for a character, whatever the
    character and the draws, lies between [baseSpeed - speedVariation/2]
    and [2 * (baseSpeed + speedVariation/2) + pauseDuration]; it is the
    delay of the timer for the next character, or, when the character
    is mistyped, the delay kept for the timer after the correction,
    the wrong letter staying on screen for [errorCorrectDelay]. *)
Theorem character_delay_within_bounds (text : jsstring) (i : nat) (w : World) :
  isTyping (eng w) = true -> isPaused (eng w) = false -> i < length text ->
  let o := options (eng w) in
  let lo := (baseSpeed o - speedVariation o * (1 # 2))%Q in
  let hi := (2 * (baseSpeed o + speedVariation o * (1 # 2)) + pauseDuration o)%Q in
  (0 <= speedVariation o)%Q ->
  (speedVariation o * (1 # 2) <= baseSpeed o)%Q ->
  (0 <= pauseDuration o)%Q ->
  exists k d,
    timers (env (_typeCharacters text i w)) !! next_timer (env w)
    = Some {| t_fn := k; t_delay := d |}
    /\ ((k = TypeNext text i /\ (lo <= d)%Q /\ (d <= hi)%Q)
        \/ (exists c s, k = ErrBackspace text i c s
                        /\ d = errorCorrectDelay o /\ (lo <= s)%Q /\ (s <= hi)%Q)).
Proof.
  intros Hty Hpa Hi o lo hi Hv Hb Hp.
  destruct (typeCharacters_delay text i w Hty Hpa Hi)
    as (tr & n & d & k & out & -> & Hk).
  destruct (char_speed_bounds o (nth i text 0%N)
              (oracle (env w) (drawn (env w)))
              (oracle (env w) (S (drawn (env w)))) Hv Hb Hp) as (Hlo & Hhi).
  exists k, d. split; [cbn; apply lookup_insert_eq|].
  destruct Hk as [(-> & ->) | (-> & ->)].
  - left. split; [reflexivity|]. split; assumption.
  - right. eexists _, _. split; [reflexivity|]. split; [reflexivity|].
    split; assumption.
Qed.

Lemma character_delay_within_bounds_witness :
  exists k d,
    timers (env (_typeCharacters (js "ab") 1 two_page_typing))
      !! next_timer (env two_page_typing)
    = Some {| t_fn := k; t_delay := d |}.
Proof.
  destruct (character_delay_within_bounds (js "ab") 1 two_page_typing)
    as (k & d & H & _);
    [ reflexivity | reflexivity | vm_compute; lia
    | vm_compute; discriminate | vm_compute; discriminate | vm_compute; discriminate
    | exists k, d; exact H ].
Defined.

(** ** Realistic pauses *)

Lemma replace_scan_filter (m : jsstring -> option (nat * jsstring)) (p : N -> bool) :
  (forall s len r, m s = Some (len, r) ->
     1 <= len /\ List.filter p r = List.filter p (take len s)) ->
  forall s k, List.filter p (replace_scan m s k) = List.filter p (drop k s).
Proof.
  intros Hm. induction s as [|x t IH]; intros k.
  - destruct k; reflexivity.
  - destruct k as [|k]; cbn [replace_scan].
    + destruct (m (x :: t)) as [[len r]|] eqn:Hmatch.
      * destruct (Hm _ _ _ Hmatch) as (Hlen & Hr).
        rewrite List.filter_app, IH, Hr.
        destruct len as [|len]; [lia|].
        replace (S len - 1) with len by lia.
        change (drop len t) with (drop (S len) (x :: t)).
        rewrite <- List.filter_app, take_drop. reflexivity.
      * cbn [drop List.filter]. rewrite IH. reflexivity.
    + rewrite IH. reflexivity.
Qed.

Lemma replace_scan_filter0 (m : jsstring -> option (nat * jsstring)) (p : N -> bool) :
  (forall s len r, m s = Some (len, r) ->
     1 <= len /\ List.filter p r = List.filter p (take len s)) ->
  forall s, List.filter p (replace_scan m s 0) = List.filter p s.
Proof. intros Hm s. apply (replace_scan_filter m p Hm s 0). Qed.

Lemma replace_scan_none (m : jsstring -> option (nat * jsstring)) (P : N -> Prop) :
  (forall s, Forall P s -> m s = None) ->
  forall s, Forall P s -> replace_scan m s 0 = s.
Proof.
  intros Hm. induction s as [|x t IH]; intros Hs; [reflexivity|].
  cbn [replace_scan]. rewrite (Hm _ Hs). f_equal. apply IH.
  inversion Hs; assumption.
Qed.

Lemma match_before_newline_ok c s len r :
  match_before_newline c s = Some (len, r) ->
  c <> NEWLINE ->
  1 <= len /\ List.filter not_newline r = List.filter not_newline (take len s).
Proof.
  unfold match_before_newline. destruct s as [|x [|y t]]; try discriminate.
  destruct ((x =? c)%N && (y =? NEWLINE)%N) eqn:E; [|discriminate].
  apply andb_prop in E as [Hx Hy]. apply N.eqb_eq in Hx, Hy. subst x y.
  intros [= <- <-] Hc. split; [lia|].
  assert (Hn : not_newline NEWLINE = false) by reflexivity.
  assert (Hnc : not_newline c = true).
  { unfold not_newline. apply negb_true_iff, N.eqb_neq, Hc. }
  change (take 2 (c :: NEWLINE :: t)) with [c; NEWLINE].
  cbn [List.filter]. rewrite Hn, Hnc. reflexivity.
Qed.

Lemma match_comment_ok s len r :
  match_comment s = Some (len, r) ->
  1 <= len /\ List.filter not_newline r = List.filter not_newline (take len s).
Proof.
  unfold match_comment. destruct s as [|a [|b [|c t]]]; try discriminate.
  destruct ((a =? SLASH)%N && (b =? SLASH)%N && (c =? SPACE)%N); [|discriminate].
  cbv zeta. case_if; [|discriminate].
  intros [= <- <-]. split; [lia|].
  set (n := run_length _ t).
  change (List.filter not_newline ((a :: b :: c :: take (n + 1) t) ++ [NEWLINE])
          = List.filter not_newline (a :: b :: c :: take (n + 1) t)).
  rewrite List.filter_app.
  change (List.filter not_newline [NEWLINE]) with (@nil N). apply app_nil_r.
Qed.

Lemma filter_not_newline_run s :
  List.filter not_newline (take (run_length (fun x => (x =? NEWLINE)%N) s) s) = [].
Proof.
  induction s as [|x t IH]; [reflexivity|]. cbn [run_length].
  destruct (x =? NEWLINE)%N eqn:E; [|reflexivity].
  apply N.eqb_eq in E. subst x.
  change (List.filter not_newline
            (NEWLINE :: take (run_length (fun x => (x =? NEWLINE)%N) t) t) = []).
  cbn [List.filter]. change (not_newline NEWLINE) with false. exact IH.
Qed.

Lemma match_blank_lines_ok s len r :
  match_blank_lines s = Some (len, r) ->
  1 <= len /\ List.filter not_newline r = List.filter not_newline (take len s).
Proof.
  unfold match_blank_lines. cbv zeta. case_if; [|discriminate].
  intros [= <- <-]. apply Nat.leb_le in Heqb. split; [lia|].
  rewrite filter_not_newline_run. reflexivity.
Qed.

Lemma run_length_lookup (p : N -> bool) s :
  forall n, n < run_length p s -> exists x, s !! n = Some x /\ p x = true.
Proof.
  induction s as [|x t IH]; intros n Hn; [cbn in Hn; lia|].
  cbn [run_length] in Hn. destruct (p x) eqn:E; [|lia].
  destruct n as [|n]; [exists x; auto|]. apply IH. lia.
Qed.

Lemma no_match_without_newline s :
  Forall (fun c => c <> NEWLINE) s ->
  (forall c, match_before_newline c s = None)
  /\ match_comment s = None /\ match_blank_lines s = None.
Proof.
  intros Hs. split; [|split].
  - intros c. unfold match_before_newline. destruct s as [|x [|y t]]; try reflexivity.
    destruct (y =? NEWLINE)%N eqn:E; [|rewrite andb_false_r; reflexivity].
    apply N.eqb_eq in E. inversion Hs as [|? ? _ Ht]. inversion Ht. contradiction.
  - unfold match_comment. destruct s as [|a [|b [|c t]]]; try reflexivity.
    case_if; [|reflexivity]. cbv zeta.
    destruct (bool_decide _) eqn:E; [|rewrite andb_false_r; reflexivity].
    apply bool_decide_eq_true_1 in E. exfalso.
    assert (Ht : Forall (fun c => c <> NEWLINE) t).
    { inversion Hs as [|? ? _ H1]. inversion H1 as [|? ? _ H2].
      inversion H2; assumption. }
    rewrite Forall_lookup in Ht. apply (Ht _ _ E). reflexivity.
  - unfold match_blank_lines. cbv zeta. case_if; [|reflexivity].
    apply Nat.leb_le in Heqb.
    destruct (run_length_lookup (fun x => (x =? NEWLINE)%N) s 0) as (x & Hx & Hp); [lia|].
    apply N.eqb_eq in Hp. subst x.
    rewrite Forall_lookup in Hs. destruct (Hs _ _ Hx). reflexivity.
Qed.

Lemma blank_lines_collapse s : forall k,
  k = 0 \/ k = run_length (fun x => (x =? NEWLINE)%N) s ->
  no_three_newlines (replace_scan match_blank_lines s k)
  /\ run_length (fun x => (x =? NEWLINE)%N) (replace_scan match_blank_lines s k)
     = if k =? 0 then Nat.min (run_length (fun x => (x =? NEWLINE)%N) s) 2 else 0.
Proof.
  set (lead := run_length (fun x => (x =? NEWLINE)%N)).
  assert (Hlc : forall x t, lead (x :: t) = if (x =? NEWLINE)%N then S (lead t) else 0)
    by reflexivity.
  assert (Hcons : forall x R, no_three_newlines R -> (x <> NEWLINE \/ lead R <= 1) ->
                    no_three_newlines (x :: R)).
  { intros x R HR Hx [|i] (H0 & H1 & H2).
    - cbn in H0, H1, H2. destruct Hx as [Hx | Hx]; [congruence|].
      destruct R as [|a [|b R]]; try discriminate.
      cbn in H1, H2. injection H1 as ->. injection H2 as ->.
      rewrite !Hlc in Hx. cbn in Hx. lia.
    - apply (HR i). auto. }
  induction s as [|x t IH]; intros k Hk.
  - destruct k; cbn; (split; [intros i (H & _); discriminate | reflexivity]).
  - destruct k as [|k]; cbn [replace_scan].
    + replace (match_blank_lines (x :: t))
        with (if 3 <=? lead (x :: t) then Some (lead (x :: t), [NEWLINE; NEWLINE]) else None)
        by reflexivity.
      destruct (3 <=? lead (x :: t)) eqn:H3.
      * apply Nat.leb_le in H3.
        assert (Hx : x = NEWLINE /\ lead (x :: t) = S (lead t)).
        { rewrite Hlc in H3 |- *.
          destruct (x =? NEWLINE)%N eqn:E; [|lia].
          apply N.eqb_eq in E. split; [exact E | reflexivity]. }
        destruct Hx as (-> & Hlt). rewrite Hlt in *.
        replace (S (lead t) - 1) with (lead t) by lia.
        destruct (IH (lead t)) as (Hno & Hlead); [right; reflexivity|].
        replace (lead t =? 0) with false in Hlead
          by (symmetry; apply Nat.eqb_neq; lia).
        cbn [app Nat.eqb].
        assert (H1 : lead (NEWLINE :: replace_scan match_blank_lines t (lead t)) = 1)
          by (rewrite Hlc, Hlead; reflexivity).
        change ([NEWLINE; NEWLINE] ++ replace_scan match_blank_lines t (lead t))
          with (NEWLINE :: NEWLINE :: replace_scan match_blank_lines t (lead t)).
        split.
        -- apply Hcons; [|right; rewrite H1; lia].
           apply Hcons; [exact Hno | right; rewrite Hlead; lia].
        -- fold lead. rewrite Hlc, H1. cbn. lia.
      * apply Nat.leb_gt in H3.
        destruct (IH 0) as (Hno & Hlead); [left; reflexivity|].
        cbn [Nat.eqb] in Hlead |- *.
        fold lead. rewrite Hlc in H3. rewrite !Hlc.
        destruct (x =? NEWLINE)%N eqn:E.
        -- split; [apply Hcons; [exact Hno | right; rewrite Hlead; lia]|].
           rewrite Hlead. lia.
        -- split; [|reflexivity].
           apply Hcons; [exact Hno | left; intros ->; discriminate].
    + destruct Hk as [Hk | Hk]; [discriminate|].
      assert (Hx : k = lead t).
      { change (run_length (fun x => (x =? NEWLINE)%N) (x :: t)) with (lead (x :: t)) in Hk.
        rewrite Hlc in Hk.
        destruct (x =? NEWLINE)%N; [lia | discriminate]. }
      destruct (IH k) as (Hno & Hlead); [right; exact Hx|].
      split; [exact Hno|]. cbn [Nat.eqb]. fold lead. rewrite Hlead.
      destruct (k =? 0) eqn:E; [|reflexivity].
      apply Nat.eqb_eq in E. rewrite <- Hx, E. reflexivity.
Qed.

(** X29. [addRealisticPauses] only ever adds and removes newlines: what
    is left of its result once the newlines are taken out is what is
    left of the text; its result never has three newlines in a row; and
    a text without newline comes back unchanged. *)
Theorem addRealisticPauses_touches_newlines_only (text : jsstring) :
  List.filter not_newline (addRealisticPauses text) = List.filter not_newline text
  /\ no_three_newlines (addRealisticPauses text)
  /\ (Forall (fun c => c <> NEWLINE) text -> addRealisticPauses text = text).
Proof.
  unfold addRealisticPauses. cbv zeta. split; [|split].
  - rewrite (replace_scan_filter0 match_blank_lines not_newline match_blank_lines_ok).
    rewrite (replace_scan_filter0 match_comment not_newline match_comment_ok).
    rewrite !(replace_scan_filter0 (match_before_newline _) not_newline);
      try (intros s len r Hm; apply (match_before_newline_ok _ s len r Hm); discriminate).
    reflexivity.
  - apply blank_lines_collapse. left. reflexivity.
  - intros Hs.
    rewrite (replace_scan_none (match_before_newline SEMICOLON) (fun c => c <> NEWLINE))
      by (try exact Hs; intros s H; apply no_match_without_newline, H).
    rewrite (replace_scan_none (match_before_newline LBRACE) (fun c => c <> NEWLINE))
      by (try exact Hs; intros s H; apply no_match_without_newline, H).
    rewrite (replace_scan_none (match_before_newline RBRACE) (fun c => c <> NEWLINE))
      by (try exact Hs; intros s H; apply no_match_without_newline, H).
    rewrite (replace_scan_none match_comment (fun c => c <> NEWLINE))
      by (try exact Hs; intros s H; apply no_match_without_newline, H).
    apply (replace_scan_none match_blank_lines (fun c => c <> NEWLINE));
      [intros s H; apply no_match_without_newline, H | exact Hs].
Qed.

Lemma addRealisticPauses_touches_newlines_only_witness :
  addRealisticPauses (js "let x") = js "let x".
Proof.
  destruct (addRealisticPauses_touches_newlines_only (js "let x")) as (_ & _ & H).
  apply H. repeat constructor; discriminate.
Defined.

(** A statement, a block with blank lines, a comment, a comment without
    text and a closing brace:
    ["a;\nb{\n\n\n\n// hi\nx// \n}\n// a"] becomes
    ["a;\n\nb{\n\n// hi\n\nx// \n}\n\n// a"]. *)
Example addRealisticPauses_sample :
  addRealisticPauses
    (js "a;" ++ [NEWLINE] ++ js "b{" ++ [NEWLINE; NEWLINE; NEWLINE; NEWLINE]
     ++ js "// hi" ++ [NEWLINE] ++ js "x// " ++ [NEWLINE] ++ js "}" ++ [NEWLINE]
     ++ js "// a")
  = js "a;" ++ [NEWLINE; NEWLINE] ++ js "b{" ++ [NEWLINE; NEWLINE]
    ++ js "// hi" ++ [NEWLINE; NEWLINE] ++ js "x// " ++ [NEWLINE] ++ js "}"
    ++ [NEWLINE; NEWLINE] ++ js "// a".
Proof. vm_compute. reflexivity. Qed.

(** ** The text [resume] goes on with *)

(** X30. [resume] goes on with the text [typeWithCursor] recorded last,
    whatever the text of the session that was paused: when the text on
    screen is shorter than the recorded one, the next character typed
    (or mistyped) after [resume] is the character of the recorded text
    at the length of the text on screen, and the engine's timer carries
    the recorded text. *)
Theorem resume_goes_on_with_recorded_text
    (text old : jsstring) (p : nat) (k0 : closure) (w : World) :
  in_session text p k0 w ->
  targetText (eng w) = Some old ->
  length (out_text (dom w)) < length old ->
  let j := length (out_text (dom w)) in
  let w' := resume (pause w) in
  isTyping (eng w') = true /\ isPaused (eng w') = false
  /\ exists k d,
       currentTimeout (eng w') = Some (next_timer (env w))
       /\ timers (env w') !! next_timer (env w) = Some {| t_fn := k; t_delay := d |}
       /\ ((k = TypeNext old j
            /\ out_text (dom w') = out_text (dom w) ++ [nth j old 0%N])
           \/ (exists x s, k = ErrBackspace old j (nth j old 0%N) s
                           /\ out_text (dom w') = out_text (dom w) ++ [x])).
Proof.
  intros (Hty & Hpa & Hco & Hpr & Hlt & _) Htt Hj. cbv zeta.
  rewrite (pause_eq w Hty). unfold resume. cbn [eng upd_eng upd_env isTyping isPaused
    set_currentTimeout set_isPaused andb dom targetText out_text].
  rewrite Hty, Htt. cbn [default andb]. unfold id.
  replace (length (out_text (dom w)) <? length old) with true
    by (symmetry; apply Nat.ltb_lt; exact Hj).
  match goal with |- context [_typeCharacters old _ ?x] => set (w0 := x) end.
  destruct (typeCharacters_cases old (length (out_text (dom w))) w0)
    as (tr & n & d & k & o & -> & Hk); [exact Hty | reflexivity | exact Hj |].
  cbn. split; [exact Hty|]. split; [reflexivity|].
  exists k, d. split; [reflexivity|]. split; [apply lookup_insert_eq|].
  destruct Hk as [[-> ->] | (x & s & -> & -> & _)]; [left | right]; eauto.
Qed.

(** [two_page_typing], with "xyz" recorded by an earlier
    [typeWithCursor]: after [pause] and [resume] the engine types "y"
    behind the "a" of "ab". *)
Lemma resume_goes_on_with_recorded_text_witness :
  let w := upd_eng (set_targetText (Some (js "xyz"))) two_page_typing in
  isTyping (eng (resume (pause w))) = true
  /\ out_text (dom (resume (pause w))) = js "ay".
Proof.
  cbv zeta.
  destruct (resume_goes_on_with_recorded_text (js "ab") (js "xyz") 0
              (TypeNext (js "ab") 0)
              (upd_eng (set_targetText (Some (js "xyz"))) two_page_typing))
    as (Hty & _).
  - unfold in_session. do 4 (split; [reflexivity|]). split; [vm_compute; lia|].
    exists 2%positive, (240 # 4). vm_compute. repeat split. lia.
  - reflexivity.
  - vm_compute. lia.
  - split; [exact Hty | reflexivity].
Defined.

(** * The claims that pause, resume and navigation break *)

(** ** A session over a page that was changed under it *)

Lemma in_session_from_drain pre j text p k w :
  in_session_from pre j text p k w -> in_session_from pre j text p k (drain w).
Proof.
  unfold in_session_from. destruct (drain_frame w) as (-> & -> & -> & -> & -> & _).
  trivial.
Qed.

Lemma completed_from_drain pre j text p w :
  completed_from pre j text p w -> completed_from pre j text p (drain w).
Proof.
  unfold completed_from. destruct (drain_frame w) as (-> & -> & _ & -> & _). trivial.
Qed.

(** An undisturbed session is one over its own page. *)
Lemma in_session_from_start text p k w :
  in_session text p k w -> in_session_from [] 0 text p k w.
Proof.
  intros (Hty & Hpa & Hco & Hpr & Hlt & id & d & Hid & Htm & Hpt).
  do 5 (split; [assumption|]). exists id, d. do 2 (split; [assumption|]).
  destruct k as [t i | t i c s | t i c s | t i | | | ]; cbn in Hpt |- *;
    try contradiction.
  - destruct Hpt as (-> & Hi & ->). repeat split; [exact Hi | lia].
  - destruct Hpt as (-> & Hi & -> & x & ->).
    repeat split; [exact Hi | lia |]. unfold slice_drop_last.
    rewrite removelast_last. reflexivity.
  - destruct Hpt as (-> & Hi & -> & ->). repeat split; [exact Hi | lia].
  - destruct Hpt as (-> & Hi & ->). repeat split; [exact Hi | lia].
Qed.

(** The page is cleared under a session: the session goes on from its
    cursor, on an empty page. *)
Lemma in_session_cleared text p k w w' :
  eng w' = eng w -> out_text (dom w') = [] ->
  timers (env w') = timers (env w) ->
  promises (env w') !! p = Some Pending ->
  next_promise (env w) <= next_promise (env w') ->
  in_session text p k w -> in_session_from [] (cursor k) text p k w'.
Proof.
  intros He Ho Ht Hp Hn (Hty & Hpa & Hco & Hpr & Hlt & id & d & Hid & Htm & Hpt).
  unfold in_session_from. rewrite He, Ho, Ht.
  do 3 (split; [assumption|]). split; [exact Hp|]. split; [lia|].
  exists id, d. do 2 (split; [assumption|]).
  assert (Hnil : forall i, @nil N = drop i (take i text)).
  { intros i. symmetry. apply drop_ge. rewrite length_take. lia. }
  destruct k as [t i | t i c s | t i c s | t i | | | ]; cbn in Hpt |- *;
    try contradiction.
  - destruct Hpt as (-> & Hi & _). repeat split; [exact Hi | lia | apply Hnil].
  - destruct Hpt as (-> & Hi & -> & _). repeat split; [exact Hi | lia | apply Hnil].
  - destruct Hpt as (-> & Hi & -> & _). repeat split; [exact Hi | lia | apply Hnil].
  - destruct Hpt as (-> & Hi & _). repeat split; [exact Hi | lia | apply Hnil].
Qed.

Lemma drop_take_snoc (text : jsstring) i j :
  j <= i -> i < length text ->
  drop j (take i text) ++ [nth i text 0%N] = drop j (take (S i) text).
Proof.
  intros Hj Hi. rewrite <- (take_snoc_nth text i Hi).
  rewrite drop_app_le by (rewrite length_take; lia). reflexivity.
Qed.

Lemma typeCharacters_session_from pre j text p i w :
  isTyping (eng w) = true -> isPaused (eng w) = false ->
  onComplete (eng w) = Some (Resolve p) ->
  promises (env w) !! p = Some Pending -> p < next_promise (env w) ->
  out_text (dom w) = pre ++ drop j (take i text) -> j <= i -> i < length text ->
  exists k, in_session_from pre j text p k (_typeCharacters text i w)
            /\ remaining text k <= 3 * (length text - i)
            /\ (k = TypeNext text i \/ exists s, k = ErrBackspace text i (nth i text 0%N) s).
Proof.
  intros Hty Hpa Hco Hpr Hlt Hout Hj Hi.
  destruct (typeCharacters_cases text i w Hty Hpa Hi)
    as (tr & n & d & k & o & -> & Hk).
  exists k. split; [|split].
  - unfold in_session_from. cbn.
    do 5 (split; [assumption|]).
    exists (next_timer (env w)), d. split; [reflexivity|].
    split; [apply lookup_insert_eq|].
    destruct Hk as [[-> ->] | (x & s & -> & -> & _)]; cbn.
    + repeat split; [exact Hi | lia |]. rewrite Hout, <- app_assoc.
      f_equal. apply drop_take_snoc; assumption.
    + repeat split; [exact Hi | exact Hj |]. unfold slice_drop_last.
      rewrite removelast_last. exact Hout.
  - destruct Hk as [[-> _] | (x & s & -> & _)]; cbn; lia.
  - destruct Hk as [[-> _] | (x & s & -> & _)]; eauto.
Qed.

Lemma typeCharacters_completes_from pre j text p w :
  isTyping (eng w) = true -> isPaused (eng w) = false ->
  onComplete (eng w) = Some (Resolve p) ->
  promises (env w) !! p = Some Pending ->
  out_text (dom w) = pre ++ drop j text ->
  completed_from pre j text p (_typeCharacters text (length text) w).
Proof.
  intros Hty Hpa Hco Hpr Hout.
  unfold _typeCharacters. rewrite Hty, Hpa, Nat.leb_refl.
  cbn [negb orb]. rewrite completeTyping_eq, Hco. cbv zeta. cbn [call_complete].
  set (w1 := if audio_on w then _ else _).
  assert (H1 : promises (env w1) !! p = Some Pending
               /\ out_text (dom w1) = pre ++ drop j text /\ isTyping (eng w1) = false).
  { subst w1. case_if; cbn; auto. }
  destruct H1 as (Hp1 & Ho1 & Ht1).
  destruct (settle_pending p Fulfilled w1 Hp1) as (Hs & He & Hd).
  unfold completed_from. rewrite Hs, He, Hd. auto.
Qed.

Lemma typeCharacters_advance_from pre j text p i w :
  isTyping (eng w) = true -> isPaused (eng w) = false ->
  onComplete (eng w) = Some (Resolve p) ->
  promises (env w) !! p = Some Pending -> p < next_promise (env w) ->
  out_text (dom w) = pre ++ drop j (take i text) -> j <= i -> i <= length text ->
  (exists k, in_session_from pre j text p k (_typeCharacters text i w)
             /\ remaining text k <= 3 * (length text - i))
  \/ completed_from pre j text p (_typeCharacters text i w).
Proof.
  intros Hty Hpa Hco Hpr Hlt Hout Hj Hi.
  destruct (decide (i = length text)) as [-> | Hne].
  - right. apply typeCharacters_completes_from; try assumption.
    rewrite Hout, firstn_all. reflexivity.
  - left.
    destruct (typeCharacters_session_from pre j text p i w) as (k & Hs & Hr & _);
      try assumption; [lia|].
    exists k. auto.
Qed.

Lemma session_step_from pre j text p k w id :
  in_session_from pre j text p k w -> currentTimeout (eng w) = Some id ->
  (exists k', in_session_from pre j text p k' (step (Fire id) w)
              /\ remaining text k' < remaining text k)
  \/ completed_from pre j text p (step (Fire id) w).
Proof.
  intros (Hty & Hpa & Hco & Hpr & Hlt & id' & d & Hid & Htm & Hpt) Hcur.
  assert (id' = id) as -> by congruence.
  unfold step, handle, fire. rewrite Htm. cbn [t_fn].
  destruct k as [t i | t i c s | t i c s | t i | | | ]; cbn in Hpt; try contradiction.
  - destruct Hpt as (-> & Hi & Hj & Hout). cbn [run_closure].
    replace (i + 1) with (S i) by lia.
    destruct (typeCharacters_advance_from pre j text p (S i) (clearTimeout id w))
      as [(k' & Hs & Hr) | Hc]; try assumption; try lia.
    + left. exists k'. split; [apply in_session_from_drain, Hs | cbn; lia].
    + right. apply completed_from_drain, Hc.
  - destruct Hpt as (-> & Hi & -> & Hj & Hout). left.
    exists (ErrRetype text i (nth i text 0%N) s). split; [|cbn; lia].
    apply in_session_from_drain. unfold in_session_from. cbn.
    unfold _playBackspaceSound, _highlightSyntax, emit.
    case_if; cbn; repeat split; try assumption;
      (eexists _, _; split; [reflexivity|]; split; [apply lookup_insert_eq|]);
      cbn; repeat split; assumption.
  - destruct Hpt as (-> & Hi & -> & Hj & Hout). left.
    exists (ErrContinue text i). split; [|cbn; lia].
    apply in_session_from_drain. unfold in_session_from. cbn.
    unfold _playKeypressSound, _highlightSyntax, emit.
    case_if; cbn; repeat split; try assumption;
      (eexists _, _; split; [reflexivity|]; split; [apply lookup_insert_eq|]);
      cbn; repeat split; try assumption; try lia;
      rewrite Hout, <- app_assoc; f_equal; apply drop_take_snoc; assumption.
  - destruct Hpt as (-> & Hi & Hj & Hout). cbn [run_closure].
    replace (i + 1) with (S i) by lia.
    destruct (typeCharacters_advance_from pre j text p (S i) (clearTimeout id w))
      as [(k' & Hs & Hr) | Hc]; try assumption; try lia.
    + left. exists k'. split; [apply in_session_from_drain, Hs | cbn; lia].
    + right. apply completed_from_drain, Hc.
Qed.

Lemma session_completes_from pre j text p n : forall k w,
  in_session_from pre j text p k w -> remaining text k <= n ->
  exists w', await_run n p w = Some w' /\ completed_from pre j text p w'.
Proof.
  induction n as [|n IH]; intros k w Hs Hr.
  - destruct k; cbn in Hr; try lia;
      destruct Hs as (_ & _ & _ & _ & _ & ? & ? & _ & _ & []).
  - pose proof Hs as (Hty & Hpa & Hco & Hpr & Hlt & id & d & Hid & Htm & Hpt).
    cbn [await_run]. rewrite Hpr, Hid, Htm.
    destruct (session_step_from pre j text p k w id Hs Hid) as [(k' & Hs' & Hr') | Hc].
    + apply (IH k' _ Hs'). lia.
    + exists (step (Fire id) w). split; [|exact Hc].
      destruct Hc as (Hf & _). destruct n; cbn [await_run]; rewrite Hf; reflexivity.
Qed.

(** ** The completion cue of a session *)

Lemma typeCharacters_complete_cue text i w :
  isTyping (eng w) = true -> isPaused (eng w) = false -> i < length text ->
  cue_count Complete (trace (env (_typeCharacters text i w)))
  = cue_count Complete (trace (env w))
  /\ sound (env (_typeCharacters text i w)) = sound (env w).
Proof.
  intros Hty Hpa Hi.
  unfold _typeCharacters. rewrite Hty, Hpa.
  assert (Hleb : (length text <=? i) = false) by (apply Nat.leb_gt; lia).
  cbv beta iota zeta. unfold negb at 1, orb at 1. rewrite Hleb.
  unfold Math_random. cbv beta iota zeta.
  set (cls := if (nth i text 0 =? NEWLINE)%N then _ else _).
  assert (Hcls : exists s tr, cls
            = (s, upd_env (fun v => set_trace tr (set_drawn (S (drawn v)) v)) w)
            /\ cue_count Complete tr = cue_count Complete (trace (env w))).
  { subst cls. unfold _playEnterSound, _playKeypressSound, emit.
    repeat case_if; eexists; eexists;
      (split; [destruct w as [e c d []]; reflexivity|]);
      cbn; rewrite ?cue_count_snoc; cbn; lia. }
  destruct Hcls as (s & tr & -> & Htr). cbv beta iota zeta.
  match goal with
  | |- context [if ?c && negb ?n then _ else _] => destruct (c && negb n)
  end.
  - unfold _simulateError, Math_random. cbv beta iota zeta.
    unfold _playKeypressSound, emit, setTimeout, _highlightSyntax.
    cbv beta iota zeta.
    destruct w as [e c d v]. destruct v.
    case_if; cbn in *; rewrite ?cue_count_snoc; cbn; split; try reflexivity; lia.
  - unfold setTimeout, _highlightSyntax, call_progress, updateProgress.
    cbv beta iota zeta.
    destruct w as [e c d v]. destruct v. destruct e as [? ? ? ? ? op ? ?]. cbn in *.
    destruct op as [[]|]; cbn; split; try reflexivity; exact Htr.
Qed.

Lemma settle_trace p o w :
  trace (env (settle p o w)) = trace (env w) /\ sound (env (settle p o w)) = sound (env w).
Proof.
  unfold settle. destruct (promises (env w) !! p) as [[| |e]|]; try case_if; cbn;
    split; reflexivity.
Qed.

(** What a timer of the session does to the count of completion cues:
    nothing while the session goes on, one more when it completes with
    the sound on. *)
Lemma session_step_cue pre j text p k w id :
  in_session_from pre j text p k w -> currentTimeout (eng w) = Some id ->
  let w' := step (Fire id) w in
  sound (env w') = sound (env w)
  /\ cue_count Complete (trace (env w'))
     = cue_count Complete (trace (env w))
       + match promises (env w') !! p with
         | Some Fulfilled => if audio_on w then 1 else 0
         | _ => 0
         end.
Proof.
  intros (Hty & Hpa & Hco & Hpr & Hlt & id' & d & Hid & Htm & Hpt) Hcur.
  assert (id' = id) as -> by congruence.
  cbv zeta. unfold step, handle, fire. rewrite Htm. cbn [t_fn].
  assert (Hnext : forall i,
    let w' := drain (_typeCharacters text i (clearTimeout id w)) in
    sound (env w') = sound (env w)
    /\ cue_count Complete (trace (env w'))
       = cue_count Complete (trace (env w))
         + match promises (env w') !! p with
           | Some Fulfilled => if audio_on w then 1 else 0
           | _ => 0
           end).
  { intros i. cbv zeta. set (w0 := clearTimeout id w).
    assert (H0 : isTyping (eng w0) = true /\ isPaused (eng w0) = false
                 /\ onComplete (eng w0) = Some (Resolve p)
                 /\ promises (env w0) !! p = Some Pending
                 /\ trace (env w0) = trace (env w) /\ sound (env w0) = sound (env w)
                 /\ audio_on w0 = audio_on w).
    { subst w0. cbn. repeat split; assumption. }
    destruct H0 as (Hty0 & Hpa0 & Hco0 & Hpr0 & Htr0 & Hsd0 & Hau0). clearbody w0.
    destruct (as_silent_drain (_typeCharacters text i w0)) as (Hsd & _).
    destruct (drain_frame (_typeCharacters text i w0)) as (_ & _ & _ & Hp & _).
    rewrite Hsd, Hp, drain_cues.
    destruct (decide (i < length text)) as [Hi | Hi].
    - destruct (typeCharacters_complete_cue text i w0 Hty0 Hpa0 Hi) as (Hc & Hs).
      rewrite Hc, Hs, Htr0, Hsd0. split; [reflexivity|].
      destruct (typeCharacters_cases text i w0 Hty0 Hpa0 Hi)
        as (tr & n & d' & k' & o & -> & _).
      cbn. rewrite Hpr0. lia.
    - unfold _typeCharacters. rewrite Hty0, Hpa0.
      replace (length text <=? i) with true by (symmetry; apply Nat.leb_le; lia).
      cbn [negb orb]. rewrite completeTyping_eq, Hco0. cbv zeta. cbn [call_complete].
      set (w1 := if audio_on w0 then _ else _).
      assert (H1 : promises (env w1) !! p = Some Pending
                   /\ sound (env w1) = sound (env w)
                   /\ cue_count Complete (trace (env w1))
                      = cue_count Complete (trace (env w)) + if audio_on w then 1 else 0).
      { subst w1. rewrite Hau0. destruct (audio_on w); cbn;
          rewrite ?cue_count_snoc, Htr0; cbn; repeat split; try assumption; lia. }
      destruct H1 as (Hp1 & Hs1 & Hc1). clearbody w1.
      destruct (settle_trace p Fulfilled w1) as (-> & ->).
      destruct (settle_pending p Fulfilled w1 Hp1) as (-> & _).
      split; [exact Hs1 | exact Hc1]. }
  destruct k as [t i | t i c s | t i c s | t i | | | ]; cbn in Hpt; try contradiction.
  - destruct Hpt as (-> & _). cbn [run_closure]. apply Hnext.
  - cbn [run_closure].
    unfold _playBackspaceSound, _highlightSyntax, setTimeout, emit. cbv zeta.
    match goal with |- context [drain ?x] =>
      destruct (drain_frame x) as (_ & _ & _ & -> & _);
      destruct (as_silent_drain x) as (-> & _); rewrite (drain_cues Complete x) end.
    case_if; cbn; rewrite ?cue_count_snoc, Hpr; cbn; split; try reflexivity; lia.
  - cbn [run_closure].
    unfold _playKeypressSound, _highlightSyntax, setTimeout, emit. cbv zeta.
    match goal with |- context [drain ?x] =>
      destruct (drain_frame x) as (_ & _ & _ & -> & _);
      destruct (as_silent_drain x) as (-> & _); rewrite (drain_cues Complete x) end.
    case_if; cbn; rewrite ?cue_count_snoc, Hpr; cbn; split; try reflexivity; lia.
  - destruct Hpt as (-> & _). cbn [run_closure]. apply Hnext.
Qed.

(** A session over a changed page runs to completion: its promise is
    fulfilled, with [pre] and the rest of the text on screen, and the
    completion cue is played once if the sound is on. *)
Lemma session_completes_with_cue pre j text p n : forall k w,
  in_session_from pre j text p k w -> remaining text k <= n ->
  exists w', await_run n p w = Some w' /\ completed_from pre j text p w'
    /\ cue_count Complete (trace (env w'))
       = cue_count Complete (trace (env w)) + if audio_on w then 1 else 0.
Proof.
  induction n as [|n IH]; intros k w Hs Hr.
  - destruct k; cbn in Hr; try lia;
      destruct Hs as (_ & _ & _ & _ & _ & ? & ? & _ & _ & []).
  - pose proof Hs as (Hty & Hpa & Hco & Hpr & Hlt & id & d & Hid & Htm & Hpt).
    cbn [await_run]. rewrite Hpr, Hid, Htm.
    destruct (session_step_cue pre j text p k w id Hs Hid) as (Hsd & Hcue).
    destruct (session_step_from pre j text p k w id Hs Hid) as [(k' & Hs' & Hr') | Hc].
    + destruct (IH k' _ Hs') as (w2 & Hrun & Hc2 & Hcue2); [lia|].
      exists w2. split; [exact Hrun|]. split; [exact Hc2|].
      rewrite Hcue2, Hcue.
      destruct Hs' as (_ & _ & _ & Hpen & _). rewrite Hpen.
      unfold audio_on. rewrite Hsd. lia.
    + exists (step (Fire id) w). pose proof Hc as (Hf & _).
      split; [destruct n; cbn [await_run]; rewrite Hf; reflexivity|].
      split; [exact Hc|]. rewrite Hcue, Hf. reflexivity.
Qed.

(** ** The completion invariant, with a pause in between *)

(** C1, as the code has it. A session of [typeText] that nothing
    disturbs ends with its text on screen, whatever the draws
    ([undisturbed_session_completes]).  A [pause] and a [resume] in
    between are neither [stop] nor a new [typeText], yet they break the
    invariant: [resume] goes on with the text that an earlier
    [typeWithCursor] recorded, from the length of the text on screen, so
    that the promise of [typeText] is fulfilled with the text on screen
    at the pause followed by the rest of the recorded text. *)
Theorem C1_completion_after_pause_and_resume
    (text old : jsstring) (p : nat) (k0 : closure) (w : World) :
  in_session text p k0 w ->
  targetText (eng w) = Some old ->
  length (out_text (dom w)) < length old ->
  let w' := resume (pause w) in
  exists w2, await_run (3 * length old) p w' = Some w2
    /\ promises (env w2) !! p = Some Fulfilled
    /\ out_text (dom w2)
       = out_text (dom w) ++ drop (length (out_text (dom w))) old.
Proof.
  intros (Hty & Hpa & Hco & Hpr & Hlt & _) Htt Hj. cbv zeta.
  rewrite (pause_eq w Hty). unfold resume. cbn [eng upd_eng upd_env isTyping isPaused
    set_currentTimeout set_isPaused andb dom targetText out_text].
  rewrite Hty, Htt. cbn [default andb]. unfold id.
  replace (length (out_text (dom w)) <? length old) with true
    by (symmetry; apply Nat.ltb_lt; exact Hj).
  match goal with |- context [_typeCharacters old _ ?x] => set (w0 := x) end.
  destruct (typeCharacters_session_from (out_text (dom w)) (length (out_text (dom w)))
              old p (length (out_text (dom w))) w0) as (k & Hs & Hr & _);
    try assumption; try reflexivity.
  { subst w0. cbn. rewrite drop_ge by (rewrite length_take; lia).
    symmetry. apply app_nil_r. }
  destruct (session_completes_from _ _ old p (3 * length old) k _ Hs) as (w2 & Hrun & Hc);
    [lia|].
  exists w2. split; [exact Hrun|]. destruct Hc as (Hf & Ho & _). auto.
Qed.

Lemma C1_completion_after_pause_and_resume_witness :
  exists w2, await_run 9 1 (resume (pause recorded_page)) = Some w2
    /\ promises (env w2) !! 1 = Some Fulfilled
    /\ out_text (dom w2) = js "ayz".
Proof.
  destruct (C1_completion_after_pause_and_resume (js "ab") (js "xyz") 1
              (TypeNext (js "ab") 0) recorded_page) as (w2 & Hrun & Hf & Hout).
  - unfold in_session. do 4 (split; [reflexivity|]). split; [vm_compute; lia|].
    exists 4%positive, (240 # 4). vm_compute. repeat split. lia.
  - reflexivity.
  - vm_compute. lia.
  - exists w2. split; [exact Hrun|]. split; [exact Hf|]. rewrite Hout. reflexivity.
Defined.

(** The calls one after the other: [typeWithCursor("xyz")] to its end,
    [typeText("ab")], [pause], [resume], and the two timers of the
    engine: the promise of [typeText("ab")] is fulfilled over "ayz". *)
Example completion_over_recorded_text :
  let w := run [CallPause; CallResume; Fire 5; Fire 6] recorded_page in
  out_text (dom recorded_page) = js "a"
  /\ promises (env recorded_page) !! 1 = Some Pending
  /\ promises (env w) !! 1 = Some Fulfilled
  /\ isTyping (eng w) = false
  /\ out_text (dom w) = js "ayz".
Proof. vm_compute. repeat split. Qed.

(** ** Navigation under a session *)

Lemma in_session_from_frame pre j text p k w w' :
  eng w' = eng w -> out_text (dom w') = out_text (dom w) ->
  (forall id t, timers (env w) !! id = Some t -> engine_closure (t_fn t) = true ->
     timers (env w') !! id = Some t) ->
  promises (env w') !! p = promises (env w) !! p ->
  next_promise (env w) <= next_promise (env w') ->
  in_session_from pre j text p k w -> in_session_from pre j text p k w'.
Proof.
  intros He Ho Ht Hp Hn (Hty & Hpa & Hco & Hpr & Hlt & id & d & Hid & Htm & Hpt).
  unfold in_session_from. rewrite He, Ho, Hp.
  do 4 (split; [assumption|]). split; [lia|].
  exists id, d. split; [exact Hid|]. split; [|exact Hpt].
  apply Ht; [exact Htm|].
  destruct k; cbn in Hpt |- *; try reflexivity; contradiction.
Qed.

(** [typeCurrentSnippet] while a session is in flight: the session goes
    on, over the page as it was when there is no snippet at the index,
    over the cleared page otherwise; no completion cue is played. *)
Lemma typeCurrentSnippet_under_session text p k w :
  in_session text p k w ->
  let w' := typeCurrentSnippet w in
  (exists j, j <= cursor k /\ in_session_from [] j text p k w')
  /\ cue_count Complete (trace (env w')) = cue_count Complete (trace (env w))
  /\ sound (env w') = sound (env w)
  /\ next_timer (env w') = next_timer (env w)
  /\ timers (env w') = timers (env w).
Proof.
  intros Hs. cbv zeta.
  destruct (snippet_at (snippets (ctl w)) (currentSnippetIndex (ctl w))) as [s|] eqn:Hsn.
  2:{ unfold typeCurrentSnippet. rewrite Hsn.
      split; [exists 0; split; [lia | apply in_session_from_start, Hs]|].
      repeat split. }
  pose proof Hs as (Hty & _ & _ & Hpr & Hlt & _).
  split; [|split; [|split; [|split]]].
  5:{ destruct (typeCurrentSnippet_eq w s Hsn) as (w1 & -> & He & Hv & _).
      rewrite (typeText_busy _ _ w1) by (rewrite He; exact Hty). cbn [fst snd].
      match goal with |- context [settle ?a ?b ?c] =>
        destruct (settle_frame a b c) as (_ & _ & _ & Htm & _); set (w2 := settle a b c) in * end.
      cbn in Htm. rewrite Hv in Htm. clearbody w2.
      unfold await. destruct (promises (env w2) !! _) as [[| |e]|]; cbn; rewrite Htm;
        reflexivity. }
  - exists (cursor k). split; [lia|].
    destruct (typeCurrentSnippet_eq w s Hsn) as (w1 & -> & He & Hv & _ & Ho).
    rewrite (typeText_busy _ _ w1) by (rewrite He; exact Hty). cbn [fst snd].
    rewrite Hv.
    set (np := next_promise (env w)).
    set (w2 := settle np (Rejected (Error "Already typing")) (snd (new_promise w1))).
    destruct (settle_frame np (Rejected (Error "Already typing")) (snd (new_promise w1)))
      as (He2 & Hd2 & _ & Ht2 & _ & Hn2 & _ & _ & Hp2).
    fold w2 in He2, Hd2, Ht2, Hn2, Hp2.
    assert (H2 : eng w2 = eng w /\ out_text (dom w2) = []
                 /\ timers (env w2) = timers (env w)
                 /\ promises (env w2) !! p = Some Pending
                 /\ next_promise (env w) <= next_promise (env w2)).
    { rewrite He2, Hd2, Ht2, Hn2, Hp2 by (subst np; lia). cbn.
      rewrite He, Hv, Ho. repeat split; try lia.
      rewrite lookup_insert_ne by (subst np; lia). exact Hpr. }
    destruct H2 as (He3 & Ho3 & Ht3 & Hp3 & Hn3). clearbody w2.
    apply (in_session_cleared text p k w).
    + unfold await. destruct (promises (env w2) !! np) as [[| |e]|]; cbn; exact He3.
    + unfold await. destruct (promises (env w2) !! np) as [[| |e]|]; cbn; exact Ho3.
    + unfold await. destruct (promises (env w2) !! np) as [[| |e]|]; cbn; exact Ht3.
    + unfold await. destruct (promises (env w2) !! np) as [[| |e]|]; cbn; exact Hp3.
    + unfold await. destruct (promises (env w2) !! np) as [[| |e]|]; cbn; exact Hn3.
    + exact Hs.
  - destruct (typeCurrentSnippet_eq w s Hsn) as (w1 & -> & He & Hv & _).
    rewrite (typeText_busy _ _ w1) by (rewrite He; exact Hty). cbn [fst snd].
    match goal with |- context [settle ?a ?b ?c] =>
      destruct (settle_trace a b c) as (Htr & _); set (w2 := settle a b c) in * end.
    cbn in Htr. rewrite Hv in Htr. clearbody w2.
    unfold await. destruct (promises (env w2) !! _) as [[| |e]|]; cbn; rewrite Htr;
      reflexivity.
  - destruct (typeCurrentSnippet_eq w s Hsn) as (w1 & -> & He & Hv & _).
    rewrite (typeText_busy _ _ w1) by (rewrite He; exact Hty). cbn [fst snd].
    match goal with |- context [settle ?a ?b ?c] =>
      destruct (settle_trace a b c) as (_ & Hsd); set (w2 := settle a b c) in * end.
    cbn in Hsd. rewrite Hv in Hsd. clearbody w2.
    unfold await. destruct (promises (env w2) !! _) as [[| |e]|]; cbn; rewrite Hsd;
      reflexivity.
  - destruct (typeCurrentSnippet_eq w s Hsn) as (w1 & -> & He & Hv & _).
    rewrite (typeText_busy _ _ w1) by (rewrite He; exact Hty). cbn [fst snd].
    match goal with |- context [settle ?a ?b ?c] =>
      destruct (settle_frame a b c) as (_ & _ & _ & _ & Hnt & _); set (w2 := settle a b c) in * end.
    cbn in Hnt. rewrite Hv in Hnt. clearbody w2.
    unfold await. destruct (promises (env w2) !! _) as [[| |e]|]; cbn; rewrite Hnt;
      reflexivity.
Qed.

(** A navigation call while a session is in flight and no rotation
    handle is held: after the turn the session goes on. *)
Lemma navigation_under_session text p k e w :
  timers_fresh w ->
  in_session text p k w ->
  typingCompleteTimer (ctl w) = None -> autoRotateTimer (ctl w) = None ->
  navigation e = true ->
  let w' := step e w in
  (exists j, j <= cursor k /\ in_session_from [] j text p k w')
  /\ cue_count Complete (trace (env w')) = cue_count Complete (trace (env w))
  /\ sound (env w') = sound (env w).
Proof.
  intros Hfresh Hs Htc Har Hnav. cbv zeta.
  assert (Hgo : forall w0,
    eng w0 = eng w -> out_text (dom w0) = out_text (dom w) -> env w0 = env w ->
    let w' := typeCurrentSnippet w0 in
    (exists j, j <= cursor k /\ in_session_from [] j text p k w')
    /\ cue_count Complete (trace (env w')) = cue_count Complete (trace (env w))
    /\ sound (env w') = sound (env w)
    /\ next_timer (env w') = next_timer (env w)
    /\ timers (env w') = timers (env w)).
  { intros w0 He Ho Hv. cbv zeta.
    assert (Hs0 : in_session text p k w0).
    { apply (in_session_frame text p k w); rewrite ?He, ?Ho, ?Hv; auto. }
    destruct (typeCurrentSnippet_under_session text p k w0 Hs0)
      as (Hj & Hc & Hsd & Hnt & Htm).
    rewrite Hc, Hsd, Hnt, Htm, Hv. auto. }
  assert (Hdrain : forall w1,
    (exists j, j <= cursor k /\ in_session_from [] j text p k w1)
    /\ cue_count Complete (trace (env w1)) = cue_count Complete (trace (env w))
    /\ sound (env w1) = sound (env w) ->
    (exists j, j <= cursor k /\ in_session_from [] j text p k (drain w1))
    /\ cue_count Complete (trace (env (drain w1))) = cue_count Complete (trace (env w))
    /\ sound (env (drain w1)) = sound (env w)).
  { intros w1 ((j & Hj & Hin) & Hc & Hsd).
    split; [exists j; split; [exact Hj | apply in_session_from_drain, Hin]|].
    rewrite drain_cues. destruct (as_silent_drain w1) as (-> & _). auto. }
  assert (Hcrt : forall w0, typingCompleteTimer (ctl w0) = None ->
            autoRotateTimer (ctl w0) = None ->
            eng (clearRotationTimers w0) = eng w0
            /\ dom (clearRotationTimers w0) = dom w0
            /\ env (clearRotationTimers w0) = env w0).
  { intros w0 H1 H2. unfold clearRotationTimers. rewrite H2. cbv zeta. rewrite H1.
    repeat split. }
  destruct (Hcrt w Htc Har) as (Hce & Hcd & Hcv).
  unfold step. apply Hdrain.
  destruct e; try discriminate; cbn [handle].
  - unfold nextSnippet. cbv zeta.
    destruct (Hgo (upd_ctl (fun c => set_currentSnippetIndex
                (js_rem (js_add (currentSnippetIndex c) 1)
                        (Z.of_nat (length (snippets c)))) c) (clearRotationTimers w)))
      as (H1 & H2 & H3 & _); cbn; rewrite ?Hce, ?Hcd, ?Hcv; auto.
  - unfold previousSnippet. cbv zeta.
    destruct (Hgo (upd_ctl (fun c => set_currentSnippetIndex
                (if js_is_zero (currentSnippetIndex c)
                 then Num (Z.of_nat (length (snippets c)) - 1)
                 else js_add (currentSnippetIndex c) (-1)) c) (clearRotationTimers w)))
      as (H1 & H2 & H3 & _); cbn; rewrite ?Hce, ?Hcd, ?Hcv; auto.
  - unfold restartCurrentSnippet. cbv zeta.
    destruct (Hgo (clearRotationTimers w)) as (H1 & H2 & H3 & _);
      rewrite ?Hce, ?Hcd, ?Hcv; auto.
  - unfold handleUserInteraction. cbv zeta.
    set (wa := clearRotationTimers (upd_ctl (set_isUserInteracting true) w)).
    assert (Ha : eng wa = eng w /\ dom wa = dom w /\ env wa = env w
                 /\ typingCompleteTimer (ctl wa) = None
                 /\ autoRotateTimer (ctl wa) = None).
    { subst wa.
      destruct (Hcrt (upd_ctl (set_isUserInteracting true) w) Htc Har) as (-> & -> & ->).
      rewrite clearRotationTimers_eq. repeat split. }
    destruct Ha as (Hae & Had & Hav & Hat & Haa). clearbody wa.
    destruct (Hcrt wa Hat Haa) as (Hbe & Hbd & Hbv).
    unfold nextSnippet. cbv zeta.
    destruct (Hgo (upd_ctl (fun c => set_currentSnippetIndex
                (js_rem (js_add (currentSnippetIndex c) 1)
                        (Z.of_nat (length (snippets c)))) c) (clearRotationTimers wa)))
      as ((j & Hj & Hin) & H2 & H3 & H4 & H5);
      [cbn; rewrite Hbe; exact Hae | cbn; rewrite Hbd, Had; reflexivity
      | cbn; rewrite Hbv; exact Hav |].
    match goal with |- context [setTimeout Cooldown 5000 ?x] => set (wn := x) in * end.
    clearbody wn. unfold setTimeout. cbn [snd].
    split; [|split; [exact H2 | exact H3]].
    exists j. split; [exact Hj|].
    apply (in_session_from_frame [] j text p k wn);
      [reflexivity | reflexivity | | reflexivity | cbn; lia | exact Hin].
    cbn. intros id t Hin' _.
    rewrite lookup_insert_ne; [exact Hin'|].
    intros <-. rewrite H5, H4 in Hin'.
    apply Hfresh in Hin'. lia.
  - unfold setSnippet. case_if.
    + cbv zeta.
      destruct (Hgo (upd_ctl (set_currentSnippetIndex index) (clearRotationTimers w)))
        as (H1 & H2 & H3 & _); cbn; rewrite ?Hce, ?Hcd, ?Hcv; auto.
    + split; [exists 0; split; [lia | apply in_session_from_start, Hs]|].
      split; reflexivity.
Qed.

(** C5. [stop] on a page that is typing the session of promise [p]
    cancels the engine's timer, and from then on: no callback of the
    engine is pending; whatever happens next (timers, calls of any
    method), [p] is never settled; and as time passes, until some call
    of [typeText] makes a new promise, the engine stays as it is, the
    text on screen stays, the completion cue is not played and no timer,
    so no hold timer, is scheduled.  That is the claim, for [stop].  A
    navigation call cancels nothing: on a page that holds no rotation
    handle, after [nextSnippet], [previousSnippet], [setSnippet],
    [restartCurrentSnippet] or a click, the engine is still typing the
    old session, and as its timers fire the promise [p] is fulfilled,
    the characters of the old text from some position [j] at or before
    the cursor are on the page, and the completion cue has been played
    once when the sound is on. *)
Theorem C5_stop_abandons_navigation_does_not (w : World) (p : nat) :
  reachable w -> session_of p w ->
  let w' := step CallStop w in
  isTyping (eng w') = false
  /\ engine_idle w'
  /\ (forall es, promises (env (run es w')) !! p = Some Pending)
  /\ (forall ids,
        let w'' := run (List.map Fire ids) w' in
        next_promise (env w'') = next_promise (env w') ->
        nothing_typed w' w'')
  /\ (forall text k e,
        in_session text p k w ->
        typingCompleteTimer (ctl w) = None -> autoRotateTimer (ctl w) = None ->
        navigation e = true ->
        let w1 := step e w in
        isTyping (eng w1) = true
        /\ exists j w2,
             j <= cursor k
             /\ await_run (remaining text k) p w1 = Some w2
             /\ promises (env w2) !! p = Some Fulfilled
             /\ out_text (dom w2) = drop j text
             /\ cue_count Complete (trace (env w2))
                = cue_count Complete (trace (env w)) + if audio_on w then 1 else 0).
Proof.
  intros Hreach Hs w'. pose proof Hs as (Hty & Hco & Hp & Hlt).
  pose proof (reachable_wf w Hreach) as Hwf.
  destruct (wf_stop w Hwf) as (Hwfs & Hidles).
  destruct (drain_frame (stop w)) as (He & _ & Ht & _).
  assert (Hidle : engine_idle w').
  { subst w'. unfold step, handle. eapply engine_idle_ext; [exact Ht | exact Hidles]. }
  assert (Hab : abandoned p w').
  { subst w'. unfold step, handle. apply abandoned_drain.
    rewrite stop_eq. unfold abandoned. cbn. auto. }
  split; [|split; [exact Hidle | split; [|split]]].
  - subst w'. unfold step, handle. rewrite He, stop_eq. reflexivity.
  - intros es. apply (abandoned_run p es w' Hab).
  - intros ids w'' Hn. apply quiet_run; assumption.
  - intros text k e Hin Htc Har Hnav w1.
    destruct (navigation_under_session text p k e w (proj1 Hwf) Hin Htc Har Hnav)
      as ((j & Hj & Hin1) & Hc1 & Hs1).
    fold w1 in Hin1, Hc1, Hs1.
    split; [apply Hin1|].
    destruct (session_completes_with_cue [] j text p (remaining text k) k w1 Hin1
                (le_n _)) as (w2 & Hrun & (Hf & Ho & _) & Hcue).
    exists j, w2. split; [exact Hj|]. split; [exact Hrun|].
    split; [exact Hf|]. split; [exact Ho|].
    rewrite Hcue, Hc1. unfold audio_on. rewrite Hs1. reflexivity.
Qed.

Lemma C5_stop_abandons_navigation_does_not_witness :
  isTyping (eng (step CallStop two_page_typing)) = false
  /\ (forall es, promises (env (run es (step CallStop two_page_typing))) !! 0
                 = Some Pending)
  /\ exists j w2,
       j <= 1
       /\ await_run 4 0 (step CallNextSnippet two_page_typing) = Some w2
       /\ promises (env w2) !! 0 = Some Fulfilled
       /\ out_text (dom w2) = drop j (js "ab")
       /\ cue_count Complete (trace (env w2)) = 1.
Proof.
  destruct (C5_stop_abandons_navigation_does_not two_page_typing 0)
    as (H1 & _ & H3 & _ & H5).
  - apply (reach_step (Fire 1) two_page). apply reach_init.
  - unfold session_of. vm_compute. repeat split. constructor.
  - split; [exact H1|]. split; [exact H3|].
    destruct (H5 (js "ab") (TypeNext (js "ab") 0) CallNextSnippet)
      as (_ & j & w2 & Hj & Hrun & Hf & Ho & Hc); try reflexivity.
    + unfold in_session. do 4 (split; [reflexivity|]). split; [vm_compute; lia|].
      exists 2%positive, (240 # 4). vm_compute. repeat split. lia.
    + exists j, w2. auto.
Defined.

(** ** Pause and resume during the hold *)











